(** * EXCELDaddy: the validation engine of [lib/validation.ts]

    A shallow embedding of the spreadsheet validation code and of the
    normalizers of [app/page.tsx], with the properties of the specification
    stated and settled over it.

    Layout:
    - [JS]: the fragment of the ECMAScript standard library the code calls
      (numbers, strings, conversions, [JSON.parse], [JSON.stringify]);
    - [Validation]: [lib/validation.ts], function by function;
    - [Page]: the normalizer [normalizePreferredPhases] of [app/page.tsx];
    - [Spec]: the definitions the statements are written with;
    - the theorems, claim by claim. *)

From Stdlib Require Import ZArith List String Ascii Bool Lia FinFun.
From Stdlib Require Import Numbers.DecimalString.
From Stdlib Require DecimalPos DecimalFacts.
Import ListNotations.

Set Warnings "-register-all".

Open Scope string_scope.
Open Scope Z_scope.

(* ================================================================== *)
(** * The ECMAScript fragment *)
(* ================================================================== *)

Module JS.

(** ** Exceptions and completion records *)

Inductive exn : Type := TypeError | RangeError | SyntaxError.

Inductive result (A : Type) : Type :=
| Ok (a : A)
| Throw (e : exn).
Arguments Ok {A} a.
Arguments Throw {A} e.

Definition bind {A B} (m : result A) (k : A -> result B) : result B :=
  match m with
  | Ok a => k a
  | Throw e => Throw e
  end.

Notation "x <- m ;; k" := (bind m (fun x => k))
  (at level 61, m at next level, right associativity).

(** [try { m } catch { h }] *)
Definition catch {A} (m : result A) (h : A) : A :=
  match m with
  | Ok a => a
  | Throw _ => h
  end.

(** ** Numbers

    The Number type is modelled by the integers and [NaN]: the cells the
    validators read as numbers hold identifiers, counts, phases and
    durations.  Arithmetic is exact (no rounding above 2^53, no infinities,
    no negative zero); a decimal literal that denotes a non-integer is read
    as its integer part. *)

Inductive num : Type := NaN | Fin (z : Z).

Definition isNaN (n : num) : bool :=
  match n with NaN => true | Fin _ => false end.

Definition num_add (a b : num) : num :=
  match a, b with Fin x, Fin y => Fin (x + y) | _, _ => NaN end.

Definition num_sub (a b : num) : num :=
  match a, b with Fin x, Fin y => Fin (x - y) | _, _ => NaN end.

Definition num_mul (a b : num) : num :=
  match a, b with Fin x, Fin y => Fin (x * y) | _, _ => NaN end.

(** [a < b]; a comparison with [NaN] is false *)
Definition num_lt (a b : num) : bool :=
  match a, b with Fin x, Fin y => x <? y | _, _ => false end.

Definition num_gt (a b : num) : bool := num_lt b a.

Definition num_eqb (a b : num) : bool :=
  match a, b with
  | NaN, NaN => true
  | Fin x, Fin y => x =? y
  | _, _ => false
  end.

(** ** Values

    What a spreadsheet cell or a [JSON.parse] result can be.  An object is
    the list of its own properties. *)

Inductive any : Type :=
| Undefined
| Null
| Boolean (b : bool)
| Number (n : num)
| Str (s : string)
| Arr (l : list any)
| Obj (l : list (string * any)).

Fixpoint get (o : list (string * any)) (k : string) : any :=
  match o with
  | [] => Undefined
  | (k', v) :: o' => if String.eqb k' k then v else get o' k
  end.

Fixpoint has (o : list (string * any)) (k : string) : bool :=
  match o with
  | [] => false
  | (k', _) :: o' => String.eqb k' k || has o' k
  end.

(** [o[k] = v]: overwrite in place, or add the property last *)
Fixpoint set (o : list (string * any)) (k : string) (v : any)
  : list (string * any) :=
  match o with
  | [] => [(k, v)]
  | (k', v') :: o' =>
      if String.eqb k' k then (k', v) :: o' else (k', v') :: set o' k v
  end.

Definition keys (o : list (string * any)) : list string := map fst o.

(** ** Characters and strings

    Strings are sequences of code units below 256. *)

Definition code (c : ascii) : Z := Z.of_N (N_of_ascii c).

Definition chr (z : Z) : ascii := ascii_of_N (Z.to_N z).

Definition dquote : ascii := chr 34.
Definition backslash : ascii := chr 92.

(** WhiteSpace and LineTerminator: what [trim], [\s] and [Number] skip *)
Definition is_space (c : ascii) : bool :=
  let n := code c in
  ((9 <=? n) && (n <=? 13)) || (n =? 32) || (n =? 160).

Definition is_digit (c : ascii) : bool :=
  let n := code c in (48 <=? n) && (n <=? 57).

Fixpoint trimStart (s : string) : string :=
  match s with
  | EmptyString => EmptyString
  | String c s' => if is_space c then trimStart s' else s
  end.

Fixpoint trimEnd (s : string) : string :=
  match s with
  | EmptyString => EmptyString
  | String c s' =>
      match trimEnd s' with
      | EmptyString => if is_space c then EmptyString else String c EmptyString
      | t => String c t
      end
  end.

Definition trim (s : string) : string := trimEnd (trimStart s).

(** [s.split(sep)] for a one-character separator *)
Fixpoint split (sep : ascii) (s : string) : list string :=
  match s with
  | EmptyString => [EmptyString]
  | String c s' =>
      if Ascii.eqb c sep then EmptyString :: split sep s'
      else
        match split sep s' with
        | x :: r => String c x :: r
        | [] => [String c EmptyString]
        end
  end.

(** [s.includes(c)] for a one-character needle *)
Fixpoint includes (s : string) (c : ascii) : bool :=
  match s with
  | EmptyString => false
  | String c' s' => Ascii.eqb c' c || includes s' c
  end.

Definition startsWith (s p : string) : bool := String.prefix p s.

Definition lower (c : ascii) : ascii :=
  let n := code c in
  if ((65 <=? n) && (n <=? 90))
     || ((192 <=? n) && (n <=? 222) && negb (n =? 215))
  then chr (n + 32) else c.

Fixpoint toLowerCase (s : string) : string :=
  match s with
  | EmptyString => EmptyString
  | String c s' => String (lower c) (toLowerCase s')
  end.

(** [s.replace(/\s+/g, ' ')]; [run] tells that the previous character was
    white space *)
Fixpoint replace_spaces (run : bool) (s : string) : string :=
  match s with
  | EmptyString => EmptyString
  | String c s' =>
      if is_space c
      then if run then replace_spaces true s'
           else String " " (replace_spaces true s')
      else String c (replace_spaces false s')
  end.

Fixpoint join (sep : string) (l : list string) : string :=
  match l with
  | [] => EmptyString
  | [x] => x
  | x :: l' => x ++ sep ++ join sep l'
  end.

Definition strlen (s : string) : Z := Z.of_nat (String.length s).

(** ** Numeric literals *)

Definition digit_val (c : ascii) : Z := code c - 48.

Definition hex_val (c : ascii) : option Z :=
  let n := code c in
  if (48 <=? n) && (n <=? 57) then Some (n - 48)
  else if (97 <=? n) && (n <=? 102) then Some (n - 87)
  else if (65 <=? n) && (n <=? 70) then Some (n - 55)
  else None.

(** the leading decimal digits of [s], their value so far in [acc], their
    count, and the rest *)
Fixpoint read_digits (s : string) (acc : Z) (cnt : nat) : Z * nat * string :=
  match s with
  | String c s' =>
      if is_digit c then read_digits s' (acc * 10 + digit_val c) (S cnt)
      else (acc, cnt, s)
  | EmptyString => (acc, cnt, s)
  end.

(** digits of radix [b] up to the end of the string *)
Fixpoint read_radix (b : Z) (s : string) (acc : Z) : option Z :=
  match s with
  | EmptyString => Some acc
  | String c s' =>
      match hex_val c with
      | Some d => if d <? b then read_radix b s' (acc * b + d) else None
      | None => None
      end
  end.

(** [m * 10^e], cut to its integer part *)
Definition scale (m e : Z) : Z :=
  if 0 <=? e then m * 10 ^ e else Z.quot m (10 ^ (- e)).

(** an optional exponent part [e[+-]ddd]; [None] when one starts and is
    malformed *)
Definition read_exponent (s : string) : option (Z * string) :=
  match s with
  | String c s' =>
      if Ascii.eqb c "e" || Ascii.eqb c "E" then
        let '(neg, s'') :=
          match s' with
          | String d t =>
              if Ascii.eqb d "-" then (true, t)
              else if Ascii.eqb d "+" then (false, t)
              else (false, s')
          | EmptyString => (false, s')
          end in
        match read_digits s'' 0 0%nat with
        | (_, O, _) => None
        | (e, _, rest) => Some (if neg then - e else e, rest)
        end
      else Some (0, s)
  | EmptyString => Some (0, s)
  end.

(** StrUnsignedDecimalLiteral, to the end of the string: digits, an optional
    fraction and an optional exponent, with a digit before or after the dot
    (the literal [Infinity] has no value among the integers: it reads as
    [NaN]) *)
Definition read_unsigned_decimal (s : string) : num :=
  let '(ip, ni, s1) := read_digits s 0 0%nat in
  let '(fp, nf, s2) :=
    match s1 with
    | String c t => if Ascii.eqb c "." then read_digits t ip 0%nat
                    else (ip, 0%nat, s1)
    | EmptyString => (ip, 0%nat, s1)
    end in
  if (Nat.eqb ni 0 && Nat.eqb nf 0) then NaN
  else
    match read_exponent s2 with
    | Some (e, EmptyString) => Fin (scale fp (e - Z.of_nat nf))
    | _ => NaN
    end.

(** StringToNumber *)
Definition StringToNumber (s : string) : num :=
  match trim s with
  | EmptyString => Fin 0
  | String c t as lit =>
      match t with
      | String x digits =>
          if Ascii.eqb c "0" && (Ascii.eqb x "x" || Ascii.eqb x "X") then
            match digits, read_radix 16 digits 0 with
            | String _ _, Some v => Fin v
            | _, _ => NaN
            end
          else if Ascii.eqb c "0" && (Ascii.eqb x "o" || Ascii.eqb x "O") then
            match digits, read_radix 8 digits 0 with
            | String _ _, Some v => Fin v
            | _, _ => NaN
            end
          else if Ascii.eqb c "0" && (Ascii.eqb x "b" || Ascii.eqb x "B") then
            match digits, read_radix 2 digits 0 with
            | String _ _, Some v => Fin v
            | _, _ => NaN
            end
          else if Ascii.eqb c "-" then
            num_sub (Fin 0) (read_unsigned_decimal t)
          else if Ascii.eqb c "+" then read_unsigned_decimal t
          else read_unsigned_decimal lit
      | EmptyString => read_unsigned_decimal lit
      end
  end.

(** Number::toString, in plain decimal digits (ECMAScript switches to the
    exponent form from 10^21 on, far above the counts and phases of a
    sheet) *)
Definition NumberToString (n : num) : string :=
  match n with
  | NaN => "NaN"
  | Fin z => NilZero.string_of_int (Z.to_int z)
  end.


(** ** Conversions *)

(** ToString.  An array joins its elements; an object prints through
    [Object.prototype.toString] unless an own property [toString] hides it,
    and then no method returns a primitive. *)
Fixpoint ToString (v : any) : result string :=
  match v with
  | Undefined => Ok "undefined"
  | Null => Ok "null"
  | Boolean b => Ok (if b then "true" else "false")
  | Number n => Ok (NumberToString n)
  | Str s => Ok s
  | Arr l =>
      ss <- (fix elements (l : list any) : result (list string) :=
               match l with
               | [] => Ok []
               | x :: l' =>
                   s <- match x with
                        | Undefined | Null => Ok EmptyString
                        | _ => ToString x
                        end ;;
                   r <- elements l' ;;
                   Ok (s :: r)
               end) l ;;
      Ok (join "," ss)
  | Obj o => if has o "toString" then Throw TypeError
             else Ok "[object Object]"
  end.

(** ToNumber, which is what [Number(v)] computes *)
Definition ToNumber (v : any) : result num :=
  match v with
  | Undefined => Ok NaN
  | Null => Ok (Fin 0)
  | Boolean b => Ok (Fin (if b then 1 else 0))
  | Number n => Ok n
  | Str s => Ok (StringToNumber s)
  | Arr _ | Obj _ => s <- ToString v ;; Ok (StringToNumber s)
  end.

Definition ToBoolean (v : any) : bool :=
  match v with
  | Undefined | Null => false
  | Boolean b => b
  | Number NaN => false
  | Number (Fin z) => negb (z =? 0)
  | Str s => negb (String.eqb s EmptyString)
  | Arr _ | Obj _ => true
  end.

(** the global [isNaN(v)] *)
Definition global_isNaN (v : any) : result bool :=
  n <- ToNumber v ;; Ok (isNaN n).

(** SameValueZero, the equality of [Set] and [Map].  Objects and arrays are
    compared by identity; the ones met here come out of separate
    [JSON.parse] calls and are never the same object. *)
Definition SameValueZero (a b : any) : bool :=
  match a, b with
  | Undefined, Undefined => true
  | Null, Null => true
  | Boolean x, Boolean y => Bool.eqb x y
  | Number x, Number y => num_eqb x y
  | Str x, Str y => String.eqb x y
  | _, _ => false
  end.

(** [v.length] *)
Definition length_of (v : any) : result any :=
  match v with
  | Undefined | Null => Throw TypeError
  | Str s => Ok (Number (Fin (strlen s)))
  | Arr l => Ok (Number (Fin (Z.of_nat (List.length l))))
  | Obj o => Ok (get o "length")
  | Boolean _ | Number _ => Ok Undefined
  end.

(** a method of [Array.prototype] called on [v]: only an array has it *)
Definition as_array (v : any) : result (list any) :=
  match v with
  | Arr l => Ok l
  | _ => Throw TypeError
  end.

(** [Array.from({ length: len }, (_, i) => start + i)] *)
Definition Array_from_length (len start : num) : result (list any) :=
  match len with
  | NaN => Ok []
  | Fin n =>
      if n <=? 0 then Ok []
      else if 4294967295 <? n then Throw RangeError
      else Ok (map (fun i => Number (num_add start (Fin (Z.of_nat i))))
                   (seq 0 (Z.to_nat n)))
  end.

(** ** JSON *)

Definition is_json_space (c : ascii) : bool :=
  let n := code c in (n =? 9) || (n =? 10) || (n =? 13) || (n =? 32).

Fixpoint skip_ws (s : string) : string :=
  match s with
  | EmptyString => EmptyString
  | String c s' => if is_json_space c then skip_ws s' else s
  end.

(** the character an escape letter stands for *)
Definition unescape (e : ascii) : option ascii :=
  let n := code e in
  if (n =? 34) || (n =? 92) || (n =? 47) then Some e
  else if n =? 98 then Some (chr 8)
  else if n =? 102 then Some (chr 12)
  else if n =? 110 then Some (chr 10)
  else if n =? 114 then Some (chr 13)
  else if n =? 116 then Some (chr 9)
  else None.

(** the code unit of a four-digit hexadecimal escape, kept below 256 *)
Definition hex4 (a b c d : ascii) : option ascii :=
  match hex_val a, hex_val b, hex_val c, hex_val d with
  | Some x, Some y, Some z, Some w =>
      Some (chr ((((x * 16 + y) * 16 + z) * 16 + w) mod 256))
  | _, _, _, _ => None
  end.

Definition cons_char (c : ascii) (r : option (string * string))
  : option (string * string) :=
  match r with
  | Some (s, rest) => Some (String c s, rest)
  | None => None
  end.

(** a string literal after its opening quote: its value and what follows the
    closing quote *)
Fixpoint parse_string (s : string) : option (string * string) :=
  match s with
  | EmptyString => None
  | String c s' =>
      if Ascii.eqb c dquote then Some (EmptyString, s')
      else if Ascii.eqb c backslash then
        match s' with
        | String e s'' =>
            if Ascii.eqb e "u" then
              match s'' with
              | String h1 (String h2 (String h3 (String h4 rest))) =>
                  match hex4 h1 h2 h3 h4 with
                  | Some ch => cons_char ch (parse_string rest)
                  | None => None
                  end
              | _ => None
              end
            else
              match unescape e with
              | Some ch => cons_char ch (parse_string s'')
              | None => None
              end
        | EmptyString => None
        end
      else if code c <? 32 then None
      else cons_char c (parse_string s')
  end.

(** the integer part of a number literal: a zero, or digits that start
    with another digit *)
Definition parse_int (s : string) : option (Z * string) :=
  match s with
  | String c t =>
      if is_digit c then
        if Ascii.eqb c "0" then Some (0, t)
        else let '(v, _, r) := read_digits s 0 0%nat in Some (v, r)
      else None
  | EmptyString => None
  end.

(** an optional fraction after the integer part [ip]: the digits read so
    far, how many follow the dot, and the rest *)
Definition parse_frac (ip : Z) (s : string) : option (Z * nat * string) :=
  match s with
  | String d u =>
      if Ascii.eqb d "." then
        match read_digits u ip 0%nat with
        | (_, O, _) => None
        | (v, n, r) => Some (v, n, r)
        end
      else Some (ip, 0%nat, s)
  | EmptyString => Some (ip, 0%nat, s)
  end.

(** a number literal: [-]? int frac? exp? *)
Definition parse_number (s : string) : option (num * string) :=
  let '(neg, s0) :=
    match s with
    | String c t => if Ascii.eqb c "-" then (true, t) else (false, s)
    | EmptyString => (false, s)
    end in
  match parse_int s0 with
  | Some (ip, s1) =>
      match parse_frac ip s1 with
      | Some (m, nf, s2) =>
          match read_exponent s2 with
          | Some (e, rest) =>
              let v := scale m (e - Z.of_nat nf) in
              Some (Fin (if neg then - v else v), rest)
          | None => None
          end
      | None => None
      end
  | None => None
  end.

Fixpoint drop_prefix (p s : string) : option string :=
  match p, s with
  | EmptyString, _ => Some s
  | String a p', String b s' =>
      if Ascii.eqb a b then drop_prefix p' s' else None
  | String _ _, EmptyString => None
  end.

(** the outcome of a parser: a value and the rest of the text, a syntax
    error, or not enough fuel *)
Inductive parsed (A : Type) : Type :=
| Parsed (a : A) (rest : string)
| Malformed
| OutOfFuel.
Arguments Parsed {A} a rest.
Arguments Malformed {A}.
Arguments OutOfFuel {A}.

Fixpoint parse_value (fuel : nat) (s : string) : parsed any :=
  match fuel with
  | O => OutOfFuel
  | S fuel' =>
      match skip_ws s with
      | EmptyString => Malformed
      | String c t =>
          if Ascii.eqb c "{" then
            match skip_ws t with
            | String c' r =>
                if Ascii.eqb c' "}" then Parsed (Obj []) r
                else parse_members fuel' t []
            | EmptyString => Malformed
            end
          else if Ascii.eqb c "[" then
            match skip_ws t with
            | String c' r =>
                if Ascii.eqb c' "]" then Parsed (Arr []) r
                else parse_elements fuel' t []
            | EmptyString => Malformed
            end
          else if Ascii.eqb c dquote then
            match parse_string t with
            | Some (str, r) => Parsed (Str str) r
            | None => Malformed
            end
          else if Ascii.eqb c "-" || is_digit c then
            match parse_number (String c t) with
            | Some (n, r) => Parsed (Number n) r
            | None => Malformed
            end
          else
            match drop_prefix "null" (String c t) with
            | Some r => Parsed Null r
            | None =>
                match drop_prefix "true" (String c t) with
                | Some r => Parsed (Boolean true) r
                | None =>
                    match drop_prefix "false" (String c t) with
                    | Some r => Parsed (Boolean false) r
                    | None => Malformed
                    end
                end
            end
      end
  end

with parse_elements (fuel : nat) (s : string) (acc : list any) : parsed any :=
  match fuel with
  | O => OutOfFuel
  | S fuel' =>
      match parse_value fuel' s with
      | Parsed v r =>
          match skip_ws r with
          | String c r' =>
              if Ascii.eqb c "," then parse_elements fuel' r' (acc ++ [v])
              else if Ascii.eqb c "]" then Parsed (Arr (acc ++ [v])) r'
              else Malformed
          | EmptyString => Malformed
          end
      | Malformed => Malformed
      | OutOfFuel => OutOfFuel
      end
  end

with parse_members (fuel : nat) (s : string) (acc : list (string * any))
  : parsed any :=
  match fuel with
  | O => OutOfFuel
  | S fuel' =>
      match skip_ws s with
      | String q t =>
          if Ascii.eqb q dquote then
            match parse_string t with
            | Some (k, r) =>
                match skip_ws r with
                | String colon r1 =>
                    if Ascii.eqb colon ":" then
                      match parse_value fuel' r1 with
                      | Parsed v r2 =>
                          match skip_ws r2 with
                          | String c r3 =>
                              if Ascii.eqb c ","
                              then parse_members fuel' r3 (set acc k v)
                              else if Ascii.eqb c "}"
                              then Parsed (Obj (set acc k v)) r3
                              else Malformed
                          | EmptyString => Malformed
                          end
                      | Malformed => Malformed
                      | OutOfFuel => OutOfFuel
                      end
                    else Malformed
                | EmptyString => Malformed
                end
            | None => Malformed
            end
          else Malformed
      | EmptyString => Malformed
      end
  end.

(** every call of the three parsers consumes a character before the next
    call, or is the element loop handing over to the value parser *)
Definition parse_fuel (s : string) : nat := (3 + 2 * String.length s)%nat.

(** [JSON.parse(text)] *)
Definition JSON_parse (text : string) : result any :=
  match parse_value (parse_fuel text) text with
  | Parsed v rest =>
      match skip_ws rest with
      | EmptyString => Ok v
      | String _ _ => Throw SyntaxError
      end
  | Malformed | OutOfFuel => Throw SyntaxError
  end.

Definition hex_digit (n : Z) : ascii :=
  if n <? 10 then chr (48 + n) else chr (87 + n).

(** how QuoteJSONString writes one code unit *)
Definition escape_char (c : ascii) : string :=
  let n := code c in
  if n =? 8 then String backslash "b"
  else if n =? 9 then String backslash "t"
  else if n =? 10 then String backslash "n"
  else if n =? 12 then String backslash "f"
  else if n =? 13 then String backslash "r"
  else if n =? 34 then String backslash (String dquote EmptyString)
  else if n =? 92 then String backslash (String backslash EmptyString)
  else if n <? 32 then
    String backslash
      (String "u" (String "0" (String "0"
         (String (hex_digit (n / 16))
            (String (hex_digit (n mod 16)) EmptyString)))))
  else String c EmptyString.

(** QuoteJSONString without the surrounding quotes *)
Fixpoint escape (s : string) : string :=
  match s with
  | EmptyString => EmptyString
  | String c s' => escape_char c ++ escape s'
  end.

Definition quote (s : string) : string :=
  String dquote (escape s ++ String dquote EmptyString).

(** [JSON.stringify(v)]: a string, or [undefined] for [undefined] *)
Fixpoint JSON_stringify (v : any) : any :=
  match v with
  | Undefined => Undefined
  | Null => Str "null"
  | Boolean b => Str (if b then "true" else "false")
  | Number NaN => Str "null"
  | Number n => Str (NumberToString n)
  | Str s => Str (quote s)
  | Arr l =>
      Str ("[" ++ join ","
             ((fix elements (l : list any) : list string :=
                 match l with
                 | [] => []
                 | x :: l' =>
                     match JSON_stringify x with
                     | Str t => t
                     | _ => "null"
                     end :: elements l'
                 end) l) ++ "]")
  | Obj o =>
      Str ("{" ++ join ","
             ((fix members (o : list (string * any)) : list string :=
                 match o with
                 | [] => []
                 | (k, x) :: o' =>
                     match JSON_stringify x with
                     | Str t => (quote k ++ ":" ++ t) :: members o'
                     | _ => members o'
                     end
                 end) o) ++ "}")
  end.

End JS.

Import JS.

(* ================================================================== *)
(** * lib/validation.ts *)
(* ================================================================== *)

Module Validation.

(** ** Rows, the store and errors

    A row is a plain object.  The sheets hold references to their rows; the
    rows live in a store, since [validateAttributesJSON] writes to them. *)

Abbreviation row := (list (string * any)) (only parsing).
Abbreviation loc := nat (only parsing).
Definition heap : Type := loc -> row.

Definition update (h : heap) (l : loc) (r : row) : heap :=
  fun l' => if Nat.eqb l' l then r else h l'.

Inductive Severity : Type := error | warning.

Record ValidationError : Type := mkError {
  type : Severity;
  message : string;
  rowIndex : Z;
  column : string;
  sheetName : string;
  value : option any
}.

Record ValidationResult : Type := mkResult {
  isValid : bool;
  errors : list ValidationError
}.

(** [l.push(x)] and [l.push(...xs)] *)
Definition push {A : Type} (l : list A) (x : A) : list A := (l ++ [x])%list.
Definition push_all {A : Type} (l xs : list A) : list A := (l ++ xs)%list.

(** [l.forEach((x, index) => ...)], the callback acting on a state; the
    first exception ends the loop *)
Fixpoint forEach_from {A S : Type} (f : S -> A -> Z -> result S)
  (l : list A) (index : Z) (s : S) : result S :=
  match l with
  | [] => Ok s
  | x :: l' => s' <- f s x index ;; forEach_from f l' (index + 1) s'
  end.

Definition forEach {A S : Type} (f : S -> A -> Z -> result S)
  (l : list A) (s : S) : result S :=
  forEach_from f l 0 s.

(** [l.map(f)] with a callback that can throw *)
Fixpoint mapM {A B : Type} (f : A -> result B) (l : list A)
  : result (list B) :=
  match l with
  | [] => Ok []
  | x :: l' => y <- f x ;; r <- mapM f l' ;; Ok (y :: r)
  end.

(** [l.filter(f)] with a callback that can throw *)
Fixpoint filterM {A : Type} (f : A -> result bool) (l : list A)
  : result (list A) :=
  match l with
  | [] => Ok []
  | x :: l' =>
      b <- f x ;; r <- filterM f l' ;; Ok (if b then x :: r else r)
  end.

(** [l.some(f)]: stops at the first hit *)
Fixpoint some {A : Type} (f : A -> result bool) (l : list A) : result bool :=
  match l with
  | [] => Ok false
  | x :: l' => b <- f x ;; if b then Ok true else some f l'
  end.

(** [a.includes(s)] on an array of strings, [set.has(s)] on a [Set<string>] *)
Definition includes_string (l : list string) (s : string) : bool :=
  existsb (String.eqb s) l.

(** [set.has(v)] *)
Definition Set_has (l : list any) (v : any) : bool :=
  existsb (fun x => SameValueZero x v) l.

(** a [Map] in insertion order *)
Fixpoint Map_get {V : Type} (m : list (any * V)) (k : any) : option V :=
  match m with
  | [] => None
  | (k', v) :: m' => if SameValueZero k' k then Some v else Map_get m' k
  end.

Fixpoint Map_set {V : Type} (m : list (any * V)) (k : any) (v : V)
  : list (any * V) :=
  match m with
  | [] => [(k, v)]
  | (k', v') :: m' =>
      if SameValueZero k' k then (k', v) :: m' else (k', v') :: Map_set m' k v
  end.

(** [x || 0] on what [Map.get] gave *)
Definition or_zero (x : option num) : num :=
  match x with
  | Some (Fin z) => Fin z
  | Some NaN | None => Fin 0
  end.

(** ** The sheet kinds *)

(** the property [REQUIRED_COLUMNS[key]]: an own list of columns, a member
    inherited from [Object.prototype], or [undefined] *)
Inductive columns_property : Type :=
| Columns (l : list string)
| Inherited
| Missing.

Definition Object_prototype : list string :=
  [ "constructor"; "__defineGetter__"; "__defineSetter__"; "hasOwnProperty";
    "__lookupGetter__"; "__lookupSetter__"; "isPrototypeOf";
    "propertyIsEnumerable"; "toString"; "valueOf"; "__proto__";
    "toLocaleString" ].

Definition REQUIRED_COLUMNS (key : string) : columns_property :=
  if String.eqb key "Clients" then
    Columns [ "ClientID"; "ClientName"; "PriorityLevel"; "RequestedTaskIDs";
              "GroupTag"; "AttributesJSON" ]
  else if String.eqb key "Workers" then
    Columns [ "WorkerID"; "WorkerName"; "Skills"; "AvailableSlots";
              "MaxLoadPerPhase"; "WorkerGroup"; "QualificationLevel" ]
  else if String.eqb key "Tasks" then
    Columns [ "TaskID"; "TaskName"; "Category"; "Duration"; "RequiredSkills";
              "PreferredPhases"; "MaxConcurrent" ]
  else if includes_string Object_prototype key then Inherited
  else Missing.

Definition getBaseSheetName (sheetName : string) : string :=
  let cleanName := trim (replace_spaces false (toLowerCase sheetName)) in
  if startsWith cleanName "client" then "Clients"
  else if startsWith cleanName "worker" then "Workers"
  else if startsWith cleanName "task" then "Tasks"
  else sheetName.

(** ** Helper functions *)

Definition parseCSVList (val : any) : result (list string) :=
  match val with
  | Str s =>
      Ok (filter (fun v => negb (String.eqb v EmptyString))
                 (map trim (split "," s)))
  | Arr l => mapM ToString l
  | _ => Ok []
  end.

Definition parseNumberArray (val : any) : any :=
  catch
    match val with
    | Str s =>
        if includes s "-" then
          let parts := map StringToNumber (split "-" s) in
          let start := nth 0 parts NaN in
          let end_ := nth 1 parts NaN in
          l <- Array_from_length (num_add (num_sub end_ start) (Fin 1)) start ;;
          Ok (Arr l)
        else JSON_parse s
    | Arr l => l' <- mapM ToNumber l ;; Ok (Arr (map Number l'))
    | _ => Ok (Arr [])
    end
    (Arr []).

(** ** Validation functions *)

Definition validateRequiredColumns (sheetName : string) (data : list row)
  : result (list ValidationError) :=
  let baseSheetName := getBaseSheetName sheetName in
  let required := REQUIRED_COLUMNS baseSheetName in
  match required with
  | Missing => Ok []
  | _ =>
      match data with
      | [] => Ok []
      | first :: _ =>
          let actualColumns := keys first in
          match required with
          | Columns required =>
              let missingColumns :=
                filter (fun col => negb (includes_string actualColumns col))
                       required in
              Ok (map (fun col =>
                         mkError error ("Missing required column: " ++ col)
                                 (-1) col sheetName None)
                      missingColumns)
          | _ => Throw TypeError
          end
      end
  end.

Definition idColumn_of (baseSheetName : string) : option string :=
  if String.eqb baseSheetName "Clients" then Some "ClientID"
  else if String.eqb baseSheetName "Workers" then Some "WorkerID"
  else if String.eqb baseSheetName "Tasks" then Some "TaskID"
  else None.

(** the body of the loop of [validateDuplicateIDs], on the pair of the
    errors and the set [seen] *)
Definition duplicate_step (sheetName idColumn : string)
  (st : list ValidationError * list string) (r : row) (index : Z)
  : result (list ValidationError * list string) :=
  let '(errors, seen) := st in
  let id := get r idColumn in
  if ToBoolean id then
    s <- ToString id ;;
    let errors' :=
      if includes_string seen s
      then push errors (mkError error ("Duplicate " ++ idColumn ++ ": " ++ s)
                                index idColumn sheetName (Some id))
      else errors in
    Ok (errors', push seen s)
  else Ok (errors, seen).

Definition validateDuplicateIDs (sheetName : string) (data : list row)
  : result (list ValidationError) :=
  let baseSheetName := getBaseSheetName sheetName in
  match idColumn_of baseSheetName with
  | None => Ok []
  | Some idColumn =>
      st <- forEach (duplicate_step sheetName idColumn) data ([], []) ;;
      Ok (fst st)
  end.

Definition validatePriorityLevel (data : list row) (sheetName : string)
  : result (list ValidationError) :=
  let baseSheetName := getBaseSheetName sheetName in
  if negb (String.eqb baseSheetName "Clients") then Ok []
  else
    forEach (fun errors r index =>
      priority <- ToNumber (get r "PriorityLevel") ;;
      if isNaN priority || num_lt priority (Fin 1) || num_gt priority (Fin 5)
      then
        s <- ToString (get r "PriorityLevel") ;;
        Ok (push errors
            (mkError error ("PriorityLevel must be between 1-5, got: " ++ s)
                     index "PriorityLevel" sheetName
                     (Some (get r "PriorityLevel"))))
      else Ok errors) data [].

Definition validateDuration (data : list row) (sheetName : string)
  : result (list ValidationError) :=
  let baseSheetName := getBaseSheetName sheetName in
  if negb (String.eqb baseSheetName "Tasks") then Ok []
  else
    forEach (fun errors r index =>
      duration <- ToNumber (get r "Duration") ;;
      if isNaN duration || num_lt duration (Fin 1)
      then
        s <- ToString (get r "Duration") ;;
        Ok (push errors
            (mkError error ("Duration must be >= 1, got: " ++ s)
                     index "Duration" sheetName (Some (get r "Duration"))))
      else Ok errors) data [].

Definition validateAvailableSlots (data : list row) (sheetName : string)
  : result (list ValidationError) :=
  let baseSheetName := getBaseSheetName sheetName in
  if negb (String.eqb baseSheetName "Workers") then Ok []
  else
    forEach (fun errors r index =>
      let slots := parseNumberArray (get r "AvailableSlots") in
      elements <- as_array slots ;;
      hasNonNumeric <- some global_isNaN elements ;;
      if hasNonNumeric
      then
        s <- ToString (get r "AvailableSlots") ;;
        Ok (push errors
            (mkError error
                     ("AvailableSlots contains non-numeric values: " ++ s)
                     index "AvailableSlots" sheetName
                     (Some (get r "AvailableSlots"))))
      else Ok errors) data [].

(** the error both branches of [validateAttributesJSON] push *)
Definition invalid_json_error (sheetName : string) (index : Z) (v : any)
  (errors : list ValidationError) : result (list ValidationError) :=
  s <- ToString v ;;
  Ok (push errors
            (mkError error ("Invalid JSON in AttributesJSON: " ++ s)
               index "AttributesJSON" sheetName (Some v))).

(** the body of the loop of [validateAttributesJSON]: the row at [l] is read
    from the store and, on the repair branch, written back *)
Definition attributes_step (sheetName : string)
  (st : list ValidationError * heap) (l : loc) (index : Z)
  : result (list ValidationError * heap) :=
  let '(errors, h) := st in
  let r := h l in
  let attempt : result (list ValidationError * heap) :=
    match get r "AttributesJSON" with
    | Str s =>
        if ToBoolean (Str s) then
          match JSON_parse s with
          | Ok _ => Ok (errors, h)
          | Throw _ =>
              let trimmedValue := trim s in
              if negb (startsWith trimmedValue "{")
                 && negb (startsWith trimmedValue "[")
                 && negb (includes trimmedValue ":")
              then
                let jsonObject := Obj [("message", Str trimmedValue)] in
                let jsonString := JSON_stringify jsonObject in
                Ok (errors, update h l (set r "AttributesJSON" jsonString))
              else
                errors' <- invalid_json_error sheetName index (Str s) errors ;;
                Ok (errors', h)
          end
        else Ok (errors, h)
    | _ => Ok (errors, h)
    end in
  match attempt with
  | Ok st' => Ok st'
  | Throw _ =>
      errors' <- invalid_json_error sheetName index
                   (get r "AttributesJSON") errors ;;
      Ok (errors', h)
  end.

(** returns the errors, or the exception, and the store it leaves *)
Fixpoint attributes_loop (sheetName : string) (data : list loc) (index : Z)
  (errors : list ValidationError) (h : heap)
  : result (list ValidationError) * heap :=
  match data with
  | [] => (Ok errors, h)
  | l :: data' =>
      match attributes_step sheetName (errors, h) l index with
      | Ok (errors', h') =>
          attributes_loop sheetName data' (index + 1) errors' h'
      | Throw e => (Throw e, h)
      end
  end.

Definition validateAttributesJSON (data : list loc) (sheetName : string)
  (h : heap) : result (list ValidationError) * heap :=
  let baseSheetName := getBaseSheetName sheetName in
  if negb (String.eqb baseSheetName "Clients") then (Ok [], h)
  else attributes_loop sheetName data 0 [] h.

Definition validateTaskReferences (clients tasks : list row)
  : result (list ValidationError) :=
  let taskIds := map (fun t => get t "TaskID") tasks in
  forEach (fun errors client index =>
    requestedTasks <- parseCSVList (get client "RequestedTaskIDs") ;;
    let invalidTasks :=
      filter (fun taskId => negb (Set_has taskIds (Str taskId)))
             requestedTasks in
    Ok (push_all errors
        (map (fun taskId =>
               mkError error
                 ("RequestedTaskID " ++ String dquote taskId ++
                  String dquote " not found in Tasks sheet")
                 index "RequestedTaskIDs" "Clients" (Some (Str taskId)))
            invalidTasks))) clients [].

Definition validateWorkerOverload (workers : list row)
  : result (list ValidationError) :=
  forEach (fun errors worker index =>
    let availableSlots := parseNumberArray (get worker "AvailableSlots") in
    maxLoad <- ToNumber (get worker "MaxLoadPerPhase") ;;
    len <- length_of availableSlots ;;
    n <- ToNumber len ;;
    if num_lt n maxLoad
    then
      s <- ToString len ;;
      Ok (push errors
            (mkError error
                   ("Worker has " ++ s ++
                    " available slots but MaxLoadPerPhase is " ++
                    NumberToString maxLoad)
                   index "MaxLoadPerPhase" "Workers"
                   (Some (Number maxLoad))))
    else Ok errors) workers [].

Definition validateSkillCoverage (workers tasks : list row)
  : result (list ValidationError) :=
  workerSkills <-
    forEach (fun workerSkills worker _ =>
      skills <- parseCSVList (get worker "Skills") ;;
      Ok (push_all workerSkills skills)) workers [] ;;
  forEach (fun errors task index =>
    requiredSkills <- parseCSVList (get task "RequiredSkills") ;;
    let missingSkills :=
      filter (fun skill => negb (includes_string workerSkills skill))
             requiredSkills in
    Ok (push_all errors
        (map (fun skill =>
               mkError error
                 ("Required skill " ++ String dquote skill ++
                  String dquote " not available in any worker")
                 index "RequiredSkills" "Tasks" (Some (Str skill)))
            missingSkills))) tasks [].

Definition validateMaxConcurrency (tasks workers : list row)
  : result (list ValidationError) :=
  forEach (fun errors task index =>
    maxConcurrent <- ToNumber (get task "MaxConcurrent") ;;
    requiredSkills <- parseCSVList (get task "RequiredSkills") ;;
    qualifiedWorkers <-
      filterM (fun worker =>
        workerSkills <- parseCSVList (get worker "Skills") ;;
        Ok (existsb (fun skill => includes_string workerSkills skill)
                    requiredSkills)) workers ;;
    let count := Fin (Z.of_nat (List.length qualifiedWorkers)) in
    if num_lt count maxConcurrent
    then
      Ok (push errors
            (mkError error
                   ("MaxConcurrent (" ++ NumberToString maxConcurrent ++
                    ") exceeds qualified workers (" ++
                    NumberToString count ++ ")")
                   index "MaxConcurrent" "Tasks"
                   (Some (Number maxConcurrent))))
    else Ok errors) tasks [].

Definition validateCircularCoRunGroups (clients : list row)
  : result (list ValidationError) :=
  dependencies <-
    forEach (fun (dependencies : list (any * list string)) client _ =>
      let groupTag := get client "GroupTag" in
      match Map_get dependencies groupTag with
      | Some _ => Ok dependencies
      | None => Ok (Map_set dependencies groupTag [])
      end) clients [] ;;
  Ok [].

Definition validatePhaseSlotSaturation (tasks workers : list row)
  : result (list ValidationError) :=
  phaseSlots <-
    forEach (fun (phaseSlots : list (any * num)) worker _ =>
      let availableSlots := parseNumberArray (get worker "AvailableSlots") in
      maxLoad <- ToNumber (get worker "MaxLoadPerPhase") ;;
      phases <- as_array availableSlots ;;
      forEach (fun phaseSlots phase _ =>
        let currentSlots := or_zero (Map_get phaseSlots phase) in
        Ok (Map_set phaseSlots phase (num_add currentSlots maxLoad)))
        phases phaseSlots) workers [] ;;
  phaseRequirements <-
    forEach (fun (phaseRequirements : list (any * num)) task _ =>
      duration <- ToNumber (get task "Duration") ;;
      let preferredPhases := parseNumberArray (get task "PreferredPhases") in
      maxConcurrent <- ToNumber (get task "MaxConcurrent") ;;
      phases <- as_array preferredPhases ;;
      forEach (fun phaseRequirements phase _ =>
        let currentReq := or_zero (Map_get phaseRequirements phase) in
        Ok (Map_set phaseRequirements phase
              (num_add currentReq (num_mul duration maxConcurrent))))
        phases phaseRequirements) tasks [] ;;
  forEach (fun errors (entry : any * num) _ =>
    let '(phase, required) := entry in
    let available := or_zero (Map_get phaseSlots phase) in
    if num_gt required available
    then
      s <- ToString phase ;;
      Ok (push errors
            (mkError error
                   ("Phase " ++ s ++ " requires " ++ NumberToString required ++
                    " slots but only " ++ NumberToString available ++
                    " are available")
                   (-1) "PreferredPhases" "Tasks" (Some (Str ("Phase " ++ s)))))
    else Ok errors) phaseRequirements [].

Definition validateConflictingRules (tasks : list row)
  : result (list ValidationError) :=
  Ok [].

(** ** The main validation function

    It reads and writes the store: a computation takes the store and gives
    back what it returned or threw, and the store it left. *)

Definition M (A : Type) : Type := heap -> result A * heap.

Definition ret {A : Type} (a : A) : M A := fun h => (Ok a, h).

Definition bindM {A B : Type} (m : M A) (k : A -> M B) : M B :=
  fun h =>
    match m h with
    | (Ok a, h') => k a h'
    | (Throw e, h') => (Throw e, h')
    end.

Notation "x <~ m ;; k" := (bindM m (fun x => k))
  (at level 61, m at next level, right associativity).

(** a validator that only reads the rows of [data] *)
Definition call {A : Type} (f : list row -> result A) (data : list loc)
  : M A :=
  fun h => (f (map h data), h).

(** a validator that only reads the rows of two sheets *)
Definition call2 {A : Type} (f : list row -> list row -> result A)
  (data1 data2 : list loc) : M A :=
  fun h => (f (map h data1) (map h data2), h).

Definition workbook : Type := list (string * list loc).

(** [workSheets[name]] *)
Definition sheet (workSheets : workbook) (name : string) : list loc :=
  match find (fun entry => String.eqb (fst entry) name) workSheets with
  | Some (_, data) => data
  | None => []
  end.

(** [Object.keys(workSheets).find(name => getBaseSheetName(name) === kind)] *)
Definition find_sheet (workSheets : workbook) (kind : string)
  : option string :=
  find (fun name => String.eqb (getBaseSheetName name) kind)
       (map fst workSheets).

(** the truth value of what [find] returned *)
Definition found (name : option string) : bool :=
  match name with
  | Some n => ToBoolean (Str n)
  | None => false
  end.

Definition name_of (name : option string) : string :=
  match name with
  | Some n => n
  | None => "undefined"
  end.

Definition retag (name : string) (errors : list ValidationError)
  : list ValidationError :=
  map (fun e => mkError (type e) (message e) (rowIndex e) (column e) name
                        (value e)) errors.

(** the body of the loop over the sheets *)
Definition validateSheet (allErrors : list ValidationError)
  (sheetName : string) (data : list loc) : M (list ValidationError) :=
  e <~ call (validateRequiredColumns sheetName) data ;;
  let allErrors := push_all allErrors e in
  e <~ call (validateDuplicateIDs sheetName) data ;;
  let allErrors := push_all allErrors e in
  let baseSheetName := getBaseSheetName sheetName in
  allErrors <~
    (if String.eqb baseSheetName "Clients" then
       e <~ call (fun rows => validatePriorityLevel rows sheetName) data ;;
       let allErrors := push_all allErrors e in
       e <~ validateAttributesJSON data sheetName ;;
       ret (push_all allErrors e)
     else ret allErrors) ;;
  allErrors <~
    (if String.eqb baseSheetName "Workers" then
       e <~ call (fun rows => validateAvailableSlots rows sheetName) data ;;
       ret (push_all allErrors e)
     else ret allErrors) ;;
  if String.eqb baseSheetName "Tasks" then
    e <~ call (fun rows => validateDuration rows sheetName) data ;;
    ret (push_all allErrors e)
  else ret allErrors.

Fixpoint validateSheets (entries : workbook)
  (allErrors : list ValidationError) : M (list ValidationError) :=
  match entries with
  | [] => ret allErrors
  | (sheetName, data) :: entries' =>
      allErrors' <~ validateSheet allErrors sheetName data ;;
      validateSheets entries' allErrors'
  end.

(** the cross-sheet validations *)
Definition validateCrossSheet (workSheets : workbook)
  (allErrors : list ValidationError) : M (list ValidationError) :=
  let clientsSheet := find_sheet workSheets "Clients" in
  let workersSheet := find_sheet workSheets "Workers" in
  let tasksSheet := find_sheet workSheets "Tasks" in
  let clients := sheet workSheets (name_of clientsSheet) in
  let workers := sheet workSheets (name_of workersSheet) in
  let tasks := sheet workSheets (name_of tasksSheet) in
  allErrors <~
    (if found clientsSheet && found tasksSheet then
       refErrors <~ call2 validateTaskReferences clients tasks ;;
       ret (push_all allErrors (retag (name_of clientsSheet) refErrors))
     else ret allErrors) ;;
  allErrors <~
    (if found workersSheet then
       overloadErrors <~ call validateWorkerOverload workers ;;
       ret (push_all allErrors (retag (name_of workersSheet) overloadErrors))
     else ret allErrors) ;;
  allErrors <~
    (if found workersSheet && found tasksSheet then
       skillErrors <~ call2 validateSkillCoverage workers tasks ;;
       concurrencyErrors <~ call2 validateMaxConcurrency tasks workers ;;
       saturationErrors <~ call2 validatePhaseSlotSaturation tasks workers ;;
       let tag := retag (name_of tasksSheet) in
       ret (push_all (push_all (push_all allErrors (tag skillErrors))
                               (tag concurrencyErrors))
                     (tag saturationErrors))
     else ret allErrors) ;;
  allErrors <~
    (if found clientsSheet then
       e <~ call validateCircularCoRunGroups clients ;;
       ret (push_all allErrors e)
     else ret allErrors) ;;
  if found tasksSheet then
    e <~ call validateConflictingRules tasks ;;
    ret (push_all allErrors e)
  else ret allErrors.

Definition validateAllData (workSheets : workbook) : M ValidationResult :=
  allErrors <~ validateSheets workSheets [] ;;
  allErrors <~ validateCrossSheet workSheets allErrors ;;
  ret (mkResult (Nat.eqb (List.length allErrors) 0) allErrors).

End Validation.

(* ================================================================== *)
(** * app/page.tsx *)
(* ================================================================== *)

Module Page.

(** [/^\d+\s*-\s*\d+$/.test(input)] *)
Definition is_range (input : string) : bool :=
  match read_digits input 0 0%nat with
  | (_, O, _) => false
  | (_, S _, r1) =>
      match trimStart r1 with
      | String c r2 =>
          if Ascii.eqb c "-" then
            match read_digits (trimStart r2) 0 0%nat with
            | (_, S _, EmptyString) => true
            | _ => false
            end
          else false
      | EmptyString => false
      end
  end.

(** the range branch is outside the [try]: an oversized range throws *)
Definition normalizePreferredPhases (input : string) : result any :=
  if negb (ToBoolean (Str input)) then Ok (Arr [])
  else if is_range input then
    let parts := map StringToNumber (split "-" input) in
    let start := nth 0 parts NaN in
    let end_ := nth 1 parts NaN in
    l <- Array_from_length (num_add (num_sub end_ start) (Fin 1)) start ;;
    Ok (Arr l)
  else
    Ok (catch
          (if startsWith (trim input) "["
           then JSON_parse input
           else
             Ok (Arr (map Number
                        (filter (fun v => negb (isNaN v))
                           (map (fun v => StringToNumber (trim v))
                                (split "," input))))))
          (Arr [])).

End Page.

Import Validation.

(* ================================================================== *)
(** * Specification-level definitions *)
(* ================================================================== *)

Module Spec.

(** ** Required columns *)

(** the error [validateRequiredColumns] raises for a column *)
Definition missing_column_error (sheetName col : string) : ValidationError :=
  mkError error ("Missing required column: " ++ col) (-1) col sheetName None.

(** ** Duplicate identifiers *)

(** two identifiers print the same *)
Definition same_id_string (v v' : any) : bool :=
  match ToString v, ToString v' with
  | Ok s, Ok s' => String.eqb s s'
  | _, _ => false
  end.

(** the row at [i] has a truthy identifier that prints like the truthy
    identifier of an earlier row *)
Definition is_duplicate (idColumn : string) (data : list row) (i : nat)
  : bool :=
  match nth_error data i with
  | Some r =>
      ToBoolean (get r idColumn)
      && existsb (fun r' => ToBoolean (get r' idColumn)
                            && same_id_string (get r' idColumn)
                                              (get r idColumn))
                 (firstn i data)
  | None => false
  end.

Definition duplicate_error (sheetName idColumn : string) (i : nat) (id : any)
  : ValidationError :=
  mkError error
    ("Duplicate " ++ idColumn ++ ": " ++ catch (ToString id) EmptyString)
    (Z.of_nat i) idColumn sheetName (Some id).

(** one error for each duplicate row, in row order *)
Definition duplicate_errors (sheetName idColumn : string) (data : list row)
  : list ValidationError :=
  map (fun i => duplicate_error sheetName idColumn i
                  (get (nth i data []) idColumn))
      (filter (is_duplicate idColumn data) (seq 0 (List.length data))).

(** the strings [seen] holds after the rows of [data] *)
Definition seen_after (idColumn : string) (data : list row) : list string :=
  flat_map (fun r => if ToBoolean (get r idColumn)
                     then match ToString (get r idColumn) with
                          | Ok s => [s]
                          | Throw _ => []
                          end
                     else []) data.

(** the identifier of the row converts to a string *)
Definition printable (idColumn : string) (r : row) : Prop :=
  exists s, ToString (get r idColumn) = Ok s.

(** ** AttributesJSON *)

(** the text [JSON.stringify({ message: t })] *)
Definition message_json (t : string) : string :=
  "{" ++ quote "message" ++ ":" ++ quote t ++ "}".

(** the test of the code on the trimmed text: it does not start like JSON
    and holds no colon *)
Definition looks_plain (trimmed : string) : bool :=
  negb (startsWith trimmed "{") && negb (startsWith trimmed "[")
  && negb (includes trimmed ":").


Definition throws {A : Type} (m : result A) : bool :=
  match m with Ok _ => false | Throw _ => true end.

Definition invalid_json (sheetName : string) (index : Z) (s : string)
  : ValidationError :=
  mkError error ("Invalid JSON in AttributesJSON: " ++ s) index
          "AttributesJSON" sheetName (Some (Str s)).

(** the text a visit of [validateAttributesJSON] replaces, trimmed *)
Definition needs_repair (r : row) : option string :=
  match get r "AttributesJSON" with
  | Str s =>
      if negb (String.eqb s EmptyString) && throws (JSON_parse s)
         && looks_plain (trim s)
      then Some (trim s) else None
  | _ => None
  end.

(** the row after a visit *)
Definition repair (r : row) : row :=
  match needs_repair r with
  | Some t => set r "AttributesJSON" (Str (message_json t))
  | None => r
  end.

(** the errors of a visit *)
Definition attribute_errors (sheetName : string) (index : Z) (r : row)
  : list ValidationError :=
  match get r "AttributesJSON" with
  | Str s =>
      if negb (String.eqb s EmptyString) && throws (JSON_parse s)
         && negb (looks_plain (trim s))
      then [invalid_json sheetName index s] else []
  | _ => []
  end.


(** ** Number sequences *)

Definition numbers (l : list Z) : any := Arr (map (fun z => Number (Fin z)) l).

(** ** Range checks *)

Definition priority_in_range (p : num) : bool :=
  match p with
  | Fin z => (1 <=? z) && (z <=? 5)
  | NaN => false
  end.

Definition duration_in_range (d : num) : bool :=
  match d with
  | Fin z => 1 <=? z
  | NaN => false
  end.

(** four client rows with the priorities 0, 6, 1 and 5 *)
Definition priority_rows : list row :=
  map (fun z => [("ClientID", Str "C1"); ("PriorityLevel", Number (Fin z))])
      [0; 6; 1; 5].

(** a worker and a task with a negative capacity *)




(** ** Phase saturation *)


















(** ** The store across a run *)

(** two rows with the same keys and the same values but for AttributesJSON *)
Definition row_eqv (r r' : row) : Prop :=
  keys r = keys r' /\
  forall k, k <> "AttributesJSON" -> get r k = get r' k.

(** every row of [h'] is the row of [h], as it was or repaired *)
Definition heap_frame (h h' : heap) : Prop :=
  forall l, h' l = h l \/ h' l = repair (h l).

(** the rows of the sheets whose name reads as a clients sheet *)
Definition client_rows (workSheets : workbook) : list loc :=
  flat_map snd
    (filter (fun entry =>
               String.eqb (getBaseSheetName (fst entry)) "Clients")
            workSheets).

(** a computation that leaves the store framed and touches the rows of
    [data] only *)
Definition frames {A : Type} (data : list loc) (m : M A) : Prop :=
  forall h, heap_frame h (snd (m h))
            /\ forall l, ~ In l data -> snd (m h) l = h l.

(** a computation whose outcome does not tell a store from a framed one *)
Definition respects {A : Type} (m : M A) : Prop :=
  forall ha hb, heap_frame ha hb ->
    fst (m ha) = fst (m hb) /\ heap_frame (snd (m ha)) (snd (m hb)).

(** a reader of rows that does not look at AttributesJSON *)
Definition congruent {A : Type} (f : list row -> result A) : Prop :=
  forall rs rs', Forall2 row_eqv rs rs' -> f rs = f rs'.

Definition congruent2 {A : Type} (f : list row -> list row -> result A)
  : Prop :=
  forall rs rs' ts ts',
    Forall2 row_eqv rs rs' -> Forall2 row_eqv ts ts' -> f rs ts = f rs' ts'.

(** a computation that returns [a] from every store framed from [h], and
    leaves a store framed from [h] *)
Definition yields {A : Type} (h : heap) (m : M A) (a : A) : Prop :=
  forall h1, heap_frame h h1 ->
    fst (m h1) = Ok a /\ heap_frame h (snd (m h1)).

(** ** Valid snapshots *)


















(** ** A snapshot of one client, one worker and one task *)

Definition sample_client : row :=
  [ ("ClientID", Str "C001"); ("ClientName", Str "Client A");
    ("PriorityLevel", Number (Fin 3)); ("RequestedTaskIDs", Str "T001");
    ("GroupTag", Str "Group1"); ("AttributesJSON", Str "vip customer") ].

Definition sample_worker : row :=
  [ ("WorkerID", Str "W001"); ("WorkerName", Str "Worker A");
    ("Skills", Str "Skill1,Skill2"); ("AvailableSlots", Str "[1,2,3]");
    ("MaxLoadPerPhase", Number (Fin 2)); ("WorkerGroup", Str "Group1");
    ("QualificationLevel", Str "Senior") ].

(** a task of the duration [d] for [c] workers at a time *)
Definition sample_task (d c : Z) : row :=
  [ ("TaskID", Str "T001"); ("TaskName", Str "Task A");
    ("Category", Str "Category1"); ("Duration", Number (Fin d));
    ("RequiredSkills", Str "Skill1"); ("PreferredPhases", Str "[1,2]");
    ("MaxConcurrent", Number (Fin c)) ].

Definition sample_rows (d c : Z) : heap :=
  fun l => nth l [sample_client; sample_worker; sample_task d c] [].

Definition sample_sheets : workbook :=
  [ ("Clients", [0%nat]); ("Workers", [1%nat]); ("Tasks", [2%nat]) ].




End Spec.
Import Spec.

(* ================================================================== *)
(** * Further definitions: strings and printed numbers *)
(* ================================================================== *)

Module Text.

(** every character of [s] satisfies [p] *)
Fixpoint all_chars (p : ascii -> bool) (s : string) : bool :=
  match s with
  | EmptyString => true
  | String c s' => p c && all_chars p s'
  end.

(** the value of the decimal digits [d] read after the value [acc] *)
Fixpoint uint_val (d : Decimal.uint) (acc : Z) : Z :=
  match d with
  | Decimal.Nil => acc
  | Decimal.D0 l => uint_val l (acc * 10 + 0)
  | Decimal.D1 l => uint_val l (acc * 10 + 1)
  | Decimal.D2 l => uint_val l (acc * 10 + 2)
  | Decimal.D3 l => uint_val l (acc * 10 + 3)
  | Decimal.D4 l => uint_val l (acc * 10 + 4)
  | Decimal.D5 l => uint_val l (acc * 10 + 5)
  | Decimal.D6 l => uint_val l (acc * 10 + 6)
  | Decimal.D7 l => uint_val l (acc * 10 + 7)
  | Decimal.D8 l => uint_val l (acc * 10 + 8)
  | Decimal.D9 l => uint_val l (acc * 10 + 9)
  end.

(** the text does not go on with a digit *)
Definition stops (rest : string) : bool :=
  match rest with
  | String c _ => negb (is_digit c)
  | EmptyString => true
  end.

(** the text does not go on as a number literal would *)
Definition ends_number (rest : string) : bool :=
  match rest with
  | String c _ =>
      negb (is_digit c) && negb (Ascii.eqb c ".")
      && negb (Ascii.eqb c "e") && negb (Ascii.eqb c "E")
  | EmptyString => true
  end.

(** how [JSON.stringify] writes a list of integers *)
Definition print_numbers (l : list Z) : string :=
  "[" ++ join "," (map (fun z => NumberToString (Fin z)) l) ++ "]".

(** a range as it is typed: two numbers and a dash, with optional white
    space around the dash *)
Definition range_text (a : Z) (sp1 sp2 : string) (b : Z) : string :=
  NumberToString (Fin a) ++ sp1 ++ String "-" (sp2 ++ NumberToString (Fin b)).

(** the integers from [a] to [b], both included *)
Definition interval (a b : Z) : list Z :=
  map (fun i => a + Z.of_nat i) (seq 0 (Z.to_nat (b - a + 1))).

End Text.

Import Text.

(* ================================================================== *)
(** * Further definitions: what the cross-sheet checks report *)
(* ================================================================== *)

Module Checks.

(** the elements of a list with their indices, counted from [index] *)
Fixpoint indexed {A : Type} (l : list A) (index : Z) : list (Z * A) :=
  match l with
  | [] => []
  | x :: l' => (index, x) :: indexed l' (index + 1)
  end.

(** the errors of a loop that reports on every row by itself, in row
    order *)
Definition per_row {A E : Type} (report : Z -> A -> list E) (l : list A)
  : list E :=
  flat_map (fun p => report (fst p) (snd p)) (indexed l 0).

(** *** Task references *)

Definition reference_error (index : Z) (taskId : string) : ValidationError :=
  mkError error
    ("RequestedTaskID " ++ String dquote taskId ++
     String dquote " not found in Tasks sheet")
    index "RequestedTaskIDs" "Clients" (Some (Str taskId)).

(** no task row has the text [taskId] in TaskID *)
Definition unknown_task (tasks : list row) (taskId : string) : bool :=
  negb (existsb (fun t => SameValueZero (get t "TaskID") (Str taskId)) tasks).

Definition reference_errors (tasks : list row) (requests : list (list string))
  : list ValidationError :=
  per_row (fun i req => map (reference_error i)
                            (filter (unknown_task tasks) req)) requests.

(** *** Worker overload *)




(** *** Skill coverage *)

Definition skill_error (index : Z) (skill : string) : ValidationError :=
  mkError error
    ("Required skill " ++ String dquote skill ++
     String dquote " not available in any worker")
    index "RequiredSkills" "Tasks" (Some (Str skill)).

Definition skill_errors (workerSkills : list (list string))
  (required : list (list string)) : list ValidationError :=
  per_row (fun i req =>
             map (skill_error i)
                 (filter (fun skill =>
                            negb (includes_string (List.concat workerSkills) skill))
                         req)) required.

(** *** Maximal concurrency *)





(** the rows read as lists of skills, or of requested tasks *)
Definition reads_list (column : string) (r : row) (l : list string) : Prop :=
  parseCSVList (get r column) = Ok l.


End Checks.

Import Checks.

(* ================================================================== *)
(** * components/DataTable.tsx *)
(* ================================================================== *)

Module DataTable.

(** the key [`${rowIndex}-${column}`] of a cell in [errorMap] *)
Definition cell_key (rowIndex : Z) (column : string) : any :=
  Str (NumberToString (Fin rowIndex) ++ "-" ++ column).

(** the errors by cell: a later error of a cell replaces an earlier one,
    and the errors of a whole sheet, with a negative row index, are left
    out *)
Definition errorMap (validationErrors : list ValidationError)
  : list (any * ValidationError) :=
  fold_left (fun m e =>
               if 0 <=? rowIndex e
               then Map_set m (cell_key (rowIndex e) (column e)) e
               else m) validationErrors [].

Definition getCellError (validationErrors : list ValidationError)
  (rowIndex : Z) (column : string) : option ValidationError :=
  Map_get (errorMap validationErrors) (cell_key rowIndex column).

Definition getColumnErrors (validationErrors : list ValidationError)
  (col : string) : list ValidationError :=
  filter (fun e => String.eqb (column e) col) validationErrors.

(** the component declares [normalizePreferredPhases] again, with the body
    it has in [app/page.tsx] *)
Definition normalizePreferredPhases : string -> result any :=
  Page.normalizePreferredPhases.

(** [handleCellClick]: the text the editor starts with,
    [String(value || '')] *)
Definition handleCellClick (value : any) : result string :=
  ToString (if ToBoolean value then value else Str EmptyString).

(** the value [handleSave] stores for the text [editValue], typed into a
    cell of [column] that held [originalValue] *)
Definition convertedValue (column : string) (originalValue : any)
  (editValue : string) : result any :=
  if String.eqb column "AttributesJSON" then
    let trimmedValue := trim editValue in
    if negb (startsWith trimmedValue "{")
       && negb (startsWith trimmedValue "[")
       && negb (includes trimmedValue ":")
    then Ok (JSON_stringify (Obj [("message", Str trimmedValue)]))
    else Ok (catch (_ <- JSON_parse trimmedValue ;; Ok (Str trimmedValue))
                   (Str trimmedValue))
  else if String.eqb column "PreferredPhases" then
    normalized <- normalizePreferredPhases editValue ;;
    Ok (JSON_stringify normalized)
  else
    match originalValue with
    | Number _ => Ok (Number (StringToNumber editValue))
    | Boolean _ => Ok (Boolean (String.eqb (toLowerCase editValue) "true"))
    | Arr _ => Ok (catch (JSON_parse editValue) (Str editValue))
    | _ => Ok (Str editValue)
    end.

(** [newData[rowIndex] = r] on a copy of the rows *)
Fixpoint replace_row (l : list row) (rowIndex : nat) (r : row) : list row :=
  match l, rowIndex with
  | [], _ => []
  | _ :: l', O => r :: l'
  | x :: l', S i => x :: replace_row l' i r
  end.

(** [handleSave]: the rows it hands to [setLocalData] and [onDataChange],
    from the rows shown, the cell under edit and the text typed; without a
    cell under edit nothing is done *)
Definition handleSave (localData : list row)
  (editingCell : option (nat * string)) (editValue : string)
  : result (list row) :=
  match editingCell with
  | None => Ok localData
  | Some (rowIndex, column) =>
      match nth_error localData rowIndex with
      | None => Throw TypeError
      | Some r =>
          v <- convertedValue column (get r column) editValue ;;
          Ok (replace_row localData rowIndex (set r column v))
      end
  end.

End DataTable.

(* ================================================================== *)
(** * Further definitions: where the errors of a run point *)
(* ================================================================== *)

Module Located.

(** an error of the row [index], or of the whole sheet, of a sheet of [n]
    rows *)
Definition bounded (n : nat) (e : ValidationError) : Prop :=
  type e = error /\ -1 <= rowIndex e < Z.of_nat n.

(** an error that names the sheet [name] *)
Definition located (name : string) (n : nat) (e : ValidationError) : Prop :=
  sheetName e = name /\ bounded n e.

(** an error that points into the workbook: it names one of its sheets,
    and a row of that sheet or the sheet as a whole *)
Definition points_into (workSheets : workbook) (e : ValidationError) : Prop :=
  exists data, In (sheetName e, data) workSheets
               /\ bounded (List.length data) e.

(** a computation whose result, when it returns one, satisfies [P] *)
Definition gives {A : Type} (P : A -> Prop) (m : M A) : Prop :=
  forall h a, fst (m h) = Ok a -> P a.

(** [m] throws nothing but a [TypeError] *)
Definition only_type_error {A : Type} (m : result A) : Prop :=
  forall e, m = Throw e -> e = TypeError.

(** the same for a computation on the store *)
Definition throws_type_error_only {A : Type} (m : M A) : Prop :=
  forall h, only_type_error (fst (m h)).

End Located.

Import Located.

(* ================================================================== *)
(** * app/page.tsx: the errors of a tab, and the rules *)
(* ================================================================== *)

Module Stepper.

(** [name.toLowerCase().replace(/\s+/g, " ").trim()] *)
Definition clean (name : string) : string :=
  trim (replace_spaces false (toLowerCase name)).

(** the test of the filter of [getSheetValidationErrors]: the error is
    shown on the tab of the sheet [name] *)
Definition shown_on (name : string) (e : ValidationError) : bool :=
  if rowIndex e =? -1 then
    let errorBaseName := clean (sheetName e) in
    let currentBaseName := clean name in
    if startsWith errorBaseName "client" && startsWith currentBaseName "client"
    then true
    else if startsWith errorBaseName "worker"
            && startsWith currentBaseName "worker"
    then true
    else if startsWith errorBaseName "task"
            && startsWith currentBaseName "task"
    then true
    else String.eqb (sheetName e) name
  else String.eqb (sheetName e) name.

Definition getSheetValidationErrors (validationResult : ValidationResult)
  (name : string) : list ValidationError :=
  filter (shown_on name) (errors validationResult).

(** what [validateRule] returns: [{ isValid: true }], or
    [{ isValid: false, error }] *)
Inductive RuleCheck : Type :=
| Valid
| Invalid (error : string).

(** [rule.maxSlots < 1] *)
Definition below_one (v : any) : result bool :=
  n <- ToNumber v ;; Ok (num_lt n (Fin 1)).

(** [validateRule], on a rule that [JSON.parse] gave as an object *)
Definition validateRule (rule : list (string * any))
  (taskIds workerGroups : list any) : result RuleCheck :=
  match get rule "type" with
  | Str type =>
      if String.eqb type "coRun" then
        match get rule "tasks" with
        | Arr tasks =>
            if (Z.of_nat (List.length tasks) <? 2)
            then Ok (Invalid "coRun rule must have at least 2 tasks")
            else if negb (forallb (fun task => Set_has taskIds task) tasks)
            then Ok (Invalid "All tasks must exist in the data")
            else Ok Valid
        | _ => Ok (Invalid "coRun rule must have at least 2 tasks")
        end
      else if String.eqb type "loadLimit" then
        if negb (ToBoolean (get rule "workerGroup"))
           || negb (Set_has workerGroups (get rule "workerGroup"))
        then Ok (Invalid "Worker group must exist in the data")
        else if negb (ToBoolean (get rule "maxSlots"))
        then Ok (Invalid "maxSlots must be a positive number")
        else
          small <- below_one (get rule "maxSlots") ;;
          if small then Ok (Invalid "maxSlots must be a positive number")
          else Ok Valid
      else if String.eqb type "phaseWindow" then
        if negb (ToBoolean (get rule "task"))
           || negb (Set_has taskIds (get rule "task"))
        then Ok (Invalid "Task must exist in the data")
        else
          match get rule "phases" with
          | Arr [] => Ok (Invalid "phases must be a non-empty array")
          | Arr _ => Ok Valid
          | _ => Ok (Invalid "phases must be a non-empty array")
          end
      else Ok (Invalid "Unknown rule type")
  | _ => Ok (Invalid "Unknown rule type")
  end.

End Stepper.

(* ================================================================== *)
(** * The single-file App: its parsers of list cells *)
(* ================================================================== *)

Module Legacy.

(** [parseCommaSeparated] *)
Definition parseCommaSeparated (str : any) : list string :=
  match str with
  | Str s =>
      if String.eqb (trim s) EmptyString then []
      else filter (fun t => negb (String.eqb t EmptyString))
                  (map trim (split "," s))
  | _ => []
  end.




(** ** [runAllValidations]

    The rows are the parsed rows of the three tabs.  Cells that hold arrays
    or objects are distinct objects in distinct rows. *)

Record CellError : Type := mkCellError {
  rowIdx : Z;
  colId : string;
  message : string
}.

Record TabErrors : Type := mkTabErrors {
  clients : list CellError;
  workers : list CellError;
  tasks : list CellError
}.

Inductive Tab : Type := clientsTab | workersTab | tasksTab.

Inductive SummaryType : Type := error | warning | success | info.

(** [errors[tab].push({ rowIdx, colId, message })] *)
Definition addError (errors : TabErrors) (tab : Tab) (rowIdx : Z)
  (colId message : string) : TabErrors :=
  let e := mkCellError rowIdx colId message in
  match tab with
  | clientsTab =>
      mkTabErrors (push (clients errors) e) (workers errors) (tasks errors)
  | workersTab =>
      mkTabErrors (clients errors) (push (workers errors) e) (tasks errors)
  | tasksTab =>
      mkTabErrors (clients errors) (workers errors) (push (tasks errors) e)
  end.

(** [a === b] for the cell of the row [j] and the cell of the row [idx] *)
Definition StrictEquals (j idx : Z) (a b : any) : bool :=
  match a, b with
  | Undefined, Undefined => true
  | Null, Null => true
  | Boolean x, Boolean y => Bool.eqb x y
  | Number (Fin x), Number (Fin y) => x =? y
  | Str x, Str y => String.eqb x y
  | Arr _, Arr _ | Obj _, Obj _ => j =? idx
  | _, _ => false
  end.

(** [rows.filter(r => r[column] === row[column]).length > 1], for the row
    at [idx] *)
Definition shared (rows : list row) (column : string) (row : row) (idx : Z)
  : bool :=
  1 <? Z.of_nat
         (List.length
            (filter (fun p => StrictEquals (fst p) idx (get (snd p) column)
                                (get row column))
                    (indexed rows 0))).

(** [if (!row[column]) addError(tab, idx, column, message)] *)
Definition missing (tab : Tab) (idx : Z) (column message : string)
  (row : row) (errors : TabErrors) : TabErrors :=
  if negb (ToBoolean (get row column))
  then addError errors tab idx column message else errors.

(** the check for a duplicate identifier, the same in the three loops *)
Definition duplicated (tab : Tab) (rows : list row) (idx : Z)
  (column : string) (row : row) (errors : TabErrors) : result TabErrors :=
  if ToBoolean (get row column) && shared rows column row idx then
    s <- ToString (get row column) ;;
    Ok (addError errors tab idx column ("Duplicate " ++ column ++ ": " ++ s))
  else Ok errors.

(** [v !== undefined && v !== null && v !== ''] *)
Definition present (v : any) : bool :=
  match v with
  | Undefined | Null => false
  | Str s => negb (String.eqb s EmptyString)
  | _ => true
  end.

Definition isArray (v : any) : bool :=
  match v with Arr _ => true | _ => false end.

Definition is_object (v : any) : bool :=
  match v with Arr _ | Obj _ | Null => true | _ => false end.

(** [workers.flatMap(w => w.Skills || [])] *)
Definition allSkills (workerRows : list row) : list any :=
  flat_map (fun w =>
              match get w "Skills" with
              | Arr l => l
              | v => if ToBoolean v then [v] else []
              end) workerRows.

Definition client_step (clientRows : list row) (allTaskIds : list any)
  (errors : TabErrors) (client : row) (idx : Z) : result TabErrors :=
  let errors :=
    missing clientsTab idx "ClientID" "Missing ClientID." client errors in
  let errors :=
    missing clientsTab idx "ClientName" "Missing ClientName." client errors in
  let errors :=
    match get client "PriorityLevel" with
    | Undefined | Null =>
        addError errors clientsTab idx "PriorityLevel"
                 "Missing PriorityLevel."
    | _ => errors
    end in
  errors <- duplicated clientsTab clientRows idx "ClientID" client errors ;;
  priority <- ToNumber (get client "PriorityLevel") ;;
  let errors :=
    if isNaN priority || num_lt priority (Fin 1) || num_gt priority (Fin 5)
    then addError errors clientsTab idx "PriorityLevel"
                  "PriorityLevel must be between 1 and 5."
    else errors in
  errors <-
    match get client "RequestedTaskIDs" with
    | Arr requested =>
        forEach (fun errors taskId _ =>
                   if negb (Set_has allTaskIds taskId) then
                     s <- ToString taskId ;;
                     Ok (addError errors clientsTab idx "RequestedTaskIDs"
                           ("Requested TaskID '" ++ s ++
                            "' not found in tasks data."))
                   else Ok errors) requested errors
    | v =>
        Ok (if present v
            then addError errors clientsTab idx "RequestedTaskIDs"
                   "Malformed RequestedTaskIDs. Expected comma-separated list or array."
            else errors)
    end ;;
  Ok (if ToBoolean (get client "AttributesJSON")
         && negb (is_object (get client "AttributesJSON"))
      then addError errors clientsTab idx "AttributesJSON"
                    "Malformed JSON in AttributesJSON."
      else errors).

Definition worker_step (workerRows : list row)
  (errors : TabErrors) (worker : row) (idx : Z) : result TabErrors :=
  let errors :=
    missing workersTab idx "WorkerID" "Missing WorkerID." worker errors in
  let errors :=
    missing workersTab idx "WorkerName" "Missing WorkerName." worker errors in
  errors <- duplicated workersTab workerRows idx "WorkerID" worker errors ;;
  errors <-
    match get worker "AvailableSlots" with
    | Arr slots =>
        hasNaN <- some global_isNaN slots ;;
        Ok (if hasNaN
            then addError errors workersTab idx "AvailableSlots"
                          "AvailableSlots must contain only numbers."
            else errors)
    | v =>
        Ok (if present v
            then addError errors workersTab idx "AvailableSlots"
                   "Malformed AvailableSlots. Expected comma-separated list or array of numbers."
            else errors)
    end ;;
  maxLoad <- ToNumber (get worker "MaxLoadPerPhase") ;;
  Ok (if isNaN maxLoad || num_lt maxLoad (Fin 0)
      then addError errors workersTab idx "MaxLoadPerPhase"
                    "MaxLoadPerPhase must be a non-negative number."
      else errors).

Definition task_step (taskRows : list row) (allWorkerSkills : list any)
  (errors : TabErrors) (task : row) (idx : Z) : result TabErrors :=
  let errors :=
    missing tasksTab idx "TaskID" "Missing TaskID." task errors in
  let errors :=
    missing tasksTab idx "TaskName" "Missing TaskName." task errors in
  let errors :=
    match get task "Duration" with
    | Undefined | Null =>
        addError errors tasksTab idx "Duration" "Missing Duration."
    | _ => errors
    end in
  errors <- duplicated tasksTab taskRows idx "TaskID" task errors ;;
  duration <- ToNumber (get task "Duration") ;;
  let errors :=
    if isNaN duration || num_lt duration (Fin 1)
    then addError errors tasksTab idx "Duration"
                  "Duration must be 1 or greater."
    else errors in
  maxConcurrent <- ToNumber (get task "MaxConcurrent") ;;
  let errors :=
    if isNaN maxConcurrent || num_lt maxConcurrent (Fin 0)
    then addError errors tasksTab idx "MaxConcurrent"
                  "MaxConcurrent must be a non-negative number."
    else errors in
  match get task "RequiredSkills" with
  | Arr required =>
      forEach (fun errors skill _ =>
                 if negb (Set_has allWorkerSkills skill) then
                   s <- ToString skill ;;
                   t <- ToString (get task "TaskID") ;;
                   Ok (addError errors tasksTab idx "RequiredSkills"
                         ("Required skill '" ++ s ++ "' for task '" ++ t ++
                          "' is not covered by any worker."))
                 else Ok errors) required errors
  | v =>
      Ok (if present v
          then addError errors tasksTab idx "RequiredSkills"
                 "Malformed RequiredSkills. Expected comma-separated list or array."
          else errors)
  end.

(** the lines of the summary *)
Definition summarize (errors : TabErrors) : list (SummaryType * string) :=
  let line (label : string) (l : list CellError) :=
    if 0 <? Z.of_nat (List.length l)
    then [(error, "Found " ++ NumberToString (Fin (Z.of_nat (List.length l)))
                  ++ " errors in " ++ label ++ " data.")]
    else [] in
  let summary :=
    (line "Clients" (clients errors) ++ line "Workers" (workers errors)
     ++ line "Tasks" (tasks errors))%list in
  match summary with
  | [] => [(success, "All core validations passed! Data looks good.")]
  | _ =>
      push summary
        (warning,
         "Please review the highlighted errors and validation summary.")
  end.

(** [runAllValidations]: what it hands to [setValidationErrors] and
    [setValidationSummary] *)
Definition runAllValidations (clientRows workerRows taskRows : list row)
  : result (TabErrors * list (SummaryType * string)) :=
  let errors := mkTabErrors [] [] [] in
  let allTaskIds :=
    filter (fun id => match id with Undefined | Null => false | _ => true end)
           (map (fun t => get t "TaskID") taskRows) in
  let allWorkerSkills := allSkills workerRows in
  errors <- forEach (client_step clientRows allTaskIds) clientRows errors ;;
  errors <- forEach (worker_step workerRows) workerRows errors ;;
  errors <- forEach (task_step taskRows allWorkerSkills) taskRows errors ;;
  Ok (errors, summarize errors).

End Legacy.

Module LegacySpec.

Import Legacy.

(** the errors of a tab *)
Definition pick (tab : Tab) (s : TabErrors) : list CellError :=
  match tab with
  | clientsTab => clients s
  | workersTab => workers s
  | tasksTab => tasks s
  end.

Definition same_tab (a b : Tab) : bool :=
  match a, b with
  | clientsTab, clientsTab | workersTab, workersTab | tasksTab, tasksTab =>
      true
  | _, _ => false
  end.

(** from [s] to [s'] the tab got no error among the selected ones, and lost
    none *)
Definition quiet (tab : Tab) (sel : CellError -> Prop) (s s' : TabErrors)
  : Prop :=
  forall x, sel x -> (In x (pick tab s') <-> In x (pick tab s)).

(** the errors of a column *)
Definition in_column (column : string) (e : CellError) : Prop :=
  colId e = column.


(** the errors of a column that report a duplicate *)
Definition is_duplicate_error (column : string) (e : CellError) : Prop :=
  colId e = column
  /\ exists t, message e = "Duplicate " ++ column ++ ": " ++ t.

(** the error of the row [i] for its identifier [id] *)
Definition duplicate (i : nat) (column id : string) : CellError :=
  mkCellError (Z.of_nat i) column ("Duplicate " ++ column ++ ": " ++ id).

(** what the row at [idx] adds when its identifier is shared *)
Definition reports_duplicate (rows : list row) (column : string) (idx : Z)
  (r : row) (e : CellError) : Prop :=
  ToBoolean (get r column) && shared rows column r idx = true
  /\ exists t, ToString (get r column) = Ok t
               /\ e = mkCellError idx column
                        ("Duplicate " ++ column ++ ": " ++ t).

(** another row has the text [id] as its identifier, and [id] is not
    empty *)
Definition repeated (rows : list row) (column : string) (i : nat)
  (id : string) : Prop :=
  id <> EmptyString
  /\ exists j r, j <> i /\ nth_error rows j = Some r
                 /\ get r column = Str id.

End LegacySpec.

(* ================================================================== *)
(** * JSON: what [JSON.stringify] writes, [JSON.parse] reads *)
(* ================================================================== *)

Section JSONRoundTrip.

Lemma append_assoc (a b c : string) : ((a ++ b) ++ c = a ++ (b ++ c))%string.
Proof. induction a as [|x a IH]; simpl; [reflexivity | now rewrite IH]. Qed.

Lemma parse_string_escape_char (c : ascii) (r : string) :
  parse_string (escape_char c ++ r) = cons_char c (parse_string r).
Proof.
  destruct c as [[] [] [] [] [] [] [] []]; reflexivity.
Qed.

Lemma parse_string_escape (t rest : string) :
  parse_string (escape t ++ String dquote rest) = Some (t, rest).
Proof.
  induction t as [|c t IH].
  - reflexivity.
  - cbn [escape]. rewrite append_assoc, parse_string_escape_char, IH.
    reflexivity.
Qed.

Lemma JSON_stringify_message (t : string) :
  JSON_stringify (Obj [("message", Str t)]) = Str (message_json t).
Proof. reflexivity. Qed.

Lemma parse_value_message (n : nat) (t : string) :
  parse_value (S (S (S n))) (message_json t)
  = Parsed (Obj [("message", Str t)]) EmptyString.
Proof.
  assert (Heq : message_json t =
                String "{" (String dquote
                  (escape "message" ++ String dquote
                     (String ":" (String dquote
                        (escape t ++ String dquote "}")))))).
  { unfold message_json, quote. cbn [append]. now rewrite !append_assoc. }
  rewrite Heq. cbn -[parse_string escape].
  rewrite parse_string_escape. cbn -[parse_string escape].
  rewrite parse_string_escape. reflexivity.
Qed.

Lemma JSON_parse_message (t : string) :
  JSON_parse (message_json t) = Ok (Obj [("message", Str t)]).
Proof.
  unfold JSON_parse, parse_fuel.
  change (3 + 2 * String.length (message_json t))%nat
    with (S (S (S (2 * String.length (message_json t))))).
  now rewrite parse_value_message.
Qed.

End JSONRoundTrip.

(* ================================================================== *)
(** * JSON: the parser never runs out of fuel *)
(* ================================================================== *)

Section ParserFuel.

Local Open Scope nat_scope.

Lemma skip_ws_le (s : string) : String.length (skip_ws s) <= String.length s.
Proof.
  induction s as [|c s IH]; cbn [skip_ws]; [lia|].
  destruct (is_json_space c); cbn [String.length] in *; lia.
Qed.

Lemma skip_ws_cons (s t : string) (c : ascii) :
  skip_ws s = String c t -> String.length t < String.length s.
Proof.
  intros H. pose proof (skip_ws_le s) as Hle. rewrite H in Hle.
  cbn [String.length] in Hle. lia.
Qed.

Lemma read_digits_le (s : string) :
  forall (acc : Z) (cnt : nat) (v : Z) (n : nat) (r : string),
  read_digits s acc cnt = (v, n, r) ->
  String.length r <= String.length s /\ cnt <= n
  /\ (cnt < n -> String.length r < String.length s).
Proof.
  induction s as [|c s IH]; intros acc cnt v n r H; cbn [read_digits] in H.
  - injection H as <- <- <-. lia.
  - destruct (is_digit c).
    + apply IH in H. cbn [String.length]. lia.
    + injection H as <- <- <-. lia.
Qed.

Lemma read_exponent_le (s r : string) (e : Z) :
  read_exponent s = Some (e, r) -> String.length r <= String.length s.
Proof.
  unfold read_exponent. destruct s as [|c s']; [intros [= <- <-]; lia|].
  destruct (Ascii.eqb c "e" || Ascii.eqb c "E")%bool;
    [|intros [= <- <-]; lia].
  destruct s' as [|d t].
  - cbn. discriminate.
  - destruct (Ascii.eqb d "-").
    + destruct (read_digits t 0%Z 0) as [[v n] r'] eqn:E.
      destruct n; [discriminate|]. intros [= <- <-].
      apply read_digits_le in E. cbn [String.length]. lia.
    + destruct (Ascii.eqb d "+").
      * destruct (read_digits t 0%Z 0) as [[v n] r'] eqn:E.
        destruct n; [discriminate|]. intros [= <- <-].
        apply read_digits_le in E. cbn [String.length]. lia.
      * destruct (read_digits (String d t) 0%Z 0) as [[v n] r'] eqn:E.
        destruct n; [discriminate|]. intros [= <- <-].
        apply read_digits_le in E. cbn [String.length] in *. lia.
Qed.

Lemma parse_int_lt (s r : string) (ip : Z) :
  parse_int s = Some (ip, r) -> String.length r < String.length s.
Proof.
  unfold parse_int. destruct s as [|c t]; [discriminate|].
  destruct (is_digit c) eqn:Hd; [|discriminate].
  destruct (Ascii.eqb c "0").
  - intros [= <- <-]. cbn [String.length]. lia.
  - destruct (read_digits (String c t) 0%Z 0) as [[v k] r'] eqn:E.
    intros [= <- <-]. cbn [read_digits] in E. rewrite Hd in E.
    apply read_digits_le in E. cbn [String.length]. lia.
Qed.

Lemma parse_frac_le (ip m : Z) (nf : nat) (s r : string) :
  parse_frac ip s = Some (m, nf, r) -> String.length r <= String.length s.
Proof.
  unfold parse_frac. destruct s as [|d u]; [intros [= <- <- <-]; lia|].
  destruct (Ascii.eqb d "."); [|intros [= <- <- <-]; lia].
  destruct (read_digits u ip 0) as [[v k] r'] eqn:E.
  destruct k; [discriminate|]. intros [= <- <- <-].
  apply read_digits_le in E. cbn [String.length]. lia.
Qed.

Lemma parse_number_lt (s r : string) (n : num) :
  parse_number s = Some (n, r) -> String.length r < String.length s.
Proof.
  unfold parse_number.
  destruct (match s with
            | String c t => if Ascii.eqb c "-" then (true, t) else (false, s)
            | EmptyString => (false, s)
            end) as [neg s0] eqn:E0.
  assert (H0 : String.length s0 <= String.length s).
  { destruct s as [|c t]; [injection E0 as <- <-; lia|].
    destruct (Ascii.eqb c "-"); injection E0 as <- <-;
      cbn [String.length]; lia. }
  destruct (parse_int s0) as [[ip s1]|] eqn:E1; [|discriminate].
  destruct (parse_frac ip s1) as [[[m nf] s2]|] eqn:E2; [|discriminate].
  destruct (read_exponent s2) as [[e rest]|] eqn:E3; [|discriminate].
  intros [= _ <-].
  apply parse_int_lt in E1. apply parse_frac_le in E2.
  apply read_exponent_le in E3. lia.
Qed.

Lemma parse_string_lt_bounded (k : nat) :
  forall (s v r : string),
  String.length s <= k ->
  parse_string s = Some (v, r) -> String.length r < String.length s.
Proof.
  induction k as [|k IH]; intros s v r Hk H.
  - destruct s; [discriminate | cbn [String.length] in Hk; lia].
  - destruct s as [|c s']; [discriminate|].
    cbn [parse_string] in H. cbn [String.length] in *.
    destruct (Ascii.eqb c dquote); [injection H as <- <-; lia|].
    assert (Hcons : forall ch t,
              String.length t <= k ->
              cons_char ch (parse_string t) = Some (v, r) ->
              String.length r < String.length t).
    { intros ch t Ht Hc. unfold cons_char in Hc.
      destruct (parse_string t) as [[v' r']|] eqn:E; [|discriminate].
      injection Hc as <- <-. now apply (IH t v' r'). }
    destruct (Ascii.eqb c backslash).
    + destruct s' as [|e s'']; [discriminate|]. cbn [String.length] in *.
      destruct (Ascii.eqb e "u").
      * destruct s'' as [|h1 [|h2 [|h3 [|h4 rest]]]]; try discriminate.
        cbn [String.length] in *.
        destruct (hex4 h1 h2 h3 h4); [|discriminate].
        apply Hcons in H; lia.
      * destruct (unescape e); [|discriminate].
        apply Hcons in H; lia.
    + destruct (code c <? 32)%Z; [discriminate|].
      apply Hcons in H; lia.
Qed.

Lemma parse_string_lt (s v r : string) :
  parse_string s = Some (v, r) -> String.length r < String.length s.
Proof. apply (parse_string_lt_bounded (String.length s)). lia. Qed.

Lemma drop_prefix_length (p : string) :
  forall s r, drop_prefix p s = Some r ->
              String.length s = String.length p + String.length r.
Proof.
  induction p as [|a p IH]; intros s r H; cbn [drop_prefix] in H.
  - injection H as <-. reflexivity.
  - destruct s as [|b s]; [discriminate|].
    destruct (Ascii.eqb a b); [|discriminate].
    apply IH in H. cbn [String.length]. lia.
Qed.

(** what the hypotheses say of the lengths *)
Ltac lengths :=
  repeat match goal with
         | H : skip_ws _ = String _ _ |- _ => apply skip_ws_cons in H
         | H : parse_string _ = Some _ |- _ => apply parse_string_lt in H
         | H : parse_number _ = Some _ |- _ => apply parse_number_lt in H
         | H : drop_prefix _ _ = Some _ |- _ => apply drop_prefix_length in H
         end;
  cbn [String.length] in *.

(** a parser that returns has consumed a character *)
Lemma parse_consumes (n : nat) :
  (forall s v r, parse_value n s = Parsed v r ->
                 String.length r < String.length s)
  /\ (forall s acc v r, parse_elements n s acc = Parsed v r ->
                        String.length r < String.length s)
  /\ (forall s acc v r, parse_members n s acc = Parsed v r ->
                        String.length r < String.length s).
Proof.
  induction n as [|n [IHv [IHe IHm]]].
  - repeat split; intros; discriminate.
  - split; [|split].
    + intros s v r H. cbn [parse_value] in H.
      destruct (skip_ws s) as [|c t] eqn:Hs; [discriminate|].
      destruct (Ascii.eqb c "{").
      { destruct (skip_ws t) as [|c' r'] eqn:Ht; [discriminate|].
        destruct (Ascii.eqb c' "}").
        - injection H as <- <-. lengths. lia.
        - apply IHm in H. lengths. lia. }
      destruct (Ascii.eqb c "[").
      { destruct (skip_ws t) as [|c' r'] eqn:Ht; [discriminate|].
        destruct (Ascii.eqb c' "]").
        - injection H as <- <-. lengths. lia.
        - apply IHe in H. lengths. lia. }
      destruct (Ascii.eqb c dquote).
      { destruct (parse_string t) as [[str r']|] eqn:Ht; [|discriminate].
        injection H as <- <-. lengths. lia. }
      destruct (Ascii.eqb c "-" || is_digit c)%bool.
      { destruct (parse_number (String c t)) as [[m r']|] eqn:Ht;
          [|discriminate].
        injection H as <- <-. lengths. lia. }
      destruct (drop_prefix "null" (String c t)) eqn:H1.
      { injection H as <- <-. lengths. lia. }
      destruct (drop_prefix "true" (String c t)) eqn:H2.
      { injection H as <- <-. lengths. lia. }
      destruct (drop_prefix "false" (String c t)) eqn:H3; [|discriminate].
      injection H as <- <-. lengths. lia.
    + intros s acc v r H. cbn [parse_elements] in H.
      destruct (parse_value n s) as [v' r'| |] eqn:Hv; try discriminate.
      apply IHv in Hv.
      destruct (skip_ws r') as [|c r''] eqn:Hr; [discriminate|].
      destruct (Ascii.eqb c ",").
      * apply IHe in H. lengths. lia.
      * destruct (Ascii.eqb c "]"); [|discriminate].
        injection H as <- <-. lengths. lia.
    + intros s acc v r H. cbn [parse_members] in H.
      destruct (skip_ws s) as [|q t] eqn:Hs; [discriminate|].
      destruct (Ascii.eqb q dquote); [|discriminate].
      destruct (parse_string t) as [[k r0]|] eqn:Hk; [|discriminate].
      destruct (skip_ws r0) as [|colon r1] eqn:Hr0; [discriminate|].
      destruct (Ascii.eqb colon ":"); [|discriminate].
      destruct (parse_value n r1) as [v' r2| |] eqn:Hv; try discriminate.
      apply IHv in Hv.
      destruct (skip_ws r2) as [|c r3] eqn:Hr2; [discriminate|].
      destruct (Ascii.eqb c ",").
      * apply IHm in H. lengths. lia.
      * destruct (Ascii.eqb c "}"); [|discriminate].
        injection H as <- <-. lengths. lia.
Qed.

(** with twice the length of the text and one more, the value parser has
    fuel left; the two loops need one more *)
Lemma parse_has_fuel (n : nat) :
  (forall s, 2 * String.length s + 1 <= n -> parse_value n s <> OutOfFuel)
  /\ (forall s acc, 2 * String.length s + 2 <= n ->
                    parse_elements n s acc <> OutOfFuel)
  /\ (forall s acc, 2 * String.length s + 2 <= n ->
                    parse_members n s acc <> OutOfFuel).
Proof.
  induction n as [|n [IHv [IHe IHm]]].
  - repeat split; intros; lia.
  - split; [|split].
    + intros s Hn. cbn [parse_value].
      destruct (skip_ws s) as [|c t] eqn:Hs; [discriminate|].
      apply skip_ws_cons in Hs.
      destruct (Ascii.eqb c "{").
      { destruct (skip_ws t) as [|c' r'] eqn:Ht; [discriminate|].
        destruct (Ascii.eqb c' "}"); [discriminate|]. apply IHm. lia. }
      destruct (Ascii.eqb c "[").
      { destruct (skip_ws t) as [|c' r'] eqn:Ht; [discriminate|].
        destruct (Ascii.eqb c' "]"); [discriminate|]. apply IHe. lia. }
      destruct (Ascii.eqb c dquote).
      { destruct (parse_string t) as [[str r']|]; discriminate. }
      destruct (Ascii.eqb c "-" || is_digit c)%bool.
      { destruct (parse_number (String c t)) as [[m r']|]; discriminate. }
      destruct (drop_prefix "null" (String c t)); [discriminate|].
      destruct (drop_prefix "true" (String c t)); [discriminate|].
      destruct (drop_prefix "false" (String c t)); discriminate.
    + intros s acc Hn. cbn [parse_elements].
      destruct (parse_value n s) as [v' r'| |] eqn:Hv; try discriminate.
      * apply (proj1 (parse_consumes n)) in Hv.
        destruct (skip_ws r') as [|c r''] eqn:Hr; [discriminate|].
        apply skip_ws_cons in Hr.
        destruct (Ascii.eqb c ","); [apply IHe; lia|].
        destruct (Ascii.eqb c "]"); discriminate.
      * exfalso. apply (IHv s); [lia | exact Hv].
    + intros s acc Hn. cbn [parse_members].
      destruct (skip_ws s) as [|q t] eqn:Hs; [discriminate|].
      apply skip_ws_cons in Hs.
      destruct (Ascii.eqb q dquote); [|discriminate].
      destruct (parse_string t) as [[k r0]|] eqn:Hk; [|discriminate].
      apply parse_string_lt in Hk.
      destruct (skip_ws r0) as [|colon r1] eqn:Hr0; [discriminate|].
      apply skip_ws_cons in Hr0.
      destruct (Ascii.eqb colon ":"); [|discriminate].
      destruct (parse_value n r1) as [v' r2| |] eqn:Hv; try discriminate.
      * apply (proj1 (parse_consumes n)) in Hv.
        destruct (skip_ws r2) as [|c r3] eqn:Hr2; [discriminate|].
        apply skip_ws_cons in Hr2.
        destruct (Ascii.eqb c ","); [apply IHm; lia|].
        destruct (Ascii.eqb c "}"); discriminate.
      * exfalso. apply (IHv r1); [lia | exact Hv].
Qed.

(** [JSON_parse] gives the parser enough fuel: it throws on malformed text
    only *)
Lemma JSON_parse_has_fuel (text : string) :
  parse_value (parse_fuel text) text <> OutOfFuel.
Proof. apply parse_has_fuel. unfold parse_fuel. lia. Qed.

End ParserFuel.

(* ================================================================== *)
(** * Required columns *)
(* ================================================================== *)

Section RequiredColumns.

Lemma includes_string_In (l : list string) (s : string) :
  includes_string l s = true <-> In s l.
Proof.
  unfold includes_string. rewrite existsb_exists. split.
  - intros [x [Hx Heq]]. apply String.eqb_eq in Heq. now subst.
  - intros H. exists s. split; [assumption | apply String.eqb_refl].
Qed.

Lemma includes_string_same_keys (k k' : list string) (col : string) :
  (forall c, In c k <-> In c k') ->
  includes_string k col = includes_string k' col.
Proof.
  intros H. apply eq_true_iff_eq. rewrite !includes_string_In. apply H.
Qed.

(** C9: a sheet without rows raises no missing-column error, whatever its
    kind; on a sheet with rows the outcome depends on the keys of the first
    row alone: the other rows are never looked at, and for a kind with
    required columns the errors are exactly the required columns that are
    not keys of the first row, in the order of the table. *)
Theorem C9_required_columns_first_row
  (sheetName : string) (first first' : row) (others others' : list row)
  (required : list string) :
  (forall col, In col (keys first) <-> In col (keys first')) ->
  REQUIRED_COLUMNS (getBaseSheetName sheetName) = Columns required ->
  validateRequiredColumns sheetName [] = Ok []
  /\ validateRequiredColumns sheetName (first :: others)
     = validateRequiredColumns sheetName (first' :: others')
  /\ validateRequiredColumns sheetName (first :: others)
     = Ok (map (missing_column_error sheetName)
             (filter (fun col => negb (includes_string (keys first) col))
                     required)).
Proof.
  intros Hkeys Hreq. unfold validateRequiredColumns. rewrite Hreq.
  repeat split.
  f_equal. f_equal. apply filter_ext. intros col.
  now rewrite (includes_string_same_keys _ _ col Hkeys).
Qed.

Lemma C9_required_columns_first_row_witness :
  validateRequiredColumns "Clients" [] = Ok []
  /\ validateRequiredColumns "Clients"
       [ [("ClientID", Str "C1")]; [("ClientName", Str "n")] ]
     = validateRequiredColumns "Clients"
       [ [("ClientID", Str "C2")]; [("GroupTag", Str "g")] ]
  /\ validateRequiredColumns "Clients"
       [ [("ClientID", Str "C1")]; [("ClientName", Str "n")] ]
     = Ok (map (missing_column_error "Clients")
             [ "ClientName"; "PriorityLevel"; "RequestedTaskIDs"; "GroupTag";
               "AttributesJSON" ]).
Proof.
  apply (C9_required_columns_first_row "Clients"
           [("ClientID", Str "C1")] [("ClientID", Str "C2")]
           [ [("ClientName", Str "n")] ] [ [("GroupTag", Str "g")] ]
           [ "ClientID"; "ClientName"; "PriorityLevel"; "RequestedTaskIDs";
             "GroupTag"; "AttributesJSON" ]).
  - intros col. simpl. tauto.
  - reflexivity.
Defined.

End RequiredColumns.

(* ================================================================== *)
(** * Duplicate identifiers *)
(* ================================================================== *)

Section DuplicateIDs.

Variables sheetName idColumn : string.

Lemma seen_after_app (d d' : list row) :
  seen_after idColumn (d ++ d') =
  (seen_after idColumn d ++ seen_after idColumn d')%list.
Proof. unfold seen_after. apply flat_map_app. Qed.

Lemma includes_seen_after (pre : list row) (v : any) (s : string) :
  ToString v = Ok s ->
  includes_string (seen_after idColumn pre) s =
  existsb (fun r' => ToBoolean (get r' idColumn)
                     && same_id_string (get r' idColumn) v) pre.
Proof.
  intros Hs. induction pre as [|r pre IH]; [reflexivity|].
  change (seen_after idColumn (r :: pre)) with
    ((if ToBoolean (get r idColumn)
      then match ToString (get r idColumn) with
           | Ok s => [s] | Throw _ => [] end
      else []) ++ seen_after idColumn pre)%list.
  unfold includes_string in *. rewrite existsb_app, IH. simpl.
  f_equal. unfold same_id_string. rewrite Hs.
  destruct (ToBoolean (get r idColumn)); [|reflexivity].
  destruct (ToString (get r idColumn)); simpl; [|reflexivity].
  rewrite orb_false_r. apply String.eqb_sym.
Qed.

Lemma filter_seq_shift (p : nat -> bool) (a n : nat) :
  filter p (seq a (S n)) =
  ((if p a then [a] else []) ++ filter p (seq (S a) n))%list.
Proof. simpl. now destruct (p a). Qed.

(** the loop, started after the rows [pre], adds the errors of the rows
    [rest] *)
Lemma duplicate_loop (rest pre : list row) (errors : list ValidationError) :
  Forall (printable idColumn) rest ->
  forEach_from (duplicate_step sheetName idColumn) rest
    (Z.of_nat (List.length pre)) (errors, seen_after idColumn pre)
  = Ok ((errors ++
         map (fun i => duplicate_error sheetName idColumn i
                         (get (nth i (pre ++ rest) []) idColumn))
             (filter (is_duplicate idColumn (pre ++ rest))
                     (seq (List.length pre) (List.length rest))))%list,
        seen_after idColumn (pre ++ rest)).
Proof.
  revert pre errors. induction rest as [|r rest IH]; intros pre errors Hp.
  - simpl. now rewrite !app_nil_r.
  - inversion Hp as [|? ? [s Hs] Hp']; subst.
    assert (Hnth : nth_error (pre ++ r :: rest) (List.length pre) = Some r)
      by (rewrite nth_error_app2, Nat.sub_diag; [reflexivity | lia]).
    assert (Hhd : nth (List.length pre) (pre ++ r :: rest) [] = r)
      by (rewrite app_nth2, Nat.sub_diag; [reflexivity | lia]).
    assert (Hfirst : firstn (List.length pre) (pre ++ r :: rest) = pre)
      by (rewrite firstn_app, Nat.sub_diag, firstn_all; simpl;
          apply app_nil_r).
    assert (Hdup : is_duplicate idColumn (pre ++ r :: rest) (List.length pre)
                   = ToBoolean (get r idColumn)
                     && includes_string (seen_after idColumn pre) s).
    { unfold is_duplicate. rewrite Hnth, Hfirst.
      now rewrite (includes_seen_after pre _ s Hs). }
    cbn [forEach_from List.length]. rewrite filter_seq_shift, Hdup.
    unfold duplicate_step at 1.
    replace (Z.of_nat (List.length pre) + 1)
      with (Z.of_nat (List.length (pre ++ [r])))
      by (rewrite length_app; simpl; lia).
    replace (S (List.length pre)) with (List.length (pre ++ [r]))
      by (rewrite length_app; simpl; lia).
    replace (pre ++ r :: rest)%list with ((pre ++ [r]) ++ rest)%list
      by (now rewrite <- app_assoc).
    destruct (ToBoolean (get r idColumn)) eqn:Htruthy; cbn [andb bind].
    + rewrite Hs. cbn [bind].
      replace (push (seen_after idColumn pre) s)
        with (seen_after idColumn (pre ++ [r]))
        by (rewrite seen_after_app; unfold seen_after at 2; simpl;
            now rewrite Htruthy, Hs).
      rewrite IH by assumption. f_equal. f_equal.
      destruct (includes_string (seen_after idColumn pre) s);
        [|reflexivity].
      unfold push. rewrite <- app_assoc. f_equal. cbn [map app].
      f_equal. unfold duplicate_error.
      replace (nth (List.length pre) ((pre ++ [r]) ++ rest) []) with r
        by (now rewrite <- app_assoc).
      now rewrite Hs.
    + replace (seen_after idColumn pre) with (seen_after idColumn (pre ++ [r]))
        at 1
        by (rewrite seen_after_app; unfold seen_after at 2; simpl;
            rewrite Htruthy; apply app_nil_r).
      now rewrite IH by assumption.
Qed.

Lemma validateDuplicateIDs_spec (data : list row) :
  idColumn_of (getBaseSheetName sheetName) = Some idColumn ->
  Forall (printable idColumn) data ->
  validateDuplicateIDs sheetName data
  = Ok (duplicate_errors sheetName idColumn data).
Proof.
  intros Hid Hp. unfold validateDuplicateIDs, forEach. rewrite Hid.
  pose proof (duplicate_loop data [] [] Hp) as H.
  change (Z.of_nat (List.length (@nil row))) with 0 in H.
  change (seen_after idColumn []) with (@nil string) in H.
  rewrite H. reflexivity.
Qed.

Lemma NoDup_map_filter_seq (f : nat -> Z) (p : nat -> bool) (a n : nat) :
  (forall i j, f i = f j -> i = j) ->
  NoDup (map f (filter p (seq a n))).
Proof.
  intros Hinj. apply Injective_map_NoDup; [exact Hinj|].
  apply NoDup_filter, seq_NoDup.
Qed.

(** a falsy identifier leaves the errors and the set [seen] as they are *)
Lemma duplicate_step_falsy (st : list ValidationError * list string)
  (r : row) (index : Z) :
  ToBoolean (get r idColumn) = false ->
  duplicate_step sheetName idColumn st r index = Ok st.
Proof. intros H. destruct st. unfold duplicate_step. now rewrite H. Qed.

Lemma duplicate_loop_falsy (data : list row) (index : Z)
  (st : list ValidationError * list string) :
  Forall (fun r => ToBoolean (get r idColumn) = false) data ->
  forEach_from (duplicate_step sheetName idColumn) data index st = Ok st.
Proof.
  intros H. revert index. induction H as [|r data Hr _ IH]; intros index.
  - reflexivity.
  - cbn [forEach_from]. rewrite (duplicate_step_falsy st r index Hr).
    apply IH.
Qed.

End DuplicateIDs.

(** C3: on a sheet whose identifiers print, [validateDuplicateIDs] returns
    one error for each row that has a truthy identifier printing like the
    truthy identifier of an earlier row, and no other: the row index [i] is
    in the errors exactly when [is_duplicate] holds at [i], no index comes
    twice, and the first occurrence is never flagged.  With three client
    rows of which the first and the last have the identifier C001 and the
    middle one another identifier, the only error is at row index 2. *)
Theorem C3_duplicate_ids_flag_later_occurrences :
  (forall (sheetName idColumn : string) (data : list row),
     idColumn_of (getBaseSheetName sheetName) = Some idColumn ->
     Forall (printable idColumn) data ->
     exists errs,
       validateDuplicateIDs sheetName data = Ok errs
       /\ errs = duplicate_errors sheetName idColumn data
       /\ (forall i, In (Z.of_nat i) (map rowIndex errs)
                     <-> is_duplicate idColumn data i = true)
       /\ NoDup (map rowIndex errs)
       /\ is_duplicate idColumn data 0 = false)
  /\ (forall (sheetName : string) (r0 r1 r2 : row) (s1 : string),
        getBaseSheetName sheetName = "Clients" ->
        get r0 "ClientID" = Str "C001" ->
        get r2 "ClientID" = Str "C001" ->
        ToString (get r1 "ClientID") = Ok s1 ->
        s1 <> "C001" ->
        validateDuplicateIDs sheetName [r0; r1; r2]
        = Ok [ mkError error "Duplicate ClientID: C001" 2 "ClientID"
                       sheetName (Some (Str "C001")) ]).
Proof.
  split.
  - intros sheetName idColumn data Hid Hp.
    exists (duplicate_errors sheetName idColumn data).
    split; [now apply validateDuplicateIDs_spec|].
    split; [reflexivity|]. split; [|split].
    + intros i. unfold duplicate_errors. rewrite map_map. cbn [rowIndex duplicate_error].
      rewrite in_map_iff. split.
      * intros [j [Hj Hin]]. apply Nat2Z.inj in Hj. subst j.
        now apply filter_In in Hin.
      * intros Hd. exists i. split; [reflexivity|].
        apply filter_In. split; [|assumption].
        apply in_seq. unfold is_duplicate in Hd.
        destruct (nth_error data i) eqn:Hn; [|discriminate].
        assert (i < List.length data)%nat
          by (apply nth_error_Some; congruence). lia.
    + unfold duplicate_errors. rewrite map_map. cbn [rowIndex duplicate_error].
      apply NoDup_map_filter_seq. intros i j. apply Nat2Z.inj.
    + unfold is_duplicate. destruct data; [reflexivity|].
      simpl. apply andb_false_r.
  - intros sheetName r0 r1 r2 s1 Hbase H0 H2 H1 Hne.
    rewrite (validateDuplicateIDs_spec sheetName "ClientID").
    + unfold duplicate_errors, is_duplicate, same_id_string.
      cbn [List.length seq filter nth_error firstn existsb nth map].
      rewrite H0, H2, H1. cbn [ToString ToBoolean].
      apply String.eqb_neq in Hne. rewrite (String.eqb_sym "C001" s1), Hne.
      destruct (ToBoolean (get r1 "ClientID")); cbn;
        unfold duplicate_error; rewrite H2; reflexivity.
    + rewrite Hbase. reflexivity.
    + repeat constructor; unfold printable.
      * rewrite H0. now exists "C001".
      * now exists s1.
      * rewrite H2. now exists "C001".
Qed.

Lemma C3_duplicate_ids_flag_later_occurrences_witness :
  (exists errs,
     validateDuplicateIDs "Clients 1"
       [ [("ClientID", Str "C001")]; [("ClientID", Number (Fin 7))];
         [("ClientID", Str "7")]; [("ClientID", Str "C001")] ] = Ok errs
     /\ map rowIndex errs = [2; 3])
  /\ validateDuplicateIDs "Clients 1"
       [ [("ClientID", Str "C001"); ("ClientName", Str "Client A")];
         [("ClientID", Str "C002"); ("ClientName", Str "Client B")];
         [("ClientID", Str "C001"); ("ClientName", Str "Client C")] ]
     = Ok [ mkError error "Duplicate ClientID: C001" 2 "ClientID"
                    "Clients 1" (Some (Str "C001")) ].
Proof.
  split.
  - destruct (proj1 C3_duplicate_ids_flag_later_occurrences
                "Clients 1" "ClientID"
                [ [("ClientID", Str "C001")]; [("ClientID", Number (Fin 7))];
                  [("ClientID", Str "7")]; [("ClientID", Str "C001")] ])
      as [errs [Hrun [Herrs _]]].
    + reflexivity.
    + repeat constructor; eexists; reflexivity.
    + exists errs. split; [exact Hrun|]. rewrite Herrs. reflexivity.
  - apply (proj2 C3_duplicate_ids_flag_later_occurrences "Clients 1" _ _ _
             "C002"); try reflexivity. discriminate.
Defined.

(** C10: a row whose identifier is falsy ([undefined], [null], the empty
    string, the number 0) is skipped by the loop of [validateDuplicateIDs]:
    the step returns the errors and the set [seen] unchanged, so the row is
    not flagged and does not make a later row a duplicate; a sheet whose
    identifiers are all falsy has no duplicate error however many rows share
    one. *)
Theorem C10_falsy_ids_are_skipped
  (sheetName idColumn : string) (data : list row) (r : row) (index : Z)
  (errors : list ValidationError) (seen : list string) :
  idColumn_of (getBaseSheetName sheetName) = Some idColumn ->
  ToBoolean (get r idColumn) = false ->
  Forall (fun r => ToBoolean (get r idColumn) = false) data ->
  (ToBoolean Undefined = false /\ ToBoolean Null = false
   /\ ToBoolean (Str EmptyString) = false
   /\ ToBoolean (Number (Fin 0)) = false)
  /\ duplicate_step sheetName idColumn (errors, seen) r index
     = Ok (errors, seen)
  /\ forEach_from (duplicate_step sheetName idColumn) data index
       (errors, seen) = Ok (errors, seen)
  /\ validateDuplicateIDs sheetName data = Ok [].
Proof.
  intros Hid Hr Hdata. split; [repeat split|]. split; [|split].
  - now apply duplicate_step_falsy.
  - now apply duplicate_loop_falsy.
  - unfold validateDuplicateIDs, forEach. rewrite Hid.
    now rewrite duplicate_loop_falsy.
Qed.

Lemma C10_falsy_ids_are_skipped_witness :
  duplicate_step "Workers" "WorkerID" ([], ["W1"])
    [("WorkerID", Str EmptyString)] 4 = Ok ([], ["W1"])
  /\ validateDuplicateIDs "Workers"
       [ [("WorkerID", Str EmptyString)]; [("WorkerID", Number (Fin 0))];
         [("WorkerName", Str "no id")]; [("WorkerID", Null)];
         [("WorkerID", Str EmptyString)]; [("WorkerID", Number (Fin 0))] ]
     = Ok [].
Proof.
  pose proof (C10_falsy_ids_are_skipped "Workers" "WorkerID"
    [ [("WorkerID", Str EmptyString)]; [("WorkerID", Number (Fin 0))];
      [("WorkerName", Str "no id")]; [("WorkerID", Null)];
      [("WorkerID", Str EmptyString)]; [("WorkerID", Number (Fin 0))] ]
    [("WorkerID", Str EmptyString)] 4 [] ["W1"]
    eq_refl eq_refl) as H.
  destruct H as [_ [Hstep [_ Hall]]].
  - repeat constructor.
  - split; [exact Hstep | exact Hall].
Defined.

(* ================================================================== *)
(** * AttributesJSON *)
(* ================================================================== *)

Section AttributesJSON.

Lemma get_set_same (r : row) (k : string) (v : any) :
  get (set r k v) k = v.
Proof.
  induction r as [|[k' v'] r IH]; simpl.
  - now rewrite String.eqb_refl.
  - destruct (String.eqb k' k) eqn:E; simpl; now rewrite E.
Qed.

Lemma get_set_other (r : row) (k k' : string) (v : any) :
  k' <> k -> get (set r k v) k' = get r k'.
Proof.
  intros Hne. induction r as [|[k0 v0] r IH]; simpl.
  - destruct (String.eqb_spec k k'); [congruence | reflexivity].
  - destruct (String.eqb_spec k0 k); simpl.
    + subst. destruct (String.eqb_spec k k'); [congruence | reflexivity].
    + now rewrite IH.
Qed.

Lemma has_get (r : row) (k : string) :
  get r k <> Undefined -> has r k = true.
Proof.
  induction r as [|[k' v'] r IH]; simpl; [congruence|].
  destruct (String.eqb k' k); [reflexivity | exact IH].
Qed.

Lemma keys_set (r : row) (k : string) (v : any) :
  has r k = true -> keys (set r k v) = keys r.
Proof.
  unfold keys. induction r as [|[k' v'] r IH]; simpl; [discriminate|].
  destruct (String.eqb k' k); simpl; [reflexivity|].
  intros H. now rewrite IH.
Qed.

(** a visit of the loop of [validateAttributesJSON], in closed form: it
    never throws, adds [attribute_errors] and leaves [repair] of the row *)
Lemma attributes_step_spec (sheetName : string)
  (errors : list ValidationError) (h : heap) (l : loc) (index : Z) :
  attributes_step sheetName (errors, h) l index
  = Ok (push_all errors (attribute_errors sheetName index (h l)),
        match needs_repair (h l) with
        | Some _ => update h l (repair (h l))
        | None => h
        end).
Proof.
  unfold attributes_step, attribute_errors, repair, needs_repair, push_all.
  destruct (get (h l) "AttributesJSON") eqn:Hget;
    try (now rewrite app_nil_r).
  cbn [ToBoolean]. destruct (negb (String.eqb s EmptyString)); cbn [andb];
    [|now rewrite app_nil_r].
  destruct (JSON_parse s); cbn [throws andb]; [now rewrite app_nil_r|].
  unfold looks_plain.
  destruct (negb (startsWith (trim s) "{") && negb (startsWith (trim s) "[")
            && negb (includes (trim s) ":")); cbn [negb].
  - rewrite app_nil_r. reflexivity.
  - reflexivity.
Qed.




End AttributesJSON.

(* ================================================================== *)
(** * Number sequences *)
(* ================================================================== *)

Section NumberSequences.

(** C2, on [parseNumberArray]: the range and the JSON array are read as the
    claim says and a text that is no number gives the empty list, but a
    bare comma-separated list is not split: it goes to [JSON.parse], which
    throws, and the result is the empty list. *)
Theorem C2_parseNumberArray_comma_list_is_empty :
  parseNumberArray (Str "1-3") = numbers [1; 2; 3]
  /\ parseNumberArray (Str "[2,4,5]") = numbers [2; 4; 5]
  /\ parseNumberArray (Str "not-a-number") = numbers []
  /\ parseNumberArray (Str "2,4,5") = numbers [].
Proof. repeat split. Qed.

(** in [parseNumberArray] any text with a dash is a range, also a JSON
    array with a negative element and a bare negative number *)
Lemma parseNumberArray_dash_is_range :
  parseNumberArray (Str "[1,-2]") = numbers []
  /\ parseNumberArray (Str "-2") = numbers [0; 1; 2].
Proof. repeat split. Qed.

(** [normalizePreferredPhases], the sibling normalizer of [app/page.tsx],
    does what the claim says on the four inputs *)
Lemma normalizePreferredPhases_examples :
  Page.normalizePreferredPhases "1-3" = Ok (numbers [1; 2; 3])
  /\ Page.normalizePreferredPhases "[2,4,5]" = Ok (numbers [2; 4; 5])
  /\ Page.normalizePreferredPhases "2,4,5" = Ok (numbers [2; 4; 5])
  /\ Page.normalizePreferredPhases "not-a-number" = Ok (numbers []).
Proof. repeat split. Qed.

(** and takes its three branches in the order of the claim: the range
    first, then the JSON array, then the comma-separated list with the
    tokens that are no numbers dropped *)
Lemma normalizePreferredPhases_precedence (input : string) :
  input <> EmptyString ->
  (Page.is_range input = true ->
     Page.normalizePreferredPhases input
     = (let parts := map StringToNumber (split "-" input) in
        l <- Array_from_length
               (num_add (num_sub (nth 1 parts NaN) (nth 0 parts NaN)) (Fin 1))
               (nth 0 parts NaN) ;;
        Ok (Arr l)))
  /\ (Page.is_range input = false ->
      startsWith (trim input) "[" = true ->
      Page.normalizePreferredPhases input
      = Ok (catch (JSON_parse input) (Arr [])))
  /\ (Page.is_range input = false ->
      startsWith (trim input) "[" = false ->
      Page.normalizePreferredPhases input
      = Ok (Arr (map Number
                   (filter (fun v => negb (isNaN v))
                      (map (fun v => StringToNumber (trim v))
                           (split "," input)))))).
Proof.
  intros Hne. apply String.eqb_neq in Hne.
  unfold Page.normalizePreferredPhases. cbn [ToBoolean]. rewrite Hne.
  cbn [negb]. repeat split; intros Hr; rewrite Hr; try reflexivity.
  - intros Hb. now rewrite Hb.
  - intros Hb. now rewrite Hb.
Qed.

End NumberSequences.

(* ================================================================== *)
(** * Range checks *)
(* ================================================================== *)

Section RangeChecks.

Lemma ToNumber_prints (v : any) (p : num) :
  ToNumber v = Ok p -> exists s, ToString v = Ok s.
Proof.
  destruct v; try (intros _; eexists; reflexivity).
  - unfold ToNumber. destruct (ToString (Arr l)) as [s|e];
      [intros _; now exists s | discriminate].
  - unfold ToNumber. destruct (ToString (Obj l)) as [s|e];
      [intros _; now exists s | discriminate].
Qed.

(** what [validatePriorityLevel] enforces on a client row: a priority from
    1 to 5, a value that is no number getting the error of a value out of
    the range *)
Lemma validatePriorityLevel_row (sheetName : string) (r : row) (p : num) :
  getBaseSheetName sheetName = "Clients" ->
  ToNumber (get r "PriorityLevel") = Ok p ->
  exists s,
    ToString (get r "PriorityLevel") = Ok s
    /\ validatePriorityLevel [r] sheetName
       = Ok (if priority_in_range p then []
             else [mkError error
                     ("PriorityLevel must be between 1-5, got: " ++ s)
                     0 "PriorityLevel" sheetName
                     (Some (get r "PriorityLevel"))]).
Proof.
  intros Hbase Hp. destruct (ToNumber_prints _ _ Hp) as [s Hs].
  exists s. split; [exact Hs|].
  unfold validatePriorityLevel, forEach. rewrite Hbase.
  change (String.eqb "Clients" "Clients") with true.
  cbn [negb forEach_from]. rewrite Hp. cbn [bind].
  destruct p as [|z]; cbn [isNaN orb priority_in_range num_lt num_gt].
  - rewrite Hs. reflexivity.
  - destruct (Z.leb_spec 1 z), (Z.leb_spec z 5), (Z.ltb_spec z 1),
      (Z.ltb_spec 5 z); try lia; cbn [orb andb bind];
      try reflexivity; rewrite Hs; reflexivity.
Qed.

(** what [validateDuration] enforces on a task row: a duration of 1 or
    more *)
Lemma validateDuration_row (sheetName : string) (r : row) (d : num) :
  getBaseSheetName sheetName = "Tasks" ->
  ToNumber (get r "Duration") = Ok d ->
  exists s,
    ToString (get r "Duration") = Ok s
    /\ validateDuration [r] sheetName
       = Ok (if duration_in_range d then []
             else [mkError error ("Duration must be >= 1, got: " ++ s)
                     0 "Duration" sheetName (Some (get r "Duration"))]).
Proof.
  intros Hbase Hd. destruct (ToNumber_prints _ _ Hd) as [s Hs].
  exists s. split; [exact Hs|].
  unfold validateDuration, forEach. rewrite Hbase.
  change (String.eqb "Tasks" "Tasks") with true.
  cbn [negb forEach_from]. rewrite Hd. cbn [bind].
  destruct d as [|z]; cbn [isNaN orb duration_in_range num_lt].
  - rewrite Hs. reflexivity.
  - destruct (Z.leb_spec 1 z), (Z.ltb_spec z 1); try lia; cbn [bind];
      try reflexivity; rewrite Hs; reflexivity.
Qed.

(** the priorities 0 and 6 are reported, 1 and 5 are not *)
Lemma validatePriorityLevel_bounds :
  exists errs,
    validatePriorityLevel priority_rows "Clients" = Ok errs
    /\ map rowIndex errs = [0; 1]
    /\ map column errs = ["PriorityLevel"; "PriorityLevel"].
Proof. eexists. split; [reflexivity|]. split; reflexivity. Qed.


End RangeChecks.

(* ================================================================== *)
(** * Phase saturation *)
(* ================================================================== *)

Section PhaseSaturation.



















End PhaseSaturation.



(* ================================================================== *)
(** * The store across a run of [validateAllData] *)
(* ================================================================== *)

Section Frame.

Lemma needs_repair_inv (r : row) (t : string) :
  needs_repair r = Some t ->
  exists s, get r "AttributesJSON" = Str s /\ s <> EmptyString
            /\ throws (JSON_parse s) = true
            /\ looks_plain (trim s) = true /\ t = trim s.
Proof.
  unfold needs_repair. destruct (get r "AttributesJSON"); try discriminate.
  destruct (String.eqb_spec s EmptyString); cbn [negb andb];
    [discriminate|].
  destruct (throws (JSON_parse s)) eqn:Hth; cbn [andb]; [|discriminate].
  destruct (looks_plain (trim s)) eqn:Hpl; [|discriminate].
  intros [= <-]. exists s. repeat split; auto.
Qed.

Lemma repair_row_eqv (r : row) : row_eqv r (repair r).
Proof.
  unfold repair. destruct (needs_repair r) as [t|] eqn:E.
  - destruct (needs_repair_inv r t E) as [s [Hget _]]. split.
    + symmetry. apply keys_set, has_get. rewrite Hget. discriminate.
    + intros k Hk. symmetry. now apply get_set_other.
  - split; reflexivity.
Qed.

Lemma message_json_not_empty (t : string) : message_json t <> EmptyString.
Proof. discriminate. Qed.

Lemma needs_repair_repair (r : row) : needs_repair (repair r) = None.
Proof.
  unfold repair. destruct (needs_repair r) as [t|] eqn:E; [|exact E].
  unfold needs_repair. rewrite get_set_same, JSON_parse_message.
  cbn [throws]. now rewrite andb_false_r.
Qed.

Lemma repair_repair (r : row) : repair (repair r) = repair r.
Proof. unfold repair at 1. now rewrite needs_repair_repair. Qed.

Lemma attribute_errors_repair (sheetName : string) (index : Z) (r : row) :
  attribute_errors sheetName index (repair r)
  = attribute_errors sheetName index r.
Proof.
  unfold repair. destruct (needs_repair r) as [t|] eqn:E; [|reflexivity].
  destruct (needs_repair_inv r t E) as [s [Hget [Hne [Hth [Hpl _]]]]].
  unfold attribute_errors. rewrite get_set_same, Hget, JSON_parse_message.
  rewrite Hpl. cbn [throws negb]. now rewrite !andb_false_r.
Qed.

Lemma heap_frame_refl (h : heap) : heap_frame h h.
Proof. intros l. now left. Qed.

Lemma heap_frame_trans (h1 h2 h3 : heap) :
  heap_frame h1 h2 -> heap_frame h2 h3 -> heap_frame h1 h3.
Proof.
  intros H12 H23 l. destruct (H23 l) as [E|E]; rewrite E.
  - apply H12.
  - destruct (H12 l) as [E'|E']; rewrite E'.
    + now right.
    + right. apply repair_repair.
Qed.

Lemma heap_frame_row_eqv (h h' : heap) (data : list loc) :
  heap_frame h h' -> Forall2 row_eqv (map h data) (map h' data).
Proof.
  intros Hf. induction data as [|l data IH]; cbn [map]; constructor.
  - destruct (Hf l) as [E|E]; rewrite E.
    + split; reflexivity.
    + apply repair_row_eqv.
  - exact IH.
Qed.

(** one visit: the store stays framed, only the visited row can change *)
Lemma visit_frame (h : heap) (l : loc) :
  let h' := match needs_repair (h l) with
            | Some _ => update h l (repair (h l))
            | None => h
            end in
  heap_frame h h' /\ forall l', l' <> l -> h' l' = h l'.
Proof.
  destruct (needs_repair (h l)); cbn zeta.
  - split.
    + intros l'. unfold update. destruct (Nat.eqb_spec l' l).
      * subst. now right.
      * now left.
    + intros l' Hne. unfold update.
      destruct (Nat.eqb_spec l' l); [contradiction | reflexivity].
  - split; [apply heap_frame_refl | reflexivity].
Qed.

(** one visit on a store and on a framed one: same errors, and the stores
    stay framed *)
Lemma visit_respects (ha hb : heap) (l : loc) :
  heap_frame ha hb ->
  heap_frame
    match needs_repair (ha l) with
    | Some _ => update ha l (repair (ha l))
    | None => ha
    end
    match needs_repair (hb l) with
    | Some _ => update hb l (repair (hb l))
    | None => hb
    end.
Proof.
  intros Hf l'. destruct (Nat.eqb_spec l' l) as [->|Hne].
  - assert (Ha : match needs_repair (ha l) with
                 | Some _ => update ha l (repair (ha l))
                 | None => ha
                 end l = repair (ha l)).
    { destruct (needs_repair (ha l)) eqn:E.
      - unfold update. now rewrite Nat.eqb_refl.
      - unfold repair. now rewrite E. }
    assert (Hb : match needs_repair (hb l) with
                 | Some _ => update hb l (repair (hb l))
                 | None => hb
                 end l = repair (hb l)).
    { destruct (needs_repair (hb l)) eqn:E.
      - unfold update. now rewrite Nat.eqb_refl.
      - unfold repair. now rewrite E. }
    rewrite Ha, Hb. left.
    destruct (Hf l) as [E|E]; rewrite E; [reflexivity | apply repair_repair].
  - assert (Ha : match needs_repair (ha l) with
                 | Some _ => update ha l (repair (ha l))
                 | None => ha
                 end l' = ha l').
    { destruct (needs_repair (ha l)); [|reflexivity].
      unfold update. destruct (Nat.eqb_spec l' l); [contradiction|].
      reflexivity. }
    assert (Hb : match needs_repair (hb l) with
                 | Some _ => update hb l (repair (hb l))
                 | None => hb
                 end l' = hb l').
    { destruct (needs_repair (hb l)); [|reflexivity].
      unfold update. destruct (Nat.eqb_spec l' l); [contradiction|].
      reflexivity. }
    rewrite Ha, Hb. apply Hf.
Qed.

Lemma attributes_loop_frames (sheetName : string) (data : list loc) :
  forall (index : Z) (errors : list ValidationError) (h : heap),
  exists errors',
    fst (attributes_loop sheetName data index errors h) = Ok errors'
    /\ heap_frame h (snd (attributes_loop sheetName data index errors h))
    /\ forall l, ~ In l data ->
                 snd (attributes_loop sheetName data index errors h) l = h l.
Proof.
  induction data as [|l data IH]; intros index errors h.
  - exists errors. cbn. split; [reflexivity|].
    split; [apply heap_frame_refl | reflexivity].
  - cbn [attributes_loop]. rewrite attributes_step_spec.
    destruct (visit_frame h l) as [Hf Hout].
    set (h1 := match needs_repair (h l) with
               | Some _ => update h l (repair (h l))
               | None => h
               end) in *.
    destruct (IH (index + 1)
                 (push_all errors (attribute_errors sheetName index (h l)))
                 h1) as [errors' [Hrun [Hf' Hout']]].
    exists errors'. split; [exact Hrun|]. split.
    + eapply heap_frame_trans; eassumption.
    + intros l' Hl'. rewrite Hout'.
      * apply Hout. intros ->. apply Hl'. now left.
      * intros Hin. apply Hl'. now right.
Qed.

Lemma attributes_loop_respects (sheetName : string) (data : list loc) :
  forall (index : Z) (errors : list ValidationError) (ha hb : heap),
  heap_frame ha hb ->
  fst (attributes_loop sheetName data index errors ha)
  = fst (attributes_loop sheetName data index errors hb)
  /\ heap_frame (snd (attributes_loop sheetName data index errors ha))
                (snd (attributes_loop sheetName data index errors hb)).
Proof.
  induction data as [|l data IH]; intros index errors ha hb Hf.
  - cbn. auto.
  - cbn [attributes_loop]. rewrite !attributes_step_spec.
    assert (Herr : attribute_errors sheetName index (hb l)
                   = attribute_errors sheetName index (ha l)).
    { destruct (Hf l) as [E|E]; rewrite E;
        [reflexivity | apply attribute_errors_repair]. }
    rewrite Herr. apply IH. now apply visit_respects.
Qed.

(** ** The computations of [validateAllData] *)

Lemma frames_ret {A : Type} (data : list loc) (a : A) : frames data (ret a).
Proof. intros h. split; [apply heap_frame_refl | reflexivity]. Qed.

Lemma frames_call {A : Type} (data data' : list loc)
  (f : list row -> result A) : frames data (call f data').
Proof. intros h. split; [apply heap_frame_refl | reflexivity]. Qed.

Lemma frames_call2 {A : Type} (data d1 d2 : list loc)
  (f : list row -> list row -> result A) : frames data (call2 f d1 d2).
Proof. intros h. split; [apply heap_frame_refl | reflexivity]. Qed.

Lemma frames_bind {A B : Type} (data : list loc) (m : M A) (k : A -> M B) :
  frames data m -> (forall a, frames data (k a)) -> frames data (bindM m k).
Proof.
  intros Hm Hk h. unfold bindM. destruct (Hm h) as [Hf Hout].
  destruct (m h) as [[a|e] h1]; cbn [fst snd] in *.
  - destruct (Hk a h1) as [Hf' Hout']. split.
    + eapply heap_frame_trans; eassumption.
    + intros l Hl. rewrite Hout', Hout; auto.
  - split; assumption.
Qed.

Lemma frames_incl {A : Type} (data data' : list loc) (m : M A) :
  incl data data' -> frames data m -> frames data' m.
Proof.
  intros Hincl Hm h. destruct (Hm h) as [Hf Hout]. split; [exact Hf|].
  intros l Hl. apply Hout. intros Hin. apply Hl, Hincl, Hin.
Qed.

Lemma frames_validateAttributesJSON (data : list loc) (sheetName : string) :
  frames data (validateAttributesJSON data sheetName).
Proof.
  intros h. unfold validateAttributesJSON.
  destruct (negb (String.eqb (getBaseSheetName sheetName) "Clients")).
  - split; [apply heap_frame_refl | reflexivity].
  - destruct (attributes_loop_frames sheetName data 0 [] h)
      as [errors' [_ [Hf Hout]]]. split; assumption.
Qed.

Lemma respects_ret {A : Type} (a : A) : respects (ret a).
Proof. intros ha hb Hf. split; [reflexivity | exact Hf]. Qed.

Lemma respects_bind {A B : Type} (m : M A) (k : A -> M B) :
  respects m -> (forall a, respects (k a)) -> respects (bindM m k).
Proof.
  intros Hm Hk ha hb Hf. unfold bindM. destruct (Hm ha hb Hf) as [He Hf'].
  destruct (m ha) as [[a|e] ha1], (m hb) as [[b|e'] hb1];
    cbn [fst snd] in *; try discriminate.
  - injection He as <-. now apply Hk.
  - injection He as <-. split; [reflexivity | exact Hf'].
Qed.

Lemma respects_call {A : Type} (f : list row -> result A) (data : list loc) :
  congruent f -> respects (call f data).
Proof.
  intros Hc ha hb Hf. unfold call. cbn [fst snd]. split; [|exact Hf].
  apply Hc. now apply heap_frame_row_eqv.
Qed.

Lemma respects_call2 {A : Type} (f : list row -> list row -> result A)
  (d1 d2 : list loc) : congruent2 f -> respects (call2 f d1 d2).
Proof.
  intros Hc ha hb Hf. unfold call2. cbn [fst snd]. split; [|exact Hf].
  apply Hc; now apply heap_frame_row_eqv.
Qed.

Lemma respects_validateAttributesJSON (data : list loc) (sheetName : string) :
  respects (validateAttributesJSON data sheetName).
Proof.
  intros ha hb Hf. unfold validateAttributesJSON.
  destruct (negb (String.eqb (getBaseSheetName sheetName) "Clients")).
  - split; [reflexivity | exact Hf].
  - now apply attributes_loop_respects.
Qed.

End Frame.

(* ================================================================== *)
(** * The validators that only read do not look at AttributesJSON *)
(* ================================================================== *)

Section Congruence.

Lemma forEach_from_congr {A S : Type} (R : A -> A -> Prop)
  (f f' : S -> A -> Z -> result S) :
  (forall s x x' i, R x x' -> f s x i = f' s x' i) ->
  forall l l', Forall2 R l l' ->
  forall i s, forEach_from f l i s = forEach_from f' l' i s.
Proof.
  intros Hf l l' H. induction H as [|x x' l l' Hx _ IH]; intros i s.
  - reflexivity.
  - cbn [forEach_from]. rewrite (Hf s x x' i Hx).
    destruct (f' s x' i); cbn [bind]; [apply IH | reflexivity].
Qed.

Lemma forEach_congr {A S : Type} (R : A -> A -> Prop)
  (f f' : S -> A -> Z -> result S) :
  (forall s x x' i, R x x' -> f s x i = f' s x' i) ->
  forall l l', Forall2 R l l' ->
  forall s, forEach f l s = forEach f' l' s.
Proof. intros Hf l l' H s. now apply (forEach_from_congr R). Qed.

(** [filterM] on related lists: the same exception, or related results *)
Lemma filterM_congr {A : Type} (R : A -> A -> Prop) (f : A -> result bool) :
  (forall x x', R x x' -> f x = f x') ->
  forall l l', Forall2 R l l' ->
  match filterM f l, filterM f l' with
  | Ok r, Ok r' => Forall2 R r r'
  | Throw e, Throw e' => e = e'
  | _, _ => False
  end.
Proof.
  intros Hf l l' H. induction H as [|x x' l l' Hx _ IH].
  - constructor.
  - cbn [filterM]. rewrite (Hf x x' Hx).
    destruct (f x') as [b|e]; cbn [bind]; [|reflexivity].
    destruct (filterM f l), (filterM f l'); cbn [bind]; try assumption.
    destruct b; [constructor|]; assumption.
Qed.

Lemma map_get_congr (k : string) (rs rs' : list row) :
  k <> "AttributesJSON" ->
  Forall2 row_eqv rs rs' ->
  map (fun r => get r k) rs = map (fun r => get r k) rs'.
Proof.
  intros Hk H. induction H as [|x x' l l' [_ Hx] _ IH]; [reflexivity|].
  cbn [map]. now rewrite IH, (Hx k Hk).
Qed.

(** replace the reads of the row [x] by the reads of the row it is
    equivalent to *)
Ltac reads H :=
  destruct H as [_ H];
  repeat match goal with
         | H : forall k, k <> _ -> get ?x k = get _ k |- context [get ?x ?k] =>
             rewrite (H k) by (intros E; discriminate E)
         end.

Lemma congruent_validateRequiredColumns (sheetName : string) :
  congruent (validateRequiredColumns sheetName).
Proof.
  intros rs rs' H. unfold validateRequiredColumns.
  destruct H as [|x x' l l' [Hkeys _] _]; [reflexivity|].
  now rewrite Hkeys.
Qed.

Lemma idColumn_of_not_attributes (base c : string) :
  idColumn_of base = Some c -> c <> "AttributesJSON".
Proof.
  unfold idColumn_of.
  destruct (String.eqb base "Clients"); [intros [= <-]; discriminate|].
  destruct (String.eqb base "Workers"); [intros [= <-]; discriminate|].
  destruct (String.eqb base "Tasks"); [intros [= <-]; discriminate|].
  discriminate.
Qed.

Lemma congruent_validateDuplicateIDs (sheetName : string) :
  congruent (validateDuplicateIDs sheetName).
Proof.
  intros rs rs' H. unfold validateDuplicateIDs.
  destruct (idColumn_of (getBaseSheetName sheetName)) as [c|] eqn:Hc;
    [|reflexivity].
  apply idColumn_of_not_attributes in Hc.
  assert (Hloop : forEach (duplicate_step sheetName c) rs ([], [])
                  = forEach (duplicate_step sheetName c) rs' ([], [])).
  { apply (forEach_congr row_eqv); [|exact H].
    intros s x x' i [_ Hx]. unfold duplicate_step. now rewrite (Hx c Hc). }
  now rewrite Hloop.
Qed.

Lemma congruent_validatePriorityLevel (sheetName : string) :
  congruent (fun rows => validatePriorityLevel rows sheetName).
Proof.
  intros rs rs' H. unfold validatePriorityLevel.
  destruct (negb (String.eqb (getBaseSheetName sheetName) "Clients"));
    [reflexivity|].
  apply (forEach_congr row_eqv); [|exact H].
  intros s x x' i Hx. reads Hx. reflexivity.
Qed.

Lemma congruent_validateDuration (sheetName : string) :
  congruent (fun rows => validateDuration rows sheetName).
Proof.
  intros rs rs' H. unfold validateDuration.
  destruct (negb (String.eqb (getBaseSheetName sheetName) "Tasks"));
    [reflexivity|].
  apply (forEach_congr row_eqv); [|exact H].
  intros s x x' i Hx. reads Hx. reflexivity.
Qed.

Lemma congruent_validateAvailableSlots (sheetName : string) :
  congruent (fun rows => validateAvailableSlots rows sheetName).
Proof.
  intros rs rs' H. unfold validateAvailableSlots.
  destruct (negb (String.eqb (getBaseSheetName sheetName) "Workers"));
    [reflexivity|].
  apply (forEach_congr row_eqv); [|exact H].
  intros s x x' i Hx. reads Hx. reflexivity.
Qed.

Lemma congruent_validateTaskReferences : congruent2 validateTaskReferences.
Proof.
  intros cs cs' ts ts' Hc Ht. unfold validateTaskReferences.
  rewrite (map_get_congr "TaskID" ts ts') by (discriminate || assumption).
  apply (forEach_congr row_eqv); [|exact Hc].
  intros s x x' i Hx. reads Hx. reflexivity.
Qed.

Lemma congruent_validateWorkerOverload : congruent validateWorkerOverload.
Proof.
  intros rs rs' H. unfold validateWorkerOverload.
  apply (forEach_congr row_eqv); [|exact H].
  intros s x x' i Hx. reads Hx. reflexivity.
Qed.

Lemma congruent_validateSkillCoverage : congruent2 validateSkillCoverage.
Proof.
  intros ws ws' ts ts' Hw Ht. unfold validateSkillCoverage.
  match goal with
  | |- bind ?a ?k = bind ?b ?k' =>
      assert (Ha : a = b);
      [| rewrite Ha; destruct b as [skills|e]; cbn [bind]; [|reflexivity]]
  end.
  - apply (forEach_congr row_eqv); [|exact Hw].
    intros s x x' i Hx. reads Hx. reflexivity.
  - apply (forEach_congr row_eqv); [|exact Ht].
    intros s x x' i Hx. reads Hx. reflexivity.
Qed.

Lemma congruent_validateMaxConcurrency : congruent2 validateMaxConcurrency.
Proof.
  intros ts ts' ws ws' Ht Hw. unfold validateMaxConcurrency.
  apply (forEach_congr row_eqv); [|exact Ht].
  intros s x x' i Hx. reads Hx.
  destruct (ToNumber (get x' "MaxConcurrent")) as [mc|e]; cbn [bind];
    [|reflexivity].
  destruct (parseCSVList (get x' "RequiredSkills")) as [req|e]; cbn [bind];
    [|reflexivity].
  match goal with
  | |- bind (filterM ?g ws) _ = _ =>
      assert (Hg : forall w w', row_eqv w w' -> g w = g w')
        by (intros w w' Hww; reads Hww; reflexivity);
      pose proof (filterM_congr row_eqv g Hg ws ws' Hw) as Hfm;
      pose (a := filterM g ws); pose (b := filterM g ws');
      change (filterM g ws) with a; change (filterM g ws') with b;
      change (match a with
              | Ok r => match b with
                        | Ok r' => Forall2 row_eqv r r'
                        | Throw _ => False
                        end
              | Throw e => match b with
                           | Ok _ => False
                           | Throw e' => e = e'
                           end
              end) in Hfm
  end.
  clearbody a b.
  destruct a as [q|e], b as [q'|e']; try contradiction; cbn [bind].
  - now rewrite (Forall2_length Hfm).
  - now subst.
Qed.

Lemma validateCircularCoRunGroups_empty (clients : list row) :
  validateCircularCoRunGroups clients = Ok [].
Proof.
  unfold validateCircularCoRunGroups, forEach.
  generalize 0. generalize (@nil (any * list string)).
  induction clients as [|c clients IH]; intros deps i; [reflexivity|].
  cbn [forEach_from].
  destruct (Map_get deps (get c "GroupTag")); cbn [bind]; apply IH.
Qed.

Lemma congruent_validateCircularCoRunGroups :
  congruent validateCircularCoRunGroups.
Proof.
  intros rs rs' _. now rewrite !validateCircularCoRunGroups_empty.
Qed.

Lemma congruent_validateConflictingRules :
  congruent validateConflictingRules.
Proof. intros rs rs' _. reflexivity. Qed.

Lemma congruent_validatePhaseSlotSaturation :
  congruent2 validatePhaseSlotSaturation.
Proof.
  intros ts ts' ws ws' Ht Hw. unfold validatePhaseSlotSaturation.
  match goal with
  | |- bind ?a ?k = bind ?b ?k' =>
      assert (Ha : a = b);
      [| rewrite Ha; destruct b as [phaseSlots|e]; cbn [bind]; [|reflexivity]]
  end.
  - apply (forEach_congr row_eqv); [|exact Hw].
    intros s x x' i Hx. reads Hx. reflexivity.
  - match goal with
    | |- bind ?a ?k = bind ?b ?k' =>
        assert (Ha' : a = b); [| now rewrite Ha']
    end.
    apply (forEach_congr row_eqv); [|exact Ht].
    intros s x x' i Hx. reads Hx. reflexivity.
Qed.

End Congruence.

(* ================================================================== *)
(** * [validateAllData] and the store *)
(* ================================================================== *)

Section Runs.

Ltac frames_steps :=
  repeat first
    [ apply frames_ret
    | apply frames_call
    | apply frames_call2
    | apply frames_validateAttributesJSON
    | apply frames_bind; [|intros ?]
    | match goal with
      | |- frames _ (if ?b then _ else _) => destruct b
      end ].

Ltac respects_steps :=
  repeat first
    [ apply respects_ret
    | apply respects_validateAttributesJSON
    | apply respects_call;
      first [ apply congruent_validateRequiredColumns
            | apply congruent_validateDuplicateIDs
            | apply congruent_validatePriorityLevel
            | apply congruent_validateAvailableSlots
            | apply congruent_validateDuration
            | apply congruent_validateWorkerOverload
            | apply congruent_validateCircularCoRunGroups
            | apply congruent_validateConflictingRules ]
    | apply respects_call2;
      first [ apply congruent_validateTaskReferences
            | apply congruent_validateSkillCoverage
            | apply congruent_validateMaxConcurrency
            | apply congruent_validatePhaseSlotSaturation ]
    | apply respects_bind; [|intros ?]
    | match goal with
      | |- respects (if ?b then _ else _) => destruct b
      end ].

Lemma frames_validateSheet (allErrors : list ValidationError)
  (sheetName : string) (data : list loc) :
  frames (if String.eqb (getBaseSheetName sheetName) "Clients"
          then data else [])
         (validateSheet allErrors sheetName data).
Proof.
  unfold validateSheet.
  destruct (String.eqb (getBaseSheetName sheetName) "Clients");
    frames_steps.
Qed.

Lemma frames_validateSheets (entries : workbook) :
  forall allErrors,
    frames (client_rows entries) (validateSheets entries allErrors).
Proof.
  induction entries as [|[sheetName data] entries IH]; intros allErrors.
  - apply frames_ret.
  - cbn [validateSheets]. apply frames_bind.
    + eapply frames_incl; [|apply frames_validateSheet].
      unfold client_rows. cbn [filter fst].
      destruct (String.eqb (getBaseSheetName sheetName) "Clients").
      * cbn [flat_map snd]. apply incl_appl, incl_refl.
      * intros l [].
    + intros a. eapply frames_incl; [|apply IH].
      unfold client_rows. cbn [filter fst].
      destruct (String.eqb (getBaseSheetName sheetName) "Clients").
      * cbn [flat_map snd]. apply incl_appr, incl_refl.
      * apply incl_refl.
Qed.

Lemma frames_validateCrossSheet (workSheets : workbook)
  (allErrors : list ValidationError) :
  frames [] (validateCrossSheet workSheets allErrors).
Proof. unfold validateCrossSheet. frames_steps. Qed.

Lemma frames_validateAllData (workSheets : workbook) :
  frames (client_rows workSheets) (validateAllData workSheets).
Proof.
  unfold validateAllData. apply frames_bind; [apply frames_validateSheets|].
  intros a. apply frames_bind; [|intros b; apply frames_ret].
  eapply frames_incl; [|apply frames_validateCrossSheet]. intros l [].
Qed.

Lemma respects_validateSheet (allErrors : list ValidationError)
  (sheetName : string) (data : list loc) :
  respects (validateSheet allErrors sheetName data).
Proof. unfold validateSheet. respects_steps. Qed.

Lemma respects_validateSheets (entries : workbook) :
  forall allErrors, respects (validateSheets entries allErrors).
Proof.
  induction entries as [|[sheetName data] entries IH]; intros allErrors.
  - apply respects_ret.
  - cbn [validateSheets]. apply respects_bind.
    + apply respects_validateSheet.
    + intros a. apply IH.
Qed.

Lemma respects_validateCrossSheet (workSheets : workbook)
  (allErrors : list ValidationError) :
  respects (validateCrossSheet workSheets allErrors).
Proof. unfold validateCrossSheet. respects_steps. Qed.

Lemma respects_validateAllData (workSheets : workbook) :
  respects (validateAllData workSheets).
Proof.
  unfold validateAllData. apply respects_bind.
  - apply respects_validateSheets.
  - intros a. apply respects_bind;
      [apply respects_validateCrossSheet | intros b; apply respects_ret].
Qed.

End Runs.

(** C8: a run of [validateAllData] leaves the store as it was but for
    AttributesJSON.  Every row keeps its keys and the value of every other
    field; a row that is not in a clients sheet is not written at all; and a
    row that did change held in AttributesJSON a non-empty text that does
    not parse as JSON, starts with neither a brace nor a bracket and holds
    no colon, and now holds the JSON text of the message object in that
    field, the rest being as before. *)
Theorem C8_only_attributes_json_is_written
  (workSheets : workbook) (h : heap) (l : loc) :
  let h' := snd (validateAllData workSheets h) in
  (forall k, k <> "AttributesJSON" -> get (h' l) k = get (h l) k)
  /\ keys (h' l) = keys (h l)
  /\ (~ In l (client_rows workSheets) -> h' l = h l)
  /\ (h' l = h l
      \/ exists s,
           get (h l) "AttributesJSON" = Str s
           /\ s <> EmptyString
           /\ throws (JSON_parse s) = true
           /\ looks_plain (trim s) = true
           /\ h' l = set (h l) "AttributesJSON"
                       (Str (message_json (trim s)))).
Proof.
  intros h'. destruct (frames_validateAllData workSheets h) as [Hf Hout].
  fold h' in Hf, Hout.
  assert (Heqv : row_eqv (h l) (h' l)).
  { destruct (Hf l) as [E|E]; rewrite E;
      [split; reflexivity | apply repair_row_eqv]. }
  split; [|split; [|split]].
  - intros k Hk. symmetry. now apply (proj2 Heqv).
  - symmetry. apply (proj1 Heqv).
  - apply Hout.
  - destruct (Hf l) as [E|E]; [now left|].
    unfold repair in E. destruct (needs_repair (h l)) as [t|] eqn:Hn;
      [|now left].
    destruct (needs_repair_inv (h l) t Hn)
      as [s [Hget [Hne [Hth [Hpl ->]]]]].
    right. exists s. auto.
Qed.

(** C7: a second run of [validateAllData], on the store the first run
    left, returns what the first run returned: the same errors in the same
    order and the same flag, or the same exception. *)
Theorem C7_second_run_returns_the_same (workSheets : workbook) (h : heap) :
  fst (validateAllData workSheets (snd (validateAllData workSheets h)))
  = fst (validateAllData workSheets h).
Proof.
  symmetry. apply respects_validateAllData.
  apply frames_validateAllData.
Qed.

(* ================================================================== *)
(** * Valid snapshots: every validator returns no error *)
(* ================================================================== *)

Section ValidRows.

Lemma push_all_nil {A : Type} (l : list A) : push_all l [] = l.
Proof. apply app_nil_r. Qed.


Lemma forEach_from_noop {A S : Type} (Q : A -> Prop)
  (f : S -> A -> Z -> result S) (l : list A) :
  (forall x, Q x -> forall s i, f s x i = Ok s) ->
  Forall Q l ->
  forall i s, forEach_from f l i s = Ok s.
Proof.
  intros Hf H. induction H as [|x l Hx _ IH]; intros i s; [reflexivity|].
  cbn [forEach_from]. rewrite (Hf x Hx). apply IH.
Qed.


Lemma Forall2_left {A B : Type} (R : A -> B -> Prop)
  (l : list A) (l' : list B) :
  Forall2 R l l' -> Forall (fun x => exists y, In y l' /\ R x y) l.
Proof.
  intros H. induction H as [|x y l l' Hxy _ IH]; constructor.
  - exists y. split; [now left | assumption].
  - eapply Forall_impl; [|exact IH].
    intros a [b [Hb Hab]]. exists b. split; [now right | assumption].
Qed.











End ValidRows.

Section ValidCrossSheet.







End ValidCrossSheet.

Section Yields.


Lemma yields_bind {A B : Type} (h : heap) (m : M A) (k : A -> M B)
  (a : A) (b : B) :
  yields h m a -> yields h (k a) b -> yields h (bindM m k) b.
Proof.
  intros Hm Hk h1 Hf. unfold bindM. destruct (Hm h1 Hf) as [He Hf'].
  destruct (m h1) as [[a'|e] h2]; cbn [fst snd] in *; [|discriminate].
  injection He as ->. now apply Hk.
Qed.

Lemma yields_call {A : Type} (h : heap) (f : list row -> result A)
  (data : list loc) (a : A) :
  congruent f -> f (map h data) = Ok a -> yields h (call f data) a.
Proof.
  intros Hc Hrun h1 Hf. unfold call. cbn [fst snd]. split; [|exact Hf].
  rewrite <- Hrun. symmetry. apply Hc. now apply heap_frame_row_eqv.
Qed.

Lemma yields_call2 {A : Type} (h : heap)
  (f : list row -> list row -> result A) (d1 d2 : list loc) (a : A) :
  congruent2 f -> f (map h d1) (map h d2) = Ok a ->
  yields h (call2 f d1 d2) a.
Proof.
  intros Hc Hrun h1 Hf. unfold call2. cbn [fst snd]. split; [|exact Hf].
  rewrite <- Hrun. symmetry. apply Hc; now apply heap_frame_row_eqv.
Qed.



End Yields.

Section ValidSnapshot.

Ltac congruence_of_validator :=
  first [ apply congruent_validateRequiredColumns
        | apply congruent_validateDuplicateIDs
        | apply congruent_validatePriorityLevel
        | apply congruent_validateAvailableSlots
        | apply congruent_validateDuration
        | apply congruent_validateWorkerOverload
        | apply congruent_validateCircularCoRunGroups
        | apply congruent_validateConflictingRules
        | apply congruent_validateTaskReferences
        | apply congruent_validateSkillCoverage
        | apply congruent_validateMaxConcurrency
        | apply congruent_validatePhaseSlotSaturation ].

(** run a reading validator that is known to return no error *)
Ltac no_error H :=
  eapply yields_bind;
  [ first [ apply yields_call | apply yields_call2 ];
    [ congruence_of_validator | exact H ]
  | cbv beta zeta; try (cbn [retag map]); rewrite ?push_all_nil ].







End ValidSnapshot.


Section SampleSnapshot.





End SampleSnapshot.



(* ================================================================== *)
(** * Strings and printed numbers *)
(* ================================================================== *)

Section PrintedNumbers.

Lemma read_digits_print (d : Decimal.uint) :
  forall (rest : string) (acc : Z) (cnt : nat),
  stops rest = true ->
  read_digits (NilEmpty.string_of_uint d ++ rest) acc cnt
  = (uint_val d acc, (cnt + Decimal.nb_digits d)%nat, rest).
Proof.
  induction d; intros rest acc cnt Hrest;
    cbn [NilEmpty.string_of_uint String.append read_digits uint_val
         Decimal.nb_digits];
    try (match goal with
         | |- context [is_digit ?c] => change (is_digit c) with true
         end;
         cbv iota; rewrite IHd by assumption;
         rewrite Nat.add_succ_r; reflexivity).
  rewrite Nat.add_0_r. destruct rest as [|c r]; [reflexivity|].
  cbn [stops] in Hrest. cbn [read_digits].
  apply negb_true_iff in Hrest. now rewrite Hrest.
Qed.

Lemma uint_val_acc (d : Decimal.uint) :
  forall p : positive, Z.pos (Pos.of_uint_acc d p) = uint_val d (Z.pos p).
Proof.
  induction d; intros p; cbn [Pos.of_uint_acc uint_val];
    [reflexivity | rewrite IHd; f_equal; lia ..].
Qed.

Lemma uint_val_of_uint (d : Decimal.uint) :
  Z.of_N (Pos.of_uint d) = uint_val d 0.
Proof.
  induction d; cbn [Pos.of_uint uint_val]; try reflexivity;
    try (cbn [Z.of_N]; rewrite uint_val_acc; reflexivity).
  exact IHd.
Qed.

Lemma uint_val_to_uint (p : positive) : uint_val (Pos.to_uint p) 0 = Z.pos p.
Proof.
  rewrite <- uint_val_of_uint, DecimalPos.Unsigned.of_to. reflexivity.
Qed.

End PrintedNumbers.

Section Trimming.

Lemma trimEnd_cons (c : ascii) (s : string) :
  is_space c = false -> exists t, trimEnd (String c s) = String c t.
Proof.
  intros Hc. cbn [trimEnd]. destruct (trimEnd s) as [|d t].
  - rewrite Hc. now exists EmptyString.
  - now exists (String d t).
Qed.

Lemma trimEnd_idempotent (s : string) : trimEnd (trimEnd s) = trimEnd s.
Proof.
  induction s as [|c s IH]; [reflexivity|].
  cbn [trimEnd]. destruct (trimEnd s) as [|d t] eqn:E.
  - destruct (is_space c) eqn:Hc; [reflexivity|].
    cbn [trimEnd]. now rewrite Hc.
  - cbn [trimEnd]. cbn [trimEnd] in IH.
    destruct (trimEnd t) as [|e u] eqn:E'.
    + destruct (is_space d); [discriminate IH | now rewrite IH].
    + now rewrite IH.
Qed.

Lemma trimStart_head (s : string) :
  match trimStart s with
  | String c _ => is_space c = false
  | EmptyString => True
  end.
Proof.
  induction s as [|c s IH]; [exact I|].
  cbn [trimStart]. destruct (is_space c) eqn:Hc; [exact IH | exact Hc].
Qed.

Lemma trim_idempotent (s : string) : trim (trim s) = trim s.
Proof.
  unfold trim. pose proof (trimStart_head s) as H.
  destruct (trimStart s) as [|c t]; [reflexivity|].
  destruct (trimEnd_cons c t H) as [u Hu]. rewrite Hu.
  cbn [trimStart]. rewrite H, <- Hu. apply trimEnd_idempotent.
Qed.

Lemma trimEnd_no_space (s : string) :
  all_chars (fun c => negb (is_space c)) s = true -> trimEnd s = s.
Proof.
  induction s as [|c s IH]; [reflexivity|].
  cbn [all_chars]. intros H. apply andb_true_iff in H as [Hc Hs].
  apply negb_true_iff in Hc. cbn [trimEnd]. rewrite (IH Hs).
  destruct s; [now rewrite Hc | reflexivity].
Qed.

Lemma trim_no_space (s : string) :
  all_chars (fun c => negb (is_space c)) s = true -> trim s = s.
Proof.
  intros H. unfold trim.
  assert (Hs : trimStart s = s).
  { destruct s as [|c s]; [reflexivity|]. cbn [all_chars] in H.
    apply andb_true_iff in H as [Hc _]. apply negb_true_iff in Hc.
    cbn [trimStart]. now rewrite Hc. }
  rewrite Hs. now apply trimEnd_no_space.
Qed.

Lemma all_chars_impl (p q : ascii -> bool) (s : string) :
  (forall c, p c = true -> q c = true) ->
  all_chars p s = true -> all_chars q s = true.
Proof.
  intros Hpq. induction s as [|c s IH]; [reflexivity|].
  cbn [all_chars]. intros H. apply andb_true_iff in H as [Hc Hs].
  now rewrite (Hpq c Hc), (IH Hs).
Qed.

Lemma all_chars_app (p : ascii -> bool) (s t : string) :
  all_chars p (s ++ t) = all_chars p s && all_chars p t.
Proof.
  induction s as [|c s IH]; [reflexivity|].
  cbn [String.append all_chars]. now rewrite IH, andb_assoc.
Qed.

Lemma digit_no_space (c : ascii) : is_digit c = true -> is_space c = false.
Proof.
  unfold is_digit, is_space. intros H.
  apply andb_true_iff in H as [H1 H2].
  apply Z.leb_le in H1. apply Z.leb_le in H2.
  destruct (Z.leb_spec 9 (code c)), (Z.leb_spec (code c) 13),
    (Z.eqb_spec (code c) 32), (Z.eqb_spec (code c) 160); try lia;
    reflexivity.
Qed.

End Trimming.

Section PrintedIntegers.

Lemma print_uint_digits (d : Decimal.uint) :
  all_chars is_digit (NilEmpty.string_of_uint d) = true.
Proof. induction d; cbn [NilEmpty.string_of_uint all_chars]; auto. Qed.

(** a printed positive number starts with a digit from 1 to 9 *)
Lemma print_pos_head (p : positive) :
  exists c t, NilEmpty.string_of_uint (Pos.to_uint p) = String c t
              /\ is_digit c = true /\ Ascii.eqb c "0" = false.
Proof.
  pose proof (DecimalPos.Unsigned.to_uint_nonzero p) as Hnz.
  assert (Hn : Decimal.unorm (Pos.to_uint p) = Pos.to_uint p).
  { rewrite <- DecimalPos.Unsigned.to_of, DecimalPos.Unsigned.of_to.
    reflexivity. }
  destruct (Pos.to_uint p) as [|l|l|l|l|l|l|l|l|l|l] eqn:E;
    try (do 2 eexists; repeat split; reflexivity).
  - now destruct (DecimalPos.Unsigned.to_uint_nonnil p).
  - exfalso. rewrite DecimalFacts.unorm_D0 in Hn.
    destruct l as [|k|k|k|k|k|k|k|k|k|k] eqn:El;
      try (match type of Hn with
           | Decimal.unorm ?u = _ =>
               pose proof (DecimalFacts.nb_digits_unorm u) as Hle
           end;
           rewrite Hn in Hle;
           cbn [Decimal.nb_digits] in Hle;
           specialize (Hle ltac:(discriminate)); lia).
    now apply Hnz.
Qed.

End PrintedIntegers.

Section NumberRoundTrip.

Lemma string_app_nil (s : string) : s ++ EmptyString = s.
Proof. induction s as [|c s IH]; [reflexivity|]. cbn. now rewrite IH. Qed.

Lemma string_length_app (s t : string) :
  String.length (s ++ t) = (String.length s + String.length t)%nat.
Proof. induction s as [|c s IH]; [reflexivity|]. cbn. now rewrite IH. Qed.

(** digits alone read as their value *)
Lemma read_unsigned_decimal_print (d : Decimal.uint) :
  d <> Decimal.Nil ->
  read_unsigned_decimal (NilEmpty.string_of_uint d) = Fin (uint_val d 0).
Proof.
  intros Hd. unfold read_unsigned_decimal.
  rewrite <- (string_app_nil (NilEmpty.string_of_uint d)).
  rewrite read_digits_print by reflexivity.
  destruct (Decimal.nb_digits d) as [|n] eqn:En.
  - destruct d; cbn in En; [now destruct Hd | discriminate ..].
  - cbn [Nat.add Nat.eqb andb read_exponent]. unfold scale.
    cbn [Z.of_nat Z.sub Z.opp Z.add Z.leb Z.compare Z.pow Z.pow_pos].
    f_equal. apply Z.mul_1_r.
Qed.

Lemma NumberToString_pos (p : positive) :
  NumberToString (Fin (Z.pos p)) = NilEmpty.string_of_uint (Pos.to_uint p).
Proof.
  unfold NumberToString, NilZero.string_of_int, NilZero.string_of_uint.
  cbn [Z.to_int].
  destruct (Pos.to_uint p) eqn:E; try reflexivity.
  now destruct (DecimalPos.Unsigned.to_uint_nonnil p).
Qed.

Lemma NumberToString_neg (p : positive) :
  NumberToString (Fin (Z.neg p))
  = String "-" (NilEmpty.string_of_uint (Pos.to_uint p)).
Proof.
  unfold NumberToString, NilZero.string_of_int, NilZero.string_of_uint.
  cbn [Z.to_int].
  destruct (Pos.to_uint p) eqn:E; try reflexivity.
  now destruct (DecimalPos.Unsigned.to_uint_nonnil p).
Qed.

(** the printed form of a number that is not negative: digits, and no
    leading zero unless the number is 0 *)
Lemma NumberToString_nonneg (z : Z) :
  0 <= z ->
  all_chars is_digit (NumberToString (Fin z)) = true
  /\ exists c t, NumberToString (Fin z) = String c t
                 /\ is_digit c = true
                 /\ (Ascii.eqb c "0" = true -> t = EmptyString /\ z = 0).
Proof.
  intros Hz. destruct z as [|p|p]; [| |lia].
  - split; [reflexivity|]. exists "0"%char, EmptyString. auto.
  - rewrite NumberToString_pos. split; [apply print_uint_digits|].
    destruct (print_pos_head p) as [c [t [E [Hd Hz0]]]].
    exists c, t. rewrite E. repeat split; try assumption;
      rewrite Hz0 in *; discriminate.
Qed.

(** [Number(String(z)) = z] *)
Lemma StringToNumber_NumberToString (z : Z) :
  StringToNumber (NumberToString (Fin z)) = Fin z.
Proof.
  assert (Hpos : forall p,
    StringToNumber (NilEmpty.string_of_uint (Pos.to_uint p))
    = Fin (Z.pos p)).
  { intros p. unfold StringToNumber.
    rewrite trim_no_space
      by (apply (all_chars_impl is_digit);
          [intros c Hc; now rewrite digit_no_space | apply print_uint_digits]).
    pose proof (print_uint_digits (Pos.to_uint p)) as Hall.
    pose proof (read_unsigned_decimal_print (Pos.to_uint p)
                  (DecimalPos.Unsigned.to_uint_nonnil p)) as Hread.
    rewrite uint_val_to_uint in Hread.
    destruct (print_pos_head p) as [c [t [E [Hd Hz0]]]].
    rewrite E in *. destruct t as [|x digits]; [exact Hread|].
    rewrite Hz0. cbn [andb].
    destruct (Ascii.eqb_spec c "-") as [->|_]; [discriminate Hd|].
    destruct (Ascii.eqb_spec c "+") as [->|_]; [discriminate Hd|].
    exact Hread. }
  destruct z as [|p|p]; [reflexivity | |].
  - rewrite NumberToString_pos. apply Hpos.
  - rewrite NumberToString_neg. unfold StringToNumber.
    pose proof (print_uint_digits (Pos.to_uint p)) as Hall.
    rewrite trim_no_space.
    2:{ cbn [all_chars]. apply andb_true_iff. split; [reflexivity|].
        apply (all_chars_impl is_digit); [|exact Hall].
        intros c Hc. now rewrite digit_no_space. }
    pose proof (read_unsigned_decimal_print (Pos.to_uint p)
                  (DecimalPos.Unsigned.to_uint_nonnil p)) as Hread.
    rewrite uint_val_to_uint in Hread.
    destruct (print_pos_head p) as [c [t [E [Hd Hz0]]]].
    rewrite E in *.
    change (Ascii.eqb "-" "0") with false. cbn [andb].
    change (Ascii.eqb "-" "-") with true. cbv iota.
    rewrite Hread. reflexivity.
Qed.

End NumberRoundTrip.

Section Splitting.

Variable sep : ascii.

Lemma split_single (s : string) :
  includes s sep = false -> split sep s = [s].
Proof.
  induction s as [|c s IH]; [reflexivity|].
  cbn [includes split]. intros H. apply orb_false_iff in H as [Hc Hs].
  now rewrite Hc, (IH Hs).
Qed.

Lemma split_app (s t : string) :
  includes s sep = false ->
  split sep (s ++ String sep t) = s :: split sep t.
Proof.
  induction s as [|c s IH]; cbn [String.append includes split].
  - intros _. now rewrite Ascii.eqb_refl.
  - intros H. apply orb_false_iff in H as [Hc Hs].
    now rewrite Hc, (IH Hs).
Qed.

Lemma split_no_sep (s : string) :
  Forall (fun t => includes t sep = false) (split sep s).
Proof.
  induction s as [|c s IH]; [repeat constructor|].
  cbn [split]. destruct (Ascii.eqb c sep) eqn:Hc.
  - constructor; [reflexivity | exact IH].
  - destruct (split sep s) as [|x r]; [repeat constructor; cbn;
                                        now rewrite Hc|].
    inversion IH; subst. constructor; [|assumption].
    cbn [includes]. now rewrite Hc.
Qed.

Lemma split_join (l : list string) :
  l <> [] ->
  Forall (fun t => includes t sep = false) l ->
  split sep (join (String sep EmptyString) l) = l.
Proof.
  intros Hne H. induction H as [|x l Hx Hl IH]; [now destruct Hne|].
  destruct l as [|y l'].
  - cbn [join]. now apply split_single.
  - change (join (String sep EmptyString) (x :: y :: l'))
      with (x ++ String sep (join (String sep EmptyString) (y :: l'))).
    rewrite (split_app _ _ Hx). f_equal. apply IH. discriminate.
Qed.

Lemma includes_trimStart (s : string) :
  includes s sep = false -> includes (trimStart s) sep = false.
Proof.
  induction s as [|c s IH]; [reflexivity|].
  cbn [includes trimStart]. intros H.
  destruct (is_space c); [|exact H].
  apply orb_false_iff in H as [_ Hs]. now apply IH.
Qed.

Lemma includes_trimEnd (s : string) :
  includes s sep = false -> includes (trimEnd s) sep = false.
Proof.
  induction s as [|c s IH]; [reflexivity|].
  cbn [includes trimEnd]. intros H.
  apply orb_false_iff in H as [Hc Hs]. specialize (IH Hs).
  destruct (trimEnd s) as [|d t].
  - destruct (is_space c); [reflexivity|]. cbn [includes].
    now rewrite Hc.
  - cbn [includes] in *. now rewrite Hc, IH.
Qed.

Lemma includes_trim (s : string) :
  includes s sep = false -> includes (trim s) sep = false.
Proof.
  intros H. unfold trim. now apply includes_trimEnd, includes_trimStart.
Qed.

End Splitting.

Section RangeTexts.

Lemma trimStart_spaces (sp s : string) :
  all_chars is_space sp = true -> trimStart (sp ++ s) = trimStart s.
Proof.
  induction sp as [|c sp IH]; [reflexivity|].
  cbn [all_chars String.append trimStart]. intros H.
  apply andb_true_iff in H as [Hc Hs]. rewrite Hc. now apply IH.
Qed.

Lemma trimEnd_all_spaces (sp : string) :
  all_chars is_space sp = true -> trimEnd sp = EmptyString.
Proof.
  induction sp as [|c sp IH]; [reflexivity|].
  cbn [all_chars trimEnd]. intros H.
  apply andb_true_iff in H as [Hc Hs]. now rewrite (IH Hs), Hc.
Qed.

Lemma trimEnd_spaces (s sp : string) :
  all_chars is_space sp = true -> trimEnd (s ++ sp) = trimEnd s.
Proof.
  intros Hsp. induction s as [|c s IH].
  - cbn [String.append]. now apply trimEnd_all_spaces.
  - cbn [String.append trimEnd]. now rewrite IH.
Qed.

Lemma includes_all_chars (p : ascii -> bool) (c : ascii) (s : string) :
  p c = false -> all_chars p s = true -> includes s c = false.
Proof.
  intros Hc. induction s as [|d s IH]; [reflexivity|].
  cbn [all_chars includes]. intros H.
  apply andb_true_iff in H as [Hd Hs]. rewrite (IH Hs), orb_false_r.
  destruct (Ascii.eqb_spec d c) as [->|_]; [|reflexivity].
  now rewrite Hc in Hd.
Qed.

Lemma includes_app (s t : string) (c : ascii) :
  includes (s ++ t) c = includes s c || includes t c.
Proof.
  induction s as [|d s IH]; [reflexivity|].
  cbn [String.append includes]. now rewrite IH, orb_assoc.
Qed.

(** the printed form of a number that is not negative, with white space
    before and after, reads as the number *)
Lemma StringToNumber_padded (z : Z) (before after : string) :
  0 <= z ->
  all_chars is_space before = true -> all_chars is_space after = true ->
  StringToNumber (before ++ NumberToString (Fin z) ++ after) = Fin z.
Proof.
  intros Hz Hb Ha. rewrite <- (StringToNumber_NumberToString z) at 2.
  destruct (NumberToString_nonneg z Hz) as [Hall [c [t [E [Hd _]]]]].
  assert (Htrim : trim (before ++ NumberToString (Fin z) ++ after)
                  = NumberToString (Fin z)).
  { unfold trim. rewrite (trimStart_spaces _ _ Hb).
    assert (Hs : trimStart (NumberToString (Fin z) ++ after)
                 = NumberToString (Fin z) ++ after).
    { rewrite E. cbn [String.append trimStart].
      now rewrite (digit_no_space c Hd). }
    rewrite Hs, (trimEnd_spaces _ _ Ha). apply trimEnd_no_space.
    apply (all_chars_impl is_digit); [|exact Hall].
    intros d Hd'. now rewrite (digit_no_space d Hd'). }
  assert (Htrim' : trim (NumberToString (Fin z)) = NumberToString (Fin z)).
  { apply trim_no_space. apply (all_chars_impl is_digit); [|exact Hall].
    intros d Hd'. now rewrite (digit_no_space d Hd'). }
  unfold StringToNumber. now rewrite Htrim, Htrim'.
Qed.

End RangeTexts.

(* ================================================================== *)
(** * The cross-sheet checks, row by row *)
(* ================================================================== *)

Section RowLoops.

(** a loop whose callback appends what it reports on its row *)
Lemma forEach_from_reports {A V E : Type} (R : A -> V -> Prop)
  (f : list E -> A -> Z -> result (list E)) (report : Z -> V -> list E)
  (l : list A) (vs : list V) :
  (forall errors x v i, R x v -> f errors x i = Ok (push_all errors (report i v))) ->
  Forall2 R l vs ->
  forall index acc,
    forEach_from f l index acc
    = Ok (push_all acc
            (flat_map (fun p => report (fst p) (snd p)) (indexed vs index))).
Proof.
  intros Hf H. induction H as [|x v l vs Hxv _ IH]; intros index acc.
  - cbn. unfold push_all. now rewrite app_nil_r.
  - cbn [forEach_from indexed flat_map fst snd].
    rewrite (Hf acc x v index Hxv). cbn [bind]. rewrite IH.
    unfold push_all. now rewrite app_assoc.
Qed.

Lemma forEach_reports {A V E : Type} (R : A -> V -> Prop)
  (f : list E -> A -> Z -> result (list E)) (report : Z -> V -> list E)
  (l : list A) (vs : list V) :
  (forall errors x v i, R x v -> f errors x i = Ok (push_all errors (report i v))) ->
  Forall2 R l vs ->
  forEach f l [] = Ok (per_row report vs).
Proof.
  intros Hf H. unfold forEach.
  now rewrite (forEach_from_reports R f report l vs Hf H).
Qed.

Lemma In_indexed {A : Type} (l : list A) :
  forall (index i : Z) (x : A),
  In (i, x) (indexed l index)
  <-> index <= i /\ nth_error l (Z.to_nat (i - index)) = Some x.
Proof.
  induction l as [|y l IH]; intros index i x; cbn [indexed In].
  - split; [tauto|]. intros [_ H]. now destruct (Z.to_nat (i - index)).
  - rewrite IH. split.
    + intros [[= <- <-]|[Hle Hn]].
      * split; [lia|]. now rewrite Z.sub_diag.
      * split; [lia|].
        replace (Z.to_nat (i - index)) with (S (Z.to_nat (i - (index + 1))))
          by lia. exact Hn.
    + intros [Hle Hn]. destruct (Z.eq_dec i index) as [->|Hne].
      * left. rewrite Z.sub_diag in Hn. cbn in Hn. now injection Hn as ->.
      * right. split; [lia|].
        replace (Z.to_nat (i - index)) with (S (Z.to_nat (i - (index + 1))))
          in Hn by lia. exact Hn.
Qed.

Lemma In_per_row {A E : Type} (report : Z -> A -> list E) (l : list A)
  (e : E) :
  In e (per_row report l)
  <-> exists i x, 0 <= i /\ nth_error l (Z.to_nat i) = Some x
                  /\ In e (report i x).
Proof.
  unfold per_row. rewrite in_flat_map. split.
  - intros [[i x] [Hin He]]. apply In_indexed in Hin as [Hle Hn].
    rewrite Z.sub_0_r in Hn. now exists i, x.
  - intros [i [x [Hle [Hn He]]]]. exists (i, x). split; [|exact He].
    apply In_indexed. now rewrite Z.sub_0_r.
Qed.

End RowLoops.

Section TaskReferences.

Lemma SameValueZero_Str (v : any) (s : string) :
  SameValueZero v (Str s) = true <-> v = Str s.
Proof.
  destruct v; cbn [SameValueZero]; try (split; [discriminate|discriminate]).
  rewrite String.eqb_eq. split; [now intros -> | now intros [= ->]].
Qed.

Lemma unknown_task_spec (tasks : list row) (taskId : string) :
  unknown_task tasks taskId = true
  <-> forall t, In t tasks -> get t "TaskID" <> Str taskId.
Proof.
  unfold unknown_task. rewrite negb_true_iff. split.
  - intros H t Ht E. apply SameValueZero_Str in E.
    assert (Hex : existsb (fun t => SameValueZero (get t "TaskID")
                                      (Str taskId)) tasks = true)
      by (apply existsb_exists; now exists t).
    now rewrite H in Hex.
  - intros H. destruct (existsb _ tasks) eqn:E; [|reflexivity].
    apply existsb_exists in E as [t [Ht E]].
    apply SameValueZero_Str in E. now destruct (H t Ht).
Qed.

Lemma Set_has_task_ids (tasks : list row) (taskId : string) :
  negb (Set_has (map (fun t => get t "TaskID") tasks) (Str taskId))
  = unknown_task tasks taskId.
Proof.
  unfold unknown_task, Set_has. f_equal.
  induction tasks as [|t tasks IH]; [reflexivity|].
  cbn [map existsb]. now rewrite IH.
Qed.

(** X1: when the RequestedTaskIDs of the clients read as lists of
    identifiers, [validateTaskReferences] returns, client by client and in
    the order of the requests, one error for each requested identifier that
    is the TaskID text of no task row, and nothing else: an identifier is
    reported for the client [i] exactly when the client requests it and no
    task row has it.  A TaskID cell that holds a number and not a text
    matches no request, so every request is then reported. *)
Theorem X1_task_references_report_unknown_requests
  (clients tasks : list row) (requests : list (list string)) :
  Forall2 (reads_list "RequestedTaskIDs") clients requests ->
  validateTaskReferences clients tasks = Ok (reference_errors tasks requests)
  /\ (forall i taskId,
        In (reference_error i taskId) (reference_errors tasks requests)
        <-> exists req,
              0 <= i /\ nth_error requests (Z.to_nat i) = Some req
              /\ In taskId req
              /\ forall t, In t tasks -> get t "TaskID" <> Str taskId)
  /\ (Forall (fun t => forall s, get t "TaskID" <> Str s) tasks ->
      reference_errors tasks requests
      = per_row (fun i req => map (reference_error i) req) requests).
Proof.
  intros Hreq. split; [|split].
  - unfold validateTaskReferences, reference_errors.
    apply (forEach_reports (reads_list "RequestedTaskIDs")); [|exact Hreq].
    intros errors x req i Hx. unfold reads_list in Hx. rewrite Hx.
    cbn [bind]. do 3 f_equal. apply filter_ext. intros taskId.
    apply Set_has_task_ids.
  - intros i taskId. unfold reference_errors. rewrite In_per_row. split.
    + intros [j [req [Hj [Hn Hin]]]]. apply in_map_iff in Hin
        as [id [E Hid]]. apply filter_In in Hid as [Hid Hunk].
      assert (Hi : j = i) by (now injection E).
      assert (Ht : id = taskId) by (now injection E). subst j id.
      exists req. repeat split; try assumption.
      now apply unknown_task_spec.
    + intros [req [Hi [Hn [Hin Hunk]]]]. exists i, req.
      repeat split; try assumption. apply in_map, filter_In.
      split; [assumption | now apply unknown_task_spec].
  - intros Hnum. unfold reference_errors, per_row. apply flat_map_ext.
    intros [i req]. cbn [fst snd]. f_equal.
    apply forallb_filter_id, forallb_forall. intros taskId _.
    apply unknown_task_spec. intros t Ht.
    rewrite Forall_forall in Hnum. apply (Hnum t Ht).
Qed.

Lemma X1_task_references_report_unknown_requests_witness :
  validateTaskReferences
    [ [("ClientID", Str "C1"); ("RequestedTaskIDs", Str "T1, 7 ,T9")];
      [("ClientID", Str "C2"); ("RequestedTaskIDs", Str "T1,,")] ]
    [ [("TaskID", Str "T1")]; [("TaskID", Number (Fin 7))] ]
  = Ok [reference_error 0 "7"; reference_error 0 "T9"].
Proof.
  apply (X1_task_references_report_unknown_requests
           [ [("ClientID", Str "C1"); ("RequestedTaskIDs", Str "T1, 7 ,T9")];
             [("ClientID", Str "C2"); ("RequestedTaskIDs", Str "T1,,")] ]
           [ [("TaskID", Str "T1")]; [("TaskID", Number (Fin 7))] ]
           [ ["T1"; "7"; "T9"]; ["T1"] ]).
  repeat constructor.
Defined.

End TaskReferences.

Section WorkerOverload.




End WorkerOverload.

Section SkillCoverage.

Lemma per_row_concat {A : Type} (l : list (list A)) :
  per_row (fun _ x => x) l = List.concat l.
Proof.
  unfold per_row. generalize 0 as index.
  induction l as [|x l IH]; intros index; [reflexivity|].
  cbn [indexed flat_map List.concat snd]. now rewrite IH.
Qed.

Lemma worker_skills_loop (workers : list row)
  (workerSkills : list (list string)) :
  Forall2 (reads_list "Skills") workers workerSkills ->
  forEach (fun (acc : list string) worker (_ : Z) =>
             skills <- parseCSVList (get worker "Skills") ;;
             Ok (push_all acc skills)) workers []
  = Ok (List.concat workerSkills).
Proof.
  intros H. rewrite <- per_row_concat.
  apply (forEach_reports (reads_list "Skills")); [|exact H].
  intros acc x v _ Hx. unfold reads_list in Hx. now rewrite Hx.
Qed.

Lemma In_concat_skills (workerSkills : list (list string)) (skill : string) :
  includes_string (List.concat workerSkills) skill = false
  <-> forall s, In s workerSkills -> ~ In skill s.
Proof.
  rewrite <- not_true_iff_false. unfold includes_string.
  rewrite existsb_exists. split.
  - intros H s Hs Hin. apply H. exists skill. split; [|apply String.eqb_refl].
    apply in_concat. now exists s.
  - intros H [x [Hx E]]. apply String.eqb_eq in E. subst x.
    apply in_concat in Hx as [s [Hs Hin]]. now apply (H s Hs).
Qed.

(** X3: when the Skills of the workers and the RequiredSkills of the tasks
    read as lists, [validateSkillCoverage] returns, task by task, one error
    for each required skill that no worker lists, in the order the task
    lists them: a skill is reported for the task [i] exactly when the task
    requires it and it is among the skills of no worker. *)
Theorem X3_skill_coverage_reports_skills_no_worker_has
  (workers tasks : list row) (workerSkills required : list (list string)) :
  Forall2 (reads_list "Skills") workers workerSkills ->
  Forall2 (reads_list "RequiredSkills") tasks required ->
  validateSkillCoverage workers tasks
  = Ok (skill_errors workerSkills required)
  /\ (forall i skill,
        In (skill_error i skill) (skill_errors workerSkills required)
        <-> exists req,
              0 <= i /\ nth_error required (Z.to_nat i) = Some req
              /\ In skill req
              /\ forall s, In s workerSkills -> ~ In skill s).
Proof.
  intros Hw Ht. split.
  - unfold validateSkillCoverage. rewrite (worker_skills_loop _ _ Hw).
    cbn [bind]. unfold skill_errors.
    apply (forEach_reports (reads_list "RequiredSkills")); [|exact Ht].
    intros errors x req i Hx. unfold reads_list in Hx. now rewrite Hx.
  - intros i skill. unfold skill_errors. rewrite In_per_row. split.
    + intros [j [req [Hj [Hn Hin]]]]. apply in_map_iff in Hin
        as [s [E Hs]]. apply filter_In in Hs as [Hs Hmiss].
      assert (Hi : j = i) by (now injection E).
      assert (Hk : s = skill) by (now injection E). subst j s.
      exists req. repeat split; try assumption.
      apply In_concat_skills. now apply negb_true_iff.
    + intros [req [Hi [Hn [Hin Hmiss]]]]. exists i, req.
      repeat split; try assumption. apply in_map, filter_In.
      split; [assumption|]. apply negb_true_iff.
      now apply In_concat_skills.
Qed.

Lemma X3_skill_coverage_reports_skills_no_worker_has_witness :
  validateSkillCoverage
    [ [("WorkerID", Str "W1"); ("Skills", Str "java, sql")];
      [("WorkerID", Str "W2"); ("Skills", Str "go")] ]
    [ [("TaskID", Str "T1"); ("RequiredSkills", Str "sql,rust")];
      [("TaskID", Str "T2"); ("RequiredSkills", Str "Java")] ]
  = Ok [skill_error 0 "rust"; skill_error 1 "Java"].
Proof.
  apply (X3_skill_coverage_reports_skills_no_worker_has
           [ [("WorkerID", Str "W1"); ("Skills", Str "java, sql")];
             [("WorkerID", Str "W2"); ("Skills", Str "go")] ]
           [ [("TaskID", Str "T1"); ("RequiredSkills", Str "sql,rust")];
             [("TaskID", Str "T2"); ("RequiredSkills", Str "Java")] ]
           [ ["java"; "sql"]; ["go"] ] [ ["sql"; "rust"]; ["Java"] ]);
    repeat constructor.
Defined.

End SkillCoverage.

Section MaxConcurrency.




End MaxConcurrency.

Section AvailableSlots.

Lemma Array_from_length_finite (len start : num) (l : list any) :
  Array_from_length len start = Ok l ->
  len = NaN \/ (exists a, start = Fin a) ->
  exists zs, l = map (fun z => Number (Fin z)) zs.
Proof.
  unfold Array_from_length. destruct len as [|n].
  - intros [= <-] _. now exists [].
  - destruct (n <=? 0); [intros [= <-] _; now exists []|].
    destruct (4294967295 <? n); [discriminate|].
    intros [= <-] [Hnan|[a ->]]; [discriminate|].
    exists (map (fun i => a + Z.of_nat i) (seq 0 (Z.to_nat n))).
    rewrite map_map. reflexivity.
Qed.

(** a text with a dash reads as a list of numbers, whatever it holds *)
Lemma parseNumberArray_dash (s : string) :
  includes s "-" = true ->
  exists zs, parseNumberArray (Str s) = numbers zs.
Proof.
  intros Hd. unfold parseNumberArray. rewrite Hd.
  set (parts := map StringToNumber (split "-" s)).
  destruct (Array_from_length
              (num_add (num_sub (nth 1 parts NaN) (nth 0 parts NaN)) (Fin 1))
              (nth 0 parts NaN)) as [l|e] eqn:E; cbn [bind catch].
  - apply Array_from_length_finite in E as [zs ->]; [now exists zs|].
    destruct (nth 0 parts NaN) as [|a]; [|right; now exists a].
    left. now destruct (nth 1 parts NaN).
  - now exists [].
Qed.

Lemma some_isNaN_finite (zs : list Z) :
  some global_isNaN (map (fun z => Number (Fin z)) zs) = Ok false.
Proof. induction zs as [|z zs IH]; [reflexivity | exact IH]. Qed.

(** X5: in a workers sheet, an AvailableSlots text that holds a dash is
    never reported by [validateAvailableSlots], whatever else it holds: the
    text reads as a range, and a range is a list of numbers, empty when its
    ends are no numbers. *)
Theorem X5_available_slots_with_a_dash_pass
  (sheetName : string) (data : list row) :
  getBaseSheetName sheetName = "Workers" ->
  Forall (fun r => exists s, get r "AvailableSlots" = Str s
                             /\ includes s "-" = true) data ->
  validateAvailableSlots data sheetName = Ok []
  /\ Forall (fun r => exists zs,
               parseNumberArray (get r "AvailableSlots") = numbers zs) data.
Proof.
  intros Hbase Hdata. split.
  - unfold validateAvailableSlots, forEach. rewrite Hbase.
    change (String.eqb "Workers" "Workers") with true. cbn [negb].
    eapply forEach_from_noop; [|exact Hdata]. cbv beta.
    intros r [s [Hs Hd]] errors i. rewrite Hs.
    destruct (parseNumberArray_dash s Hd) as [zs ->].
    unfold numbers. cbn [as_array bind]. now rewrite some_isNaN_finite.
  - eapply Forall_impl; [|exact Hdata]. cbv beta.
    intros r [s [Hs Hd]]. rewrite Hs. now apply parseNumberArray_dash.
Qed.

Lemma X5_available_slots_with_a_dash_pass_witness :
  validateAvailableSlots
    [ [("WorkerID", Str "W1"); ("AvailableSlots", Str "Mon-Fri")];
      [("WorkerID", Str "W2"); ("AvailableSlots", Str "[1,-x]")] ]
    "Workers 1" = Ok []
  /\ parseNumberArray (Str "Mon-Fri") = numbers [].
Proof.
  split.
  - apply (X5_available_slots_with_a_dash_pass "Workers 1"
             [ [("WorkerID", Str "W1"); ("AvailableSlots", Str "Mon-Fri")];
               [("WorkerID", Str "W2"); ("AvailableSlots", Str "[1,-x]")] ]);
      [reflexivity|].
    repeat constructor; eexists; split; reflexivity.
  - reflexivity.
Defined.

(** induction on a value through the elements of its arrays *)
Lemma any_nested_ind (P : any -> Prop) :
  P Undefined -> P Null -> (forall b, P (Boolean b)) ->
  (forall n, P (Number n)) -> (forall s, P (Str s)) ->
  (forall l, Forall P l -> P (Arr l)) -> (forall o, P (Obj o)) ->
  forall v, P v.
Proof.
  intros HU HN HB HNum HS HA HO. fix IH 1. intros v.
  destruct v as [| |b|n|s|l|o];
    [exact HU | exact HN | apply HB | apply HNum | apply HS | | apply HO].
  apply HA. induction l as [|x l IHl]; constructor; [apply IH | exact IHl].
Qed.

Lemma ToString_throws (v : any) :
  forall e, ToString v = Throw e -> e = TypeError.
Proof.
  induction v as [| |b|n|s|l Hl|o] using any_nested_ind; intros e;
    try discriminate.
  - cbn [ToString].
    match goal with
    | |- context [bind (?F l)] => set (elements := F)
    end.
    assert (H : forall e, elements l = Throw e -> e = TypeError).
    { induction Hl as [|x l Hx _ IH]; intros e0; [discriminate|].
      cbn [elements]. fold elements.
      destruct (match x with
                | Undefined | Null => Ok EmptyString
                | _ => ToString x
                end) as [sx|ex] eqn:Ex; cbn [bind].
      - destruct (elements l) as [r|er]; cbn [bind]; [discriminate|].
        intros [= <-]. now apply IH.
      - intros [= <-]. apply Hx.
        destruct x; try discriminate Ex; exact Ex. }
    destruct (elements l) as [ss|e'] eqn:E; cbn [bind]; [discriminate|].
    intros [= <-]. now apply H.
  - cbn [ToString]. destruct (has o "toString"); [|discriminate].
    now intros [= <-].
Qed.

Lemma ToNumber_throws (v : any) (e : exn) :
  ToNumber v = Throw e -> e = TypeError.
Proof.
  destruct v; try discriminate; unfold ToNumber;
    match goal with
    | |- context [ToString ?x] =>
        destruct (ToString x) as [s|e'] eqn:E; cbn [bind];
          [discriminate | intros [= <-]; now apply (ToString_throws x)]
    end.
Qed.

Lemma some_isNaN_throws (l : list any) (e : exn) :
  some global_isNaN l = Throw e -> e = TypeError.
Proof.
  induction l as [|x l IH]; [discriminate|]. cbn [some].
  unfold global_isNaN at 1.
  destruct (ToNumber x) as [n|e'] eqn:E; cbn [bind].
  - destruct (isNaN n); [discriminate | exact IH].
  - intros [= <-]. now apply (ToNumber_throws x).
Qed.

(** a loop whose callback throws nothing but [TypeError], and throws on
    some element *)
Lemma forEach_from_throws {A S : Type} (P : A -> Prop)
  (f : S -> A -> Z -> result S) (l : list A) :
  (forall s x i e, f s x i = Throw e -> e = TypeError) ->
  (forall s x i, P x -> f s x i = Throw TypeError) ->
  Exists P l ->
  forall i s, forEach_from f l i s = Throw TypeError.
Proof.
  intros Hall HP H. induction H as [x l Hx|x l _ IH]; intros i s;
    cbn [forEach_from].
  - now rewrite (HP s x i Hx).
  - destruct (f s x i) as [s'|e] eqn:E; cbn [bind]; [apply IH|].
    now rewrite (Hall s x i e E).
Qed.

(** X6: in a workers sheet, an AvailableSlots text without a dash that is
    the JSON text of anything but an array (a number, a text in quotes,
    true, false, null, an object) makes [validateAvailableSlots] throw a
    TypeError: the parsed value has no method [some].  Rows before it do not
    matter, since the loop throws nothing else. *)
Theorem X6_available_slots_json_scalar_throws
  (sheetName : string) (data : list row) :
  getBaseSheetName sheetName = "Workers" ->
  Exists (fun r => exists s v,
            get r "AvailableSlots" = Str s /\ includes s "-" = false
            /\ JSON_parse s = Ok v /\ forall l, v <> Arr l) data ->
  validateAvailableSlots data sheetName = Throw TypeError.
Proof.
  intros Hbase Hdata. unfold validateAvailableSlots, forEach. rewrite Hbase.
  change (String.eqb "Workers" "Workers") with true. cbn [negb].
  eapply forEach_from_throws; [| |exact Hdata]; cbv beta.
  - intros errors r i e.
    destruct (as_array (parseNumberArray (get r "AvailableSlots")))
      as [elements|e1] eqn:E1; cbn [bind].
    + destruct (some global_isNaN elements) as [b|e2] eqn:E2; cbn [bind].
      * destruct b; [|discriminate].
        destruct (ToString (get r "AvailableSlots")) as [s|e3] eqn:E3;
          cbn [bind]; [discriminate|].
        intros [= <-]. now apply (ToString_throws _ _ E3).
      * intros [= <-]. now apply (some_isNaN_throws _ _ E2).
    + intros [= <-]. unfold as_array in E1.
      destruct (parseNumberArray _); try discriminate; now injection E1.
  - intros errors r i [s [v [Hs [Hd [Hv Hna]]]]]. rewrite Hs.
    unfold parseNumberArray. rewrite Hd, Hv. cbn [catch].
    destruct v; try reflexivity. now destruct (Hna l).
Qed.

Lemma X6_available_slots_json_scalar_throws_witness :
  validateAvailableSlots
    [ [("WorkerID", Str "W1"); ("AvailableSlots", Str "[1,2]")];
      [("WorkerID", Str "W2"); ("AvailableSlots", Str "5")] ]
    "Workers" = Throw TypeError.
Proof.
  apply (X6_available_slots_json_scalar_throws "Workers"
           [ [("WorkerID", Str "W1"); ("AvailableSlots", Str "[1,2]")];
             [("WorkerID", Str "W2"); ("AvailableSlots", Str "5")] ]);
    [reflexivity|].
  apply Exists_cons_tl, Exists_cons_hd.
  exists "5", (Number (Fin 5)). repeat split; discriminate.
Defined.

End AvailableSlots.

Section Placeholders.

(** X24: the two checks that are placeholders in the code report nothing:
    [validateCircularCoRunGroups] builds its table of group tags and
    returns no error, whatever the tags of the clients are, and
    [validateConflictingRules] returns no error for any tasks; neither
    throws. *)
Theorem X24_placeholder_checks_report_nothing (clients tasks : list row) :
  validateCircularCoRunGroups clients = Ok []
  /\ validateConflictingRules tasks = Ok [].
Proof.
  split; [|reflexivity]. unfold validateCircularCoRunGroups.
  match goal with
  | |- bind (forEach ?f clients []) _ = _ =>
      assert (H : forall l i s, exists s', forEach_from f l i s = Ok s')
  end.
  { induction l as [|x l IH]; intros i s; [now exists s|].
    cbn [forEach_from]. destruct (Map_get s (get x "GroupTag"));
      cbn [bind]; apply IH. }
  unfold forEach. destruct (H clients 0 []) as [s' ->]. reflexivity.
Qed.

End Placeholders.

(* ================================================================== *)
(** * Sheet names and sheet kinds *)
(* ================================================================== *)

Section SheetKinds.

Lemma lower_idempotent (c : ascii) : lower (lower c) = lower c.
Proof.
  destruct c as [[] [] [] [] [] [] [] []]; reflexivity.
Qed.

Lemma toLowerCase_idempotent (s : string) :
  toLowerCase (toLowerCase s) = toLowerCase s.
Proof.
  induction s as [|c s IH]; [reflexivity|].
  cbn [toLowerCase]. now rewrite lower_idempotent, IH.
Qed.

Lemma getBaseSheetName_cases (sheetName : string) :
  let cleanName := trim (replace_spaces false (toLowerCase sheetName)) in
  (startsWith cleanName "client" = true
   /\ getBaseSheetName sheetName = "Clients")
  \/ (startsWith cleanName "client" = false
      /\ startsWith cleanName "worker" = true
      /\ getBaseSheetName sheetName = "Workers")
  \/ (startsWith cleanName "client" = false
      /\ startsWith cleanName "worker" = false
      /\ startsWith cleanName "task" = true
      /\ getBaseSheetName sheetName = "Tasks")
  \/ (startsWith cleanName "client" = false
      /\ startsWith cleanName "worker" = false
      /\ startsWith cleanName "task" = false
      /\ getBaseSheetName sheetName = sheetName).
Proof.
  unfold getBaseSheetName. cbv zeta.
  destruct (startsWith _ "client"); [now left|].
  destruct (startsWith _ "worker"); [right; now left|].
  destruct (startsWith _ "task"); [right; right; now left|].
  now repeat right.
Qed.

(** X7: [getBaseSheetName] returns Clients, Workers or Tasks, or else the
    name it was given; applying it twice is applying it once, so a kind is
    its own kind; and the kind does not depend on the case of the letters:
    the lower-case name has the same kind, or both names are returned as
    they are. *)
Theorem X7_base_sheet_name_is_a_kind_or_the_name (sheetName : string) :
  (getBaseSheetName sheetName = "Clients"
   \/ getBaseSheetName sheetName = "Workers"
   \/ getBaseSheetName sheetName = "Tasks"
   \/ getBaseSheetName sheetName = sheetName)
  /\ getBaseSheetName (getBaseSheetName sheetName)
     = getBaseSheetName sheetName
  /\ (getBaseSheetName (toLowerCase sheetName) = getBaseSheetName sheetName
      \/ (getBaseSheetName sheetName = sheetName
          /\ getBaseSheetName (toLowerCase sheetName)
             = toLowerCase sheetName)).
Proof.
  pose proof (getBaseSheetName_cases sheetName) as H. cbv zeta in H.
  assert (Hlow : forall b1 b2 b3,
    startsWith (trim (replace_spaces false (toLowerCase sheetName)))
      "client" = b1 ->
    startsWith (trim (replace_spaces false (toLowerCase sheetName)))
      "worker" = b2 ->
    startsWith (trim (replace_spaces false (toLowerCase sheetName)))
      "task" = b3 ->
    getBaseSheetName (toLowerCase sheetName)
    = if b1 then "Clients" else if b2 then "Workers"
      else if b3 then "Tasks" else toLowerCase sheetName).
  { intros b1 b2 b3 H1 H2 H3. unfold getBaseSheetName.
    rewrite toLowerCase_idempotent, H1, H2, H3. reflexivity. }
  destruct H as [[H1 E]|[[H1 [H2 E]]|[[H1 [H2 [H3 E]]]|[H1 [H2 [H3 E]]]]]].
  - rewrite E. split; [now left|]. split; [reflexivity|]. left.
    destruct (startsWith _ "worker") eqn:H2, (startsWith _ "task") eqn:H3;
      now rewrite (Hlow _ _ _ H1 eq_refl eq_refl).
  - rewrite E. split; [right; now left|]. split; [reflexivity|]. left.
    destruct (startsWith _ "task") eqn:H3;
      now rewrite (Hlow _ _ _ H1 H2 eq_refl).
  - rewrite E. split; [right; right; now left|]. split; [reflexivity|].
    left. now rewrite (Hlow _ _ _ H1 H2 H3).
  - rewrite E. split; [now repeat right|]. split; [exact E|]. right.
    split; [reflexivity|]. now rewrite (Hlow _ _ _ H1 H2 H3).
Qed.

End SheetKinds.

(* ================================================================== *)
(** * Comma-separated lists and number lists *)
(* ================================================================== *)

Section CommaLists.

Lemma map_id_on {A : Type} (f : A -> A) (l : list A) :
  Forall (fun x => f x = x) l -> map f l = l.
Proof.
  intros H. induction H as [|x l Hx _ IH]; [reflexivity|].
  cbn [map]. now rewrite Hx, IH.
Qed.

Lemma filter_all {A : Type} (f : A -> bool) (l : list A) :
  Forall (fun x => f x = true) l -> filter f l = l.
Proof.
  intros H. induction H as [|x l Hx _ IH]; [reflexivity|].
  cbn [filter]. now rewrite Hx, IH.
Qed.

(** X8: the list [parseCSVList] reads from a text holds only tokens that
    are not empty, have no white space at either end and hold no comma; a
    list of such tokens joined with commas reads back as itself; and a cell
    that is neither a text nor an array (a number, a boolean, an object, an
    empty cell) reads as the empty list. *)
Theorem X8_csv_list_tokens_are_trimmed_and_read_back :
  (forall s, exists l,
      parseCSVList (Str s) = Ok l
      /\ Forall (fun t => t <> EmptyString /\ trim t = t
                          /\ includes t "," = false) l)
  /\ (forall l,
        Forall (fun t => t <> EmptyString /\ trim t = t
                         /\ includes t "," = false) l ->
        parseCSVList (Str (join "," l)) = Ok l)
  /\ (forall v, match v with
                | Str _ | Arr _ => True
                | _ => parseCSVList v = Ok []
                end).
Proof.
  split; [|split].
  - intros s. eexists. split; [reflexivity|].
    apply Forall_forall. intros t Ht. apply filter_In in Ht as [Ht Hne].
    apply in_map_iff in Ht as [x [<- Hx]].
    split; [|split].
    + intros E. rewrite E in Hne. discriminate.
    + apply trim_idempotent.
    + apply includes_trim.
      pose proof (split_no_sep "," s) as H. rewrite Forall_forall in H.
      now apply H.
  - intros l Hl. cbn [parseCSVList]. destruct l as [|x l'] eqn:El.
    + reflexivity.
    + rewrite <- El in *. rewrite split_join.
      * rewrite map_id_on
          by (eapply Forall_impl; [|exact Hl]; cbv beta; tauto).
        rewrite filter_all; [reflexivity|].
        eapply Forall_impl; [|exact Hl]. cbv beta.
        intros t [Hne _]. apply negb_true_iff.
        now apply String.eqb_neq.
      * rewrite El. discriminate.
      * eapply Forall_impl; [|exact Hl]. cbv beta. tauto.
  - intros v. destruct v; try exact I; reflexivity.
Qed.

End CommaLists.

Section NumberLists.

Lemma ends_number_stops (rest : string) :
  ends_number rest = true -> stops rest = true.
Proof.
  destruct rest as [|c r]; [reflexivity|]. cbn [ends_number stops].
  intros H. now repeat (apply andb_true_iff in H as [H _]).
Qed.

Lemma parse_tail (v : Z) (rest : string) :
  ends_number rest = true ->
  parse_frac v rest = Some (v, 0%nat, rest)
  /\ read_exponent rest = Some (0, rest).
Proof.
  destruct rest as [|c r]; [now split|]. cbn [ends_number].
  intros H. apply andb_true_iff in H as [H HE].
  apply andb_true_iff in H as [H He].
  apply andb_true_iff in H as [_ Hdot].
  apply negb_true_iff in HE, He, Hdot.
  unfold parse_frac, read_exponent. now rewrite Hdot, He, HE.
Qed.

Lemma scale_0 (v : Z) : scale v (0 - Z.of_nat 0) = v.
Proof. unfold scale. cbn. apply Z.mul_1_r. Qed.

Lemma parse_digits_print (p : positive) (rest : string) :
  ends_number rest = true ->
  parse_int (NilEmpty.string_of_uint (Pos.to_uint p) ++ rest)
  = Some (Z.pos p, rest).
Proof.
  intros Hrest.
  pose proof (read_digits_print (Pos.to_uint p) rest 0 0%nat
                (ends_number_stops rest Hrest)) as Hread.
  rewrite uint_val_to_uint in Hread.
  destruct (print_pos_head p) as [c [t [E [Hd Hz]]]].
  rewrite E in *. cbn [String.append] in *. unfold parse_int.
  now rewrite Hd, Hz, Hread.
Qed.

(** a printed integer parses as itself *)
Lemma parse_number_print (z : Z) (rest : string) :
  ends_number rest = true ->
  parse_number (NumberToString (Fin z) ++ rest) = Some (Fin z, rest).
Proof.
  intros Hrest. destruct (parse_tail 0 rest Hrest) as [_ Hexp].
  destruct z as [|p|p].
  - change (NumberToString (Fin 0) ++ rest) with (String "0" rest).
    unfold parse_number.
    change (Ascii.eqb "0" "-") with false. cbv iota beta.
    change (parse_int (String "0" rest)) with (Some (0, rest)).
    cbv iota beta.
    destruct (parse_tail 0 rest Hrest) as [-> _]. rewrite Hexp.
    now rewrite scale_0.
  - rewrite NumberToString_pos.
    pose proof (parse_digits_print p rest Hrest) as Hint.
    destruct (print_pos_head p) as [c [t [E [Hd Hz]]]].
    rewrite E in *. cbn [String.append] in *. unfold parse_number.
    destruct (Ascii.eqb_spec c "-") as [->|_]; [discriminate Hd|].
    rewrite Hint.
    destruct (parse_tail (Z.pos p) rest Hrest) as [-> _]. rewrite Hexp.
    now rewrite scale_0.
  - rewrite NumberToString_neg. cbn [String.append]. unfold parse_number.
    change (Ascii.eqb "-" "-") with true. cbv iota beta.
    rewrite (parse_digits_print p rest Hrest).
    destruct (parse_tail (Z.pos p) rest Hrest) as [-> _]. rewrite Hexp.
    now rewrite scale_0.
Qed.

(** a printed integer starts with a minus sign or a digit *)
Lemma NumberToString_head (z : Z) :
  exists c t, NumberToString (Fin z) = String c t
              /\ (Ascii.eqb c "-" || is_digit c) = true.
Proof.
  destruct z as [|p|p].
  - now exists "0"%char, EmptyString.
  - rewrite NumberToString_pos.
    destruct (print_pos_head p) as [c [t [E [Hd _]]]].
    exists c, t. rewrite Hd. split; [exact E | apply orb_true_r].
  - rewrite NumberToString_neg. now do 2 eexists.
Qed.

Lemma number_head (c : ascii) :
  (Ascii.eqb c "-" || is_digit c) = true ->
  is_json_space c = false /\ Ascii.eqb c "{" = false
  /\ Ascii.eqb c "[" = false /\ Ascii.eqb c "]" = false
  /\ Ascii.eqb c dquote = false.
Proof.
  destruct c as [[] [] [] [] [] [] [] []]; cbn; intros H;
    try discriminate H; repeat split; reflexivity.
Qed.

Lemma parse_value_number (fuel : nat) (z : Z) (rest : string) :
  ends_number rest = true ->
  parse_value (S fuel) (NumberToString (Fin z) ++ rest)
  = Parsed (Number (Fin z)) rest.
Proof.
  intros Hrest. pose proof (parse_number_print z rest Hrest) as Hnum.
  destruct (NumberToString_head z) as [c [t [E Hc]]].
  rewrite E in *. cbn [String.append] in *.
  destruct (number_head c Hc) as [Hsp [Hb [Hk [_ Hq]]]].
  cbn [parse_value skip_ws]. now rewrite Hsp, Hb, Hk, Hq, Hc, Hnum.
Qed.

End NumberLists.

Section NumberListRoundTrip.

Lemma join_cons (x y : string) (l : list string) :
  join "," (x :: y :: l) = x ++ String "," (join "," (y :: l)).
Proof. reflexivity. Qed.

Lemma parse_elements_step (fuel : nat) (s : string) (acc : list any) :
  parse_elements (S fuel) s acc
  = match parse_value fuel s with
    | Parsed v r =>
        match skip_ws r with
        | String c r' =>
            if Ascii.eqb c "," then parse_elements fuel r' (acc ++ [v])
            else if Ascii.eqb c "]" then Parsed (Arr (acc ++ [v])) r'
            else Malformed
        | EmptyString => Malformed
        end
    | Malformed => Malformed
    | OutOfFuel => OutOfFuel
    end.
Proof. reflexivity. Qed.

(** the elements of a printed list, up to the closing bracket *)
Lemma parse_elements_numbers (l : list Z) :
  forall (fuel : nat) (acc : list any) (rest : string),
  l <> [] ->
  (List.length l < fuel)%nat ->
  parse_elements fuel
    (join "," (map (fun z => NumberToString (Fin z)) l) ++ String "]" rest)
    acc
  = Parsed (Arr (acc ++ map (fun z => Number (Fin z)) l)) rest.
Proof.
  induction l as [|z l IH]; intros fuel acc rest Hne Hfuel;
    [now destruct Hne|].
  destruct fuel as [|fuel]; [cbn in Hfuel; lia|].
  rewrite parse_elements_step.
  destruct l as [|y l'].
  - cbn [map join]. destruct fuel as [|fuel]; [cbn in Hfuel; lia|].
    rewrite parse_value_number by reflexivity. reflexivity.
  - cbn [map]. rewrite join_cons, append_assoc.
    cbn [String.append].
    assert (Hf : exists f, fuel = S f)
      by (destruct fuel; [cbn in Hfuel; lia | now eexists]).
    destruct Hf as [f Hf]. rewrite Hf at 1.
    rewrite parse_value_number by reflexivity.
    change (skip_ws (String "," ?s)) with (String "," s).
    change (Ascii.eqb "," ",") with true. cbv iota.
    change (NumberToString (Fin y) :: map (fun z => NumberToString (Fin z)) l')
      with (map (fun z => NumberToString (Fin z)) (y :: l')).
    rewrite IH; [|discriminate|cbn [List.length] in *; lia].
    now rewrite <- app_assoc.
Qed.

Lemma parse_value_numbers (l : list Z) (fuel : nat) (rest : string) :
  (List.length l + 1 < fuel)%nat ->
  parse_value fuel (print_numbers l ++ rest) = Parsed (numbers l) rest.
Proof.
  intros Hfuel. destruct fuel as [|fuel]; [lia|].
  unfold print_numbers. cbn [String.append].
  rewrite append_assoc. cbn [String.append].
  destruct l as [|z l'].
  - reflexivity.
  - pose proof (parse_elements_numbers (z :: l') fuel [] rest
                  ltac:(discriminate) ltac:(lia)) as Hel.
    remember (map (fun z => NumberToString (Fin z)) (z :: l')) as ss.
    assert (Hhead : exists c t,
      join "," ss ++ String "]" rest = String c t
      /\ (Ascii.eqb c "-" || is_digit c) = true).
    { subst ss. cbn [map].
      destruct (NumberToString_head z) as [c [t [E Hc]]].
      destruct l' as [|y l''].
      - cbn [map join]. rewrite E. cbn [String.append]. now do 2 eexists.
      - cbn [map]. rewrite join_cons, E. cbn [String.append].
        now do 2 eexists. }
    destruct Hhead as [c [t [E Hc]]].
    destruct (number_head c Hc) as [Hsp [_ [_ [Hk _]]]].
    cbn [parse_value skip_ws is_json_space].
    change (is_json_space "[") with false. cbv iota.
    change (Ascii.eqb "[" "{") with false.
    change (Ascii.eqb "[" "[") with true. cbv iota.
    rewrite E in *. cbn [skip_ws]. rewrite Hsp, Hk. exact Hel.
Qed.

Lemma join_length (l : list Z) :
  (List.length l
   <= String.length (join "," (map (fun z => NumberToString (Fin z)) l)))%nat.
Proof.
  induction l as [|z l IH]; [cbn; lia|].
  destruct (NumberToString_head z) as [c [t [E _]]].
  destruct l as [|y l'].
  - cbn [map join List.length]. rewrite E. cbn [String.length]. lia.
  - cbn [map]. rewrite join_cons, E. cbn [String.append String.length].
    rewrite string_length_app. cbn [String.length List.length] in *.
    cbn [map] in IH. lia.
Qed.

Lemma JSON_stringify_numbers (l : list Z) :
  JSON_stringify (numbers l) = Str (print_numbers l).
Proof.
  unfold numbers, print_numbers. cbn [JSON_stringify].
  match goal with
  | |- context [join "," (?F ?a)] =>
      assert (H : F a = map (fun z => NumberToString (Fin z)) l)
  end.
  { induction l as [|z l IH]; [reflexivity|].
    cbn [map JSON_stringify]. now rewrite IH. }
  now rewrite H.
Qed.

(** [JSON.parse(JSON.stringify(l)) = l] for a list of integers *)
Lemma JSON_parse_numbers (l : list Z) :
  JSON_parse (print_numbers l) = Ok (numbers l).
Proof.
  unfold JSON_parse.
  rewrite <- (string_app_nil (print_numbers l)) at 2.
  rewrite parse_value_numbers; [reflexivity|].
  unfold parse_fuel, print_numbers. pose proof (join_length l) as H.
  cbn [String.append String.length]. rewrite string_length_app.
  cbn [String.length]. lia.
Qed.

End NumberListRoundTrip.

(* ================================================================== *)
(** * The normalizer of PreferredPhases *)
(* ================================================================== *)

Section Ranges.

Lemma print_nonneg (z : Z) :
  0 <= z ->
  exists d, NumberToString (Fin z) = NilEmpty.string_of_uint d
            /\ d <> Decimal.Nil /\ uint_val d 0 = z.
Proof.
  intros Hz. destruct z as [|p|p]; [| |lia].
  - exists (Decimal.D0 Decimal.Nil). repeat split. discriminate.
  - exists (Pos.to_uint p). rewrite NumberToString_pos.
    repeat split; [apply DecimalPos.Unsigned.to_uint_nonnil|].
    apply uint_val_to_uint.
Qed.

Lemma read_digits_number (z : Z) (rest : string) :
  0 <= z -> stops rest = true ->
  exists n, read_digits (NumberToString (Fin z) ++ rest) 0 0%nat
            = (z, S n, rest).
Proof.
  intros Hz Hrest. destruct (print_nonneg z Hz) as [d [-> [Hd <-]]].
  rewrite read_digits_print by assumption.
  destruct (Decimal.nb_digits d) as [|n] eqn:E.
  - destruct d; cbn in E; [now destruct Hd | discriminate ..].
  - now exists n.
Qed.

Lemma space_no_digit (c : ascii) : is_space c = true -> is_digit c = false.
Proof.
  intros H. destruct (is_digit c) eqn:E; [|reflexivity].
  now rewrite (digit_no_space c E) in H.
Qed.

Lemma stops_spaces_dash (sp r : string) :
  all_chars is_space sp = true -> stops (sp ++ String "-" r) = true.
Proof.
  destruct sp as [|c sp]; [reflexivity|]. cbn [all_chars String.append stops].
  intros H. apply andb_true_iff in H as [Hc _].
  now rewrite (space_no_digit c Hc).
Qed.

Lemma is_range_text (a b : Z) (sp1 sp2 : string) :
  0 <= a -> 0 <= b ->
  all_chars is_space sp1 = true -> all_chars is_space sp2 = true ->
  Page.is_range (range_text a sp1 sp2 b) = true.
Proof.
  intros Ha Hb H1 H2. unfold Page.is_range, range_text.
  destruct (read_digits_number a (sp1 ++ String "-"
              (sp2 ++ NumberToString (Fin b))) Ha
              (stops_spaces_dash _ _ H1)) as [n ->].
  rewrite (trimStart_spaces _ _ H1). cbn [trimStart].
  change (is_space "-") with false. cbv iota.
  change (Ascii.eqb "-" "-") with true. cbv iota.
  rewrite (trimStart_spaces _ _ H2).
  destruct (NumberToString_nonneg b Hb) as [_ [c [t [E [Hd _]]]]].
  assert (Hs : trimStart (NumberToString (Fin b)) = NumberToString (Fin b)).
  { rewrite E. cbn [trimStart]. now rewrite (digit_no_space c Hd). }
  rewrite Hs. rewrite <- (string_app_nil (NumberToString (Fin b))).
  now destruct (read_digits_number b EmptyString Hb eq_refl) as [m ->].
Qed.

Lemma digits_no_dash (z : Z) (sp : string) :
  0 <= z -> all_chars is_space sp = true ->
  includes (NumberToString (Fin z)) "-" = false
  /\ includes sp "-" = false.
Proof.
  intros Hz Hsp. destruct (NumberToString_nonneg z Hz) as [Hall _]. split.
  - now apply (includes_all_chars is_digit).
  - now apply (includes_all_chars is_space).
Qed.

Lemma split_range_text (a b : Z) (sp1 sp2 : string) :
  0 <= a -> 0 <= b ->
  all_chars is_space sp1 = true -> all_chars is_space sp2 = true ->
  map StringToNumber (split "-" (range_text a sp1 sp2 b)) = [Fin a; Fin b].
Proof.
  intros Ha Hb H1 H2. unfold range_text.
  destruct (digits_no_dash a sp1 Ha H1) as [Hda Hs1].
  destruct (digits_no_dash b sp2 Hb H2) as [Hdb Hs2].
  rewrite <- append_assoc, split_app
    by (now rewrite includes_app, Hda, Hs1).
  rewrite split_single by (now rewrite includes_app, Hs2, Hdb).
  cbn [map].
  rewrite <- (StringToNumber_padded a EmptyString sp1 Ha eq_refl H1) at 2.
  rewrite <- (StringToNumber_padded b sp2 EmptyString Hb H2 eq_refl) at 2.
  cbn [String.append]. now rewrite string_app_nil.
Qed.

Lemma Array_from_length_interval (a b : Z) :
  Array_from_length (Fin (b - a + 1)) (Fin a)
  = if 4294967295 <=? b - a then Throw RangeError
    else Ok (map (fun z => Number (Fin z)) (interval a b)).
Proof.
  unfold Array_from_length, interval.
  destruct (Z.leb_spec (b - a + 1) 0) as [Hle|Hgt].
  - destruct (Z.leb_spec 4294967295 (b - a)); [lia|].
    replace (Z.to_nat (b - a + 1)) with 0%nat by lia. reflexivity.
  - destruct (Z.ltb_spec 4294967295 (b - a + 1)),
      (Z.leb_spec 4294967295 (b - a)); try lia; [reflexivity|].
    now rewrite map_map.
Qed.

End Ranges.

Section RangeExpansion.

Lemma In_interval (a b z : Z) : In z (interval a b) <-> a <= z <= b.
Proof.
  unfold interval. rewrite in_map_iff. split.
  - intros [i [<- Hi]]. apply in_seq in Hi. lia.
  - intros Hz. exists (Z.to_nat (z - a)). split; [lia|].
    apply in_seq. lia.
Qed.

Lemma range_text_not_empty (a b : Z) (sp1 sp2 : string) :
  ToBoolean (Str (range_text a sp1 sp2 b)) = true
  /\ includes (range_text a sp1 sp2 b) "-" = true.
Proof.
  unfold range_text. split.
  - destruct (NumberToString_head a) as [c [t [-> _]]]. reflexivity.
  - rewrite !includes_app. cbn [includes].
    change (Ascii.eqb "-" "-") with true.
    now rewrite orb_true_l, !orb_true_r.
Qed.

Lemma normalizer_range_text (a b : Z) (sp1 sp2 : string) :
  0 <= a -> 0 <= b ->
  all_chars is_space sp1 = true -> all_chars is_space sp2 = true ->
  Page.normalizePreferredPhases (range_text a sp1 sp2 b)
  = (if 4294967295 <=? b - a then Throw RangeError
     else Ok (numbers (interval a b))).
Proof.
  intros Ha Hb H1 H2.
  destruct (range_text_not_empty a b sp1 sp2) as [Hne Hdash].
  unfold Page.normalizePreferredPhases.
  rewrite Hne, (is_range_text a b sp1 sp2 Ha Hb H1 H2),
    (split_range_text a b sp1 sp2 Ha Hb H1 H2).
  cbn [negb nth num_sub num_add]. rewrite Array_from_length_interval.
  now destruct (4294967295 <=? b - a).
Qed.

(** X9: a range typed as two numbers that are not negative with a dash
    between them, white space allowed around the dash, is expanded by
    [normalizePreferredPhases] to the numbers from the first to the second,
    both included and in ascending order; the list is empty when the second
    is the smaller.  A range of more than 4294967295 numbers makes it throw
    a RangeError, the expansion being outside its [try], while
    [parseNumberArray] of [lib/validation.ts] reads the same text and
    returns the empty list there. *)
Theorem X9_ranges_are_expanded_inclusively
  (a b : Z) (sp1 sp2 : string) :
  0 <= a -> 0 <= b ->
  all_chars is_space sp1 = true -> all_chars is_space sp2 = true ->
  Page.normalizePreferredPhases (range_text a sp1 sp2 b)
  = (if 4294967295 <=? b - a then Throw RangeError
     else Ok (numbers (interval a b)))
  /\ parseNumberArray (Str (range_text a sp1 sp2 b))
     = (if 4294967295 <=? b - a then numbers []
        else numbers (interval a b))
  /\ (forall z, In z (interval a b) <-> a <= z <= b)
  /\ NoDup (interval a b).
Proof.
  intros Ha Hb H1 H2.
  destruct (range_text_not_empty a b sp1 sp2) as [Hne Hdash].
  pose proof (split_range_text a b sp1 sp2 Ha Hb H1 H2) as Hsplit.
  split; [|split; [|split]].
  - now apply normalizer_range_text.
  - unfold parseNumberArray. rewrite Hdash, Hsplit.
    cbn [nth num_sub num_add]. rewrite Array_from_length_interval.
    now destruct (4294967295 <=? b - a).
  - intros z. apply In_interval.
  - unfold interval. apply Injective_map_NoDup; [|apply seq_NoDup].
    intros i j Hij. lia.
Qed.

Lemma X9_ranges_are_expanded_inclusively_witness :
  Page.normalizePreferredPhases "2 - 4" = Ok (numbers [2; 3; 4])
  /\ parseNumberArray (Str "2 - 4") = numbers [2; 3; 4].
Proof.
  destruct (X9_ranges_are_expanded_inclusively 2 4 " " " "
              ltac:(lia) ltac:(lia) eq_refl eq_refl) as [H1 [H2 _]].
  split; [exact H1 | exact H2].
Defined.

End RangeExpansion.

Section NormalizerResults.

Lemma parse_elements_array (fuel : nat) :
  forall s acc v r, parse_elements fuel s acc = Parsed v r ->
                    exists l, v = Arr l.
Proof.
  induction fuel as [|fuel IH]; intros s acc v r; [discriminate|].
  rewrite parse_elements_step.
  destruct (parse_value fuel s) as [x r0| |]; try discriminate.
  destruct (skip_ws r0) as [|c r']; [discriminate|].
  destruct (Ascii.eqb c ","); [apply IH|].
  destruct (Ascii.eqb c "]"); [|discriminate].
  intros [= <- _]. now eexists.
Qed.

Lemma skip_ws_trimStart (s : string) :
  match skip_ws s with
  | String c t => is_space c = true \/ trimStart s = String c t
  | EmptyString => True
  end.
Proof.
  induction s as [|c s IH]; [exact I|].
  cbn [skip_ws trimStart]. destruct (is_json_space c) eqn:Hj.
  - assert (Hs : is_space c = true).
    { revert Hj. unfold is_json_space, is_space.
      destruct (Z.eqb_spec (code c) 9), (Z.eqb_spec (code c) 10),
        (Z.eqb_spec (code c) 13), (Z.eqb_spec (code c) 32);
        try discriminate; intros _;
        repeat match goal with
               | H : code c = _ |- _ => rewrite H
               end; reflexivity. }
    rewrite Hs. exact IH.
  - destruct (is_space c) eqn:Hs; [now left | now right].
Qed.

Lemma skip_ws_head (s : string) :
  match skip_ws s with
  | String c _ => is_json_space c = false
  | EmptyString => True
  end.
Proof.
  induction s as [|c s IH]; [exact I|].
  cbn [skip_ws]. destruct (is_json_space c) eqn:Hj; [exact IH | exact Hj].
Qed.

Lemma startsWith_cons (c : ascii) (t u : string) (p : ascii) :
  startsWith (String c t) (String p EmptyString)
  = startsWith (String c u) (String p EmptyString).
Proof.
  unfold startsWith. cbn [String.prefix].
  destruct (ascii_dec p c); [now destruct t, u | reflexivity].
Qed.

(** a text whose trimmed form starts with a bracket parses as an array, if
    it parses *)
Lemma JSON_parse_bracket (input : string) (v : any) :
  startsWith (trim input) "[" = true ->
  JSON_parse input = Ok v -> exists l, v = Arr l.
Proof.
  unfold JSON_parse, parse_fuel.
  set (fuel := (2 + 2 * String.length input)%nat).
  change (3 + 2 * String.length input)%nat with (S fuel).
  intros Hb. cbn [parse_value].
  pose proof (skip_ws_trimStart input) as Hsk.
  pose proof (skip_ws_head input) as Hj.
  destruct (skip_ws input) as [|c t] eqn:E; [discriminate|].
  assert (Hc : c = "["%char \/ is_space c = true).
  { destruct Hsk as [Hs|Ht]; [now right|]. left.
    unfold trim in Hb. rewrite Ht in Hb.
    pose proof (trimStart_head input) as Hh. rewrite Ht in Hh.
    destruct (trimEnd_cons c t Hh) as [u Hu]. rewrite Hu in Hb.
    unfold startsWith in Hb. cbn [String.prefix] in Hb.
    destruct (ascii_dec "[" c) as [<-|_]; [reflexivity|discriminate]. }
  destruct Hc as [->|Hs].
  - change (Ascii.eqb "[" "{") with false.
    change (Ascii.eqb "[" "[") with true. cbv iota.
    destruct (skip_ws t) as [|c' r]; [discriminate|].
    destruct (Ascii.eqb c' "]").
    + destruct (skip_ws r); [|discriminate]. intros [= <-]. now eexists.
    + destruct (parse_elements fuel t []) as [x r0| |] eqn:Ep;
        try discriminate.
      destruct (skip_ws r0); [|discriminate]. intros [= <-].
      now apply (parse_elements_array fuel t [] x r0).
  - clear -Hs Hj.
    destruct c as [[] [] [] [] [] [] [] []];
      try discriminate Hs; try discriminate Hj;
      intros H; cbn in H; discriminate H.
Qed.

(** X10: whatever [normalizePreferredPhases] returns is an array; and when
    the trimmed input does not start with a bracket, it is an array of
    numbers none of which is NaN: the tokens of a comma-separated text that
    are no numbers are dropped, and a range has only numbers. *)
Theorem X10_normalizer_returns_lists_of_numbers (input : string) (v : any) :
  Page.normalizePreferredPhases input = Ok v ->
  (exists l, v = Arr l)
  /\ (startsWith (trim input) "[" = false ->
      exists zs, v = numbers zs).
Proof.
  unfold Page.normalizePreferredPhases.
  destruct (ToBoolean (Str input)); cbn [negb];
    [|intros [= <-]; split; [now exists [] | intros _; now exists []]].
  destruct (Page.is_range input).
  - set (parts := map StringToNumber (split "-" input)).
    destruct (Array_from_length
                (num_add (num_sub (nth 1 parts NaN) (nth 0 parts NaN))
                   (Fin 1)) (nth 0 parts NaN)) as [l|e] eqn:E;
      cbn [bind]; [|discriminate].
    intros [= <-]. split; [now eexists|]. intros _.
    apply Array_from_length_finite in E as [zs ->]; [now exists zs|].
    destruct (nth 0 parts NaN) as [|a]; [|right; now exists a].
    left. now destruct (nth 1 parts NaN).
  - destruct (startsWith (trim input) "[") eqn:Hb.
    + intros [= <-]. split; [|discriminate].
      destruct (JSON_parse input) as [x|e] eqn:E; cbn [catch];
        [now apply (JSON_parse_bracket input) | now exists []].
    + cbn [catch]. intros [= <-]. split; [now eexists|]. intros _.
      induction (map (fun v => StringToNumber (trim v)) (split "," input))
        as [|n l [zs IH]]; [now exists []|].
      cbn [filter]. destruct n as [|z]; cbn [isNaN negb].
      * now exists zs.
      * exists (z :: zs). unfold numbers in *. cbn [map].
        now injection IH as ->.
Qed.

Lemma X10_normalizer_returns_lists_of_numbers_witness :
  (exists l, numbers [1; 3] = Arr l)
  /\ (startsWith (trim "1, x ,3") "[" = false ->
      exists zs, numbers [1; 3] = numbers zs).
Proof.
  apply (X10_normalizer_returns_lists_of_numbers "1, x ,3" (numbers [1; 3])).
  reflexivity.
Defined.

End NormalizerResults.

(* ================================================================== *)
(** * The editable table *)
(* ================================================================== *)

Section CellErrors.

Import DataTable.

Lemma string_app_inv_head (s t u : string) : s ++ t = s ++ u -> t = u.
Proof.
  induction s as [|c s IH]; [now intros|].
  cbn [String.append]. intros [= H]. now apply IH.
Qed.

(** the key of a cell tells the row and the column *)
Lemma cell_key_inj (i j : Z) (c d : string) :
  0 <= i -> 0 <= j -> cell_key i c = cell_key j d -> i = j /\ c = d.
Proof.
  intros Hi Hj Hk.
  assert (H : NumberToString (Fin i) ++ "-" ++ c
              = NumberToString (Fin j) ++ "-" ++ d)
    by (unfold cell_key in Hk; congruence).
  clear Hk.
  destruct (NumberToString_nonneg i Hi) as [Hdi _].
  destruct (NumberToString_nonneg j Hj) as [Hdj _].
  assert (Hs : split "-" (NumberToString (Fin i) ++ "-" ++ c)
               = split "-" (NumberToString (Fin j) ++ "-" ++ d))
    by now rewrite H.
  cbn [String.append] in Hs.
  rewrite !split_app in Hs
    by (now apply (includes_all_chars is_digit)).
  assert (Hp : StringToNumber (NumberToString (Fin i))
               = StringToNumber (NumberToString (Fin j))) by congruence.
  assert (Hij : i = j).
  { rewrite !StringToNumber_NumberToString in Hp. now injection Hp. }
  subst j. split; [reflexivity|].
  apply string_app_inv_head in H. now injection H.
Qed.

Lemma Map_get_set_Str {V : Type} (m : list (any * V)) (a b : string)
  (v : V) :
  Map_get (Map_set m (Str a) v) (Str b)
  = if String.eqb a b then Some v else Map_get m (Str b).
Proof.
  induction m as [|[k0 v0] m IH]; cbn [Map_set Map_get].
  - cbn [SameValueZero]. reflexivity.
  - destruct (SameValueZero k0 (Str a)) eqn:Ea.
    + apply SameValueZero_Str in Ea. subst k0. cbn [Map_get SameValueZero].
      now destruct (String.eqb a b).
    + cbn [Map_get]. destruct (SameValueZero k0 (Str b)) eqn:Eb; [|exact IH].
      apply SameValueZero_Str in Eb. subst k0. cbn [SameValueZero] in Ea.
      rewrite String.eqb_sym in Ea. now rewrite Ea.
Qed.

Lemma Map_get_set_key (m : list (any * ValidationError))
  (e : ValidationError) (i : Z) (col : string) :
  0 <= rowIndex e -> 0 <= i ->
  Map_get (Map_set m (cell_key (rowIndex e) (column e)) e) (cell_key i col)
  = if (rowIndex e =? i) && String.eqb (column e) col then Some e
    else Map_get m (cell_key i col).
Proof.
  intros He Hi. unfold cell_key at 1 2. rewrite Map_get_set_Str.
  destruct (String.eqb_spec
              (NumberToString (Fin (rowIndex e)) ++ "-" ++ column e)
              (NumberToString (Fin i) ++ "-" ++ col)) as [E|E].
  - destruct (cell_key_inj (rowIndex e) i (column e) col He Hi) as [-> ->];
      [unfold cell_key; now rewrite E|].
    now rewrite Z.eqb_refl, String.eqb_refl.
  - destruct (Z.eqb_spec (rowIndex e) i) as [Hr|Hr]; [|reflexivity].
    destruct (String.eqb_spec (column e) col) as [Hc|Hc]; [|reflexivity].
    destruct E. now rewrite Hr, Hc.
Qed.

(** the table built from the errors [errs] on top of the table [m] *)
Lemma errorMap_lookup (errs : list ValidationError) (i : Z) (col : string) :
  0 <= i ->
  forall m,
    Map_get (fold_left (fun m e =>
                          if 0 <=? rowIndex e
                          then Map_set m (cell_key (rowIndex e) (column e)) e
                          else m) errs m) (cell_key i col)
    = match rev (filter (fun e => (rowIndex e =? i)
                                  && String.eqb (column e) col) errs) with
      | e :: _ => Some e
      | [] => Map_get m (cell_key i col)
      end.
Proof.
  intros Hi. induction errs as [|e errs IH]; intros m; [reflexivity|].
  cbn [fold_left filter]. rewrite IH.
  destruct (Z.leb_spec 0 (rowIndex e)) as [He|He].
  - rewrite (Map_get_set_key m e i col He Hi).
    destruct ((rowIndex e =? i) && String.eqb (column e) col).
    + cbn [rev].
      destruct (rev (filter _ errs)) as [|x r]; reflexivity.
    + reflexivity.
  - destruct (Z.eqb_spec (rowIndex e) i) as [Hr|Hr]; [lia|].
    reflexivity.
Qed.

(** X11: the error the table shows in a cell, [getCellError], is an error
    of that row and that column, and it is the last one of them in the
    list: a cell with an error always shows one, a later error of the cell
    hides the earlier ones, and the errors of a whole sheet (row index -1)
    or of another cell are never shown in it. *)
Theorem X11_cell_error_is_the_last_error_of_the_cell
  (validationErrors : list ValidationError) (i : Z) (col : string) :
  0 <= i ->
  getCellError validationErrors i col
  = hd_error (rev (filter (fun e => (rowIndex e =? i)
                                    && String.eqb (column e) col)
                          validationErrors))
  /\ (forall e, getCellError validationErrors i col = Some e ->
                In e validationErrors /\ rowIndex e = i /\ column e = col)
  /\ ((exists e, In e validationErrors /\ rowIndex e = i /\ column e = col)
      -> exists e, getCellError validationErrors i col = Some e).
Proof.
  intros Hi.
  assert (Hget : getCellError validationErrors i col
                 = hd_error (rev (filter (fun e => (rowIndex e =? i)
                                    && String.eqb (column e) col)
                          validationErrors))).
  { unfold getCellError, errorMap. rewrite (errorMap_lookup _ i col Hi).
    now destruct (rev _). }
  split; [exact Hget|]. rewrite Hget. split.
  - intros e He.
    assert (Hin : In e (rev (filter (fun e => (rowIndex e =? i)
                    && String.eqb (column e) col) validationErrors))).
    { destruct (rev _) as [|x r]; [discriminate|].
      injection He as ->. now left. }
    apply in_rev, filter_In in Hin as [Hin Hm].
    apply andb_true_iff in Hm as [Hr Hc].
    apply Z.eqb_eq in Hr. apply String.eqb_eq in Hc. auto.
  - intros [e [Hin [Hr Hc]]].
    assert (Hf : In e (rev (filter (fun e => (rowIndex e =? i)
                    && String.eqb (column e) col) validationErrors))).
    { apply in_rev. rewrite rev_involutive. apply filter_In.
      split; [exact Hin|]. subst. now rewrite Z.eqb_refl, String.eqb_refl. }
    destruct (rev _) as [|x r]; [destruct Hf|]. now exists x.
Qed.

Lemma X11_cell_error_is_the_last_error_of_the_cell_witness :
  getCellError
    [ mkError error "first" 2 "Duration" "Tasks" None;
      mkError error "sheet" (-1) "Duration" "Tasks" None;
      mkError error "second" 2 "Duration" "Tasks" None;
      mkError error "other" 12 "Duration" "Tasks" None ] 2 "Duration"
  = Some (mkError error "second" 2 "Duration" "Tasks" None).
Proof.
  apply (X11_cell_error_is_the_last_error_of_the_cell
           [ mkError error "first" 2 "Duration" "Tasks" None;
             mkError error "sheet" (-1) "Duration" "Tasks" None;
             mkError error "second" 2 "Duration" "Tasks" None;
             mkError error "other" 12 "Duration" "Tasks" None ] 2 "Duration").
  lia.
Defined.

End CellErrors.

Section CellEdits.

Import DataTable.




Lemma replace_row_id (l : list row) (i : nat) (r : row) :
  nth_error l i = Some r -> replace_row l i r = l.
Proof.
  revert i. induction l as [|y l IH]; intros [|i]; cbn;
    try discriminate.
  - now intros [= ->].
  - intros H. now rewrite (IH i H).
Qed.

Lemma set_get_id (r : row) (k : string) :
  has r k = true -> set r k (get r k) = r.
Proof.
  induction r as [|[k' v'] r IH]; cbn [has set get]; [discriminate|].
  destruct (String.eqb k' k); [reflexivity|].
  cbn [orb]. intros H. now rewrite (IH H).
Qed.



(** X13: opening a cell and saving it untouched gives the rows back as
    they were, when the cell holds a text, a boolean or a number and is not
    in the columns AttributesJSON and PreferredPhases: the text
    [handleCellClick] puts in the editor converts back to the value of the
    cell. *)
Theorem X13_saving_an_untouched_cell_changes_nothing
  (localData : list row) (i : nat) (col : string) (r : row) :
  nth_error localData i = Some r ->
  has r col = true ->
  col <> "AttributesJSON" -> col <> "PreferredPhases" ->
  match get r col with
  | Str _ | Boolean _ | Number (Fin _) => True
  | _ => False
  end ->
  exists editValue,
    handleCellClick (get r col) = Ok editValue
    /\ convertedValue col (get r col) editValue = Ok (get r col)
    /\ handleSave localData (Some (i, col)) editValue = Ok localData.
Proof.
  intros Hr Hhas Ha Hp Hv.
  apply String.eqb_neq in Ha. apply String.eqb_neq in Hp.
  assert (Hconv : exists editValue,
    handleCellClick (get r col) = Ok editValue
    /\ convertedValue col (get r col) editValue = Ok (get r col)).
  { unfold convertedValue, handleCellClick. rewrite Ha, Hp.
    destruct (get r col) as [| |b|[|z]|s|l|o]; try now destruct Hv.
    - destruct b; eexists; split; reflexivity.
    - cbn [ToBoolean]. destruct (Z.eqb_spec z 0) as [->|Hz]; cbn [negb].
      + eexists; split; reflexivity.
      + eexists. split; [reflexivity|].
        now rewrite StringToNumber_NumberToString.
    - cbn [ToBoolean]. destruct (String.eqb_spec s EmptyString) as [->|Hs];
        eexists; split; reflexivity. }
  destruct Hconv as [editValue [Hclick Hconv]].
  exists editValue. repeat split; try assumption.
  unfold handleSave. rewrite Hr, Hconv. cbn [bind].
  now rewrite (set_get_id r col Hhas), (replace_row_id _ _ _ Hr).
Qed.

Lemma X13_saving_an_untouched_cell_changes_nothing_witness :
  exists editValue,
    handleCellClick (Number (Fin 12)) = Ok editValue
    /\ convertedValue "Duration" (Number (Fin 12)) editValue
       = Ok (Number (Fin 12))
    /\ handleSave [ [("TaskID", Str "T1"); ("Duration", Number (Fin 12))] ]
         (Some (0%nat, "Duration")) editValue
       = Ok [ [("TaskID", Str "T1"); ("Duration", Number (Fin 12))] ].
Proof.
  apply (X13_saving_an_untouched_cell_changes_nothing
           [ [("TaskID", Str "T1"); ("Duration", Number (Fin 12))] ]
           0%nat "Duration"
           [("TaskID", Str "T1"); ("Duration", Number (Fin 12))]);
    try reflexivity; discriminate.
Defined.

End CellEdits.

Section EditsAndValidation.

Import DataTable.

(** X14: whatever is typed into an AttributesJSON cell, the text
    [handleSave] stores is one the validator leaves alone: a visit of
    [validateAttributesJSON] to a row that holds it does not rewrite the
    row, and reports it exactly when it is not empty and does not parse.  A
    text that starts with neither a brace nor a bracket and holds no colon
    is stored as the JSON text of a message object, which parses back to
    the trimmed text, so it is never reported. *)
Theorem X14_edited_attributes_are_not_repaired_again
  (originalValue : any) (editValue sheetName : string)
  (errors : list ValidationError) (h : heap) (l : loc) (index : Z) :
  exists s,
    convertedValue "AttributesJSON" originalValue editValue = Ok (Str s)
    /\ (get (h l) "AttributesJSON" = Str s ->
        attributes_step sheetName (errors, h) l index
        = Ok (push_all errors
                (if negb (String.eqb s EmptyString) && throws (JSON_parse s)
                 then [invalid_json sheetName index s] else []), h))
    /\ (looks_plain (trim editValue) = true ->
        s = message_json (trim editValue)
        /\ JSON_parse s = Ok (Obj [("message", Str (trim editValue))])).
Proof.
  unfold convertedValue.
  change (String.eqb "AttributesJSON" "AttributesJSON") with true.
  cbv iota. fold (looks_plain (trim editValue)).
  destruct (looks_plain (trim editValue)) eqn:Hplain.
  - exists (message_json (trim editValue)).
    split; [reflexivity|]. split.
    + intros Hget. rewrite attributes_step_spec.
      unfold attribute_errors, needs_repair. rewrite Hget.
      rewrite JSON_parse_message. cbn [throws].
      now rewrite !andb_false_r.
    + intros _. split; [reflexivity | apply JSON_parse_message].
  - exists (trim editValue). split.
    + now destruct (JSON_parse (trim editValue)).
    + split; [|discriminate]. intros Hget. rewrite attributes_step_spec.
      unfold attribute_errors, needs_repair. rewrite Hget.
      rewrite trim_idempotent, Hplain. cbn [negb].
      now rewrite andb_false_r, andb_true_r.
Qed.

Lemma includes_join_digits (l : list Z) :
  Forall (fun z => 0 <= z) l ->
  includes (join "," (map (fun z => NumberToString (Fin z)) l)) "-" = false.
Proof.
  intros H. induction H as [|z l Hz _ IH]; [reflexivity|].
  destruct (NumberToString_nonneg z Hz) as [Hall _].
  pose proof (includes_all_chars is_digit "-" _ eq_refl Hall) as Hd.
  destruct l as [|y l'].
  - exact Hd.
  - cbn [map]. rewrite join_cons, includes_app, Hd.
    cbn [includes orb]. exact IH.
Qed.

Lemma includes_join_negative (l : list Z) :
  Exists (fun z => z < 0) l ->
  includes (join "," (map (fun z => NumberToString (Fin z)) l)) "-" = true.
Proof.
  intros H. induction H as [z l Hz|z l Hex IH].
  - destruct z as [|p|p]; try lia.
    destruct l as [|y l'].
    + cbn [map join]. now rewrite NumberToString_neg.
    + cbn [map]. rewrite join_cons, NumberToString_neg. reflexivity.
  - destruct l as [|y l']; [inversion Hex|].
    cbn [map]. rewrite join_cons, includes_app.
    cbn [includes]. cbn [map] in IH. rewrite IH.
    now rewrite !orb_true_r.
Qed.

Lemma StringToNumber_bracket (t : string) :
  StringToNumber (String "[" t) = NaN.
Proof.
  unfold StringToNumber, trim. cbn [trimStart].
  change (is_space "[") with false. cbv iota.
  destruct (trimEnd_cons "[" t eq_refl) as [u ->].
  destruct u as [|x digits]; reflexivity.
Qed.

Lemma split_head (sep c : ascii) (t : string) :
  Ascii.eqb c sep = false ->
  exists x r, split sep (String c t) = String c x :: r.
Proof.
  intros Hc. cbn [split]. rewrite Hc.
  destruct (split sep t) as [|x r]; now do 2 eexists.
Qed.

(** how the validator reads a stored list of integers *)
Lemma parseNumberArray_print_numbers (l : list Z) :
  parseNumberArray (Str (print_numbers l))
  = if forallb (fun z => 0 <=? z) l then numbers l else numbers [].
Proof.
  unfold parseNumberArray.
  destruct (forallb (fun z => 0 <=? z) l) eqn:E.
  - assert (Hd : includes (print_numbers l) "-" = false).
    { unfold print_numbers. cbn [String.append includes].
      change (Ascii.eqb "[" "-") with false. cbn [orb].
      rewrite includes_app, includes_join_digits; [reflexivity|].
      apply Forall_forall. intros z Hz.
      rewrite forallb_forall in E. now apply Z.leb_le, E. }
    now rewrite Hd, JSON_parse_numbers.
  - assert (Hd : includes (print_numbers l) "-" = true).
    { unfold print_numbers. cbn [String.append includes].
      change (Ascii.eqb "[" "-") with false. cbn [orb].
      rewrite includes_app, includes_join_negative; [reflexivity|].
      apply Exists_exists.
      destruct (forallb_forall (fun z => 0 <=? z) l) as [_ Hall].
      destruct (Exists_dec (fun z => z < 0) l
                  (fun z => Z_lt_dec z 0)) as [Hex|Hno];
        [now apply Exists_exists|].
      rewrite Hall in E; [discriminate|].
      intros z Hz. apply Z.leb_le.
      destruct (Z_lt_dec z 0) as [Hlt|Hge]; [|lia].
      destruct Hno. apply Exists_exists. now exists z. }
    rewrite Hd. unfold print_numbers. cbn [String.append].
    destruct (split_head "-" "[" (join "," (map (fun z =>
                NumberToString (Fin z)) l) ++ "]") eq_refl) as [x [r ->]].
    cbn [map nth]. rewrite StringToNumber_bracket.
    destruct (nth 0 (map StringToNumber r) NaN); reflexivity.
Qed.

(** X15: an edit of a PreferredPhases cell whose text normalizes to a list
    of integers stores the JSON text of the list, and [parseNumberArray],
    with which the validator reads the cell, returns the same list when no
    number is negative, and the empty list when one is: the minus sign makes
    it read the stored text as a range. *)
Theorem X15_edited_phases_are_read_back_unless_negative
  (originalValue : any) (editValue : string) (l : list Z) :
  normalizePreferredPhases editValue = Ok (numbers l) ->
  convertedValue "PreferredPhases" originalValue editValue
  = Ok (Str (print_numbers l))
  /\ parseNumberArray (Str (print_numbers l))
     = (if forallb (fun z => 0 <=? z) l then numbers l else numbers []).
Proof.
  intros Hn. split; [|apply parseNumberArray_print_numbers].
  unfold convertedValue.
  change (String.eqb "PreferredPhases" "AttributesJSON") with false.
  change (String.eqb "PreferredPhases" "PreferredPhases") with true.
  cbv iota. rewrite Hn. cbn [bind]. now rewrite JSON_stringify_numbers.
Qed.

Lemma X15_edited_phases_are_read_back_unless_negative_witness :
  (convertedValue "PreferredPhases" (Str "[1]") "3,1, 2"
   = Ok (Str "[3,1,2]")
   /\ parseNumberArray (Str "[3,1,2]") = numbers [3; 1; 2])
  /\ (convertedValue "PreferredPhases" (Str "[1]") "2,-1"
      = Ok (Str "[2,-1]")
      /\ parseNumberArray (Str "[2,-1]") = numbers []).
Proof.
  split.
  - apply (X15_edited_phases_are_read_back_unless_negative
             (Str "[1]") "3,1, 2" [3; 1; 2]). reflexivity.
  - apply (X15_edited_phases_are_read_back_unless_negative
             (Str "[1]") "2,-1" [2; -1]). reflexivity.
Defined.

End EditsAndValidation.

(* ================================================================== *)
(** * Where the errors of a run point *)
(* ================================================================== *)

Section ErrorsPointIntoTheWorkbook.

(** a loop that only appends errors of the rows it visits *)
Lemma forEach_from_appends {A S E : Type} (errs_of : S -> list E)
  (Q : Z -> E -> Prop) (f : S -> A -> Z -> result S) (l : list A) :
  (forall s x i s', f s x i = Ok s' ->
     exists new, errs_of s' = (errs_of s ++ new)%list /\ Forall (Q i) new) ->
  forall index s s',
    forEach_from f l index s = Ok s' ->
    exists new,
      errs_of s' = (errs_of s ++ new)%list
      /\ Forall (fun e => exists i,
                   index <= i < index + Z.of_nat (List.length l) /\ Q i e)
                new.
Proof.
  intros Hf. induction l as [|x l IH]; intros index s s'.
  - intros [= <-]. exists []. now rewrite app_nil_r.
  - cbn [forEach_from]. destruct (f s x index) as [s1|e] eqn:Hfx;
      cbn [bind]; [|discriminate].
    intros Hrest. destruct (Hf _ _ _ _ Hfx) as [new1 [E1 H1]].
    destruct (IH _ _ _ Hrest) as [new2 [E2 H2]].
    exists (new1 ++ new2)%list. split.
    + now rewrite E2, E1, app_assoc.
    + apply Forall_app. split.
      * eapply Forall_impl; [|exact H1]. cbv beta. intros e He.
        exists index. split; [cbn [List.length]; lia | exact He].
      * eapply Forall_impl; [|exact H2]. cbv beta.
        intros e [i [Hi He]]. exists i.
        split; [cbn [List.length]; lia | exact He].
Qed.

(** the same for a loop from the first row, with the errors as its state *)
Lemma forEach_bounded {A : Type} (name : string)
  (f : list ValidationError -> A -> Z -> result (list ValidationError))
  (l : list A) (errs : list ValidationError) :
  (forall s x i s', f s x i = Ok s' ->
     exists new, s' = (s ++ new)%list
                 /\ Forall (fun e => sheetName e = name /\ type e = error
                                     /\ rowIndex e = i) new) ->
  forEach f l [] = Ok errs ->
  Forall (located name (List.length l)) errs.
Proof.
  intros Hf H. unfold forEach in H.
  destruct (forEach_from_appends (fun s => s) _ f l Hf 0 [] errs H)
    as [new [-> Hnew]].
  cbn [app]. eapply Forall_impl; [|exact Hnew]. cbv beta.
  intros e [i [Hi [Hn [Ht Hr]]]]. repeat split; try assumption; lia.
Qed.

Ltac one_error :=
  eexists; split; [reflexivity|]; repeat constructor.

Ltac no_error :=
  exists []; split; [now rewrite app_nil_r | constructor].

Lemma located_validateRequiredColumns (name : string) (data : list row)
  (errs : list ValidationError) :
  validateRequiredColumns name data = Ok errs ->
  Forall (located name (List.length data)) errs.
Proof.
  unfold validateRequiredColumns.
  destruct (REQUIRED_COLUMNS (getBaseSheetName name)) as [req| |];
    destruct data as [|first rest]; try discriminate;
    intros [= <-]; try constructor.
  apply Forall_forall. intros e He. apply in_map_iff in He as [col [<- _]].
  repeat split; cbn [rowIndex List.length]; lia.
Qed.

Lemma located_validateDuplicateIDs (name : string) (data : list row)
  (errs : list ValidationError) :
  validateDuplicateIDs name data = Ok errs ->
  Forall (located name (List.length data)) errs.
Proof.
  unfold validateDuplicateIDs, forEach.
  destruct (idColumn_of (getBaseSheetName name)) as [idColumn|];
    [|intros [= <-]; constructor].
  destruct (forEach_from (duplicate_step name idColumn) data 0 ([], []))
    as [st|e] eqn:E; cbn [bind]; [|discriminate].
  intros [= <-].
  assert (Hf : forall (s : list ValidationError * list string) r i s',
    duplicate_step name idColumn s r i = Ok s' ->
    exists new, fst s' = (fst s ++ new)%list
                /\ Forall (fun e => sheetName e = name /\ type e = error
                                    /\ rowIndex e = i) new).
  { intros [errors seen] r i s'. unfold duplicate_step.
    destruct (ToBoolean (get r idColumn)); [|intros [= <-]; no_error].
    destruct (ToString (get r idColumn)) as [s|e']; cbn [bind];
      [|discriminate].
    intros [= <-]. cbn [fst].
    destruct (includes_string seen s); [one_error | no_error]. }
  destruct (forEach_from_appends fst _ _ data Hf 0 _ _ E)
    as [new [Hst Hnew]].
  rewrite Hst. cbn [fst app]. eapply Forall_impl; [|exact Hnew].
  cbv beta. intros e' [i [Hi [Hn [Ht Hr]]]].
  repeat split; try assumption; lia.
Qed.

Lemma located_validatePriorityLevel (name : string) (data : list row)
  (errs : list ValidationError) :
  validatePriorityLevel data name = Ok errs ->
  Forall (located name (List.length data)) errs.
Proof.
  unfold validatePriorityLevel.
  destruct (negb _); [intros [= <-]; constructor|].
  apply forEach_bounded. intros s r i s'.
  destruct (ToNumber (get r "PriorityLevel")) as [p|e]; cbn [bind];
    [|discriminate].
  destruct (isNaN p || num_lt p (Fin 1) || num_gt p (Fin 5));
    [|intros [= <-]; no_error].
  destruct (ToString (get r "PriorityLevel")) as [t|e]; cbn [bind];
    [|discriminate].
  intros [= <-]. one_error.
Qed.

Lemma located_validateDuration (name : string) (data : list row)
  (errs : list ValidationError) :
  validateDuration data name = Ok errs ->
  Forall (located name (List.length data)) errs.
Proof.
  unfold validateDuration.
  destruct (negb _); [intros [= <-]; constructor|].
  apply forEach_bounded. intros s r i s'.
  destruct (ToNumber (get r "Duration")) as [p|e]; cbn [bind];
    [|discriminate].
  destruct (isNaN p || num_lt p (Fin 1)); [|intros [= <-]; no_error].
  destruct (ToString (get r "Duration")) as [t|e]; cbn [bind];
    [|discriminate].
  intros [= <-]. one_error.
Qed.

Lemma located_validateAvailableSlots (name : string) (data : list row)
  (errs : list ValidationError) :
  validateAvailableSlots data name = Ok errs ->
  Forall (located name (List.length data)) errs.
Proof.
  unfold validateAvailableSlots.
  destruct (negb _); [intros [= <-]; constructor|].
  apply forEach_bounded. intros s r i s'.
  destruct (as_array (parseNumberArray (get r "AvailableSlots")))
    as [elements|e]; cbn [bind]; [|discriminate].
  destruct (some global_isNaN elements) as [[|]|e]; cbn [bind];
    [|intros [= <-]; no_error|discriminate].
  destruct (ToString (get r "AvailableSlots")) as [t|e]; cbn [bind];
    [|discriminate].
  intros [= <-]. one_error.
Qed.

Lemma attributes_loop_appends (name : string) (data : list loc) :
  forall index errors h errs,
    fst (attributes_loop name data index errors h) = Ok errs ->
    exists new,
      errs = (errors ++ new)%list
      /\ Forall (fun e => sheetName e = name /\ type e = error
                          /\ index <= rowIndex e
                             < index + Z.of_nat (List.length data)) new.
Proof.
  induction data as [|l data IH]; intros index errors h errs.
  - intros [= <-]. exists []. now rewrite app_nil_r.
  - cbn [attributes_loop]. rewrite attributes_step_spec.
    intros H. apply IH in H as [new [-> Hnew]].
    exists (attribute_errors name index (h l) ++ new)%list.
    unfold push_all. rewrite app_assoc. split; [reflexivity|].
    apply Forall_app. split.
    + unfold attribute_errors. destruct (get (h l) "AttributesJSON");
        try constructor.
      destruct (negb (String.eqb s EmptyString) && throws (JSON_parse s)
                && negb (looks_plain (trim s))); [|constructor].
      constructor; [|constructor].
      repeat split; cbn [rowIndex invalid_json List.length]; lia.
    + eapply Forall_impl; [|exact Hnew]. cbv beta.
      intros e [Hn [Ht Hr]]. repeat split; try assumption;
        cbn [List.length]; lia.
Qed.

Lemma located_validateAttributesJSON (name : string) (data : list loc)
  (h : heap) (errs : list ValidationError) :
  fst (validateAttributesJSON data name h) = Ok errs ->
  Forall (located name (List.length data)) errs.
Proof.
  unfold validateAttributesJSON.
  destruct (negb _); [intros [= <-]; constructor|].
  intros H. apply attributes_loop_appends in H as [new [-> Hnew]].
  cbn [app]. eapply Forall_impl; [|exact Hnew]. cbv beta.
  intros e [Hn [Ht Hr]]. repeat split; try assumption; lia.
Qed.

Lemma located_bounded (name : string) (n : nat)
  (errs : list ValidationError) :
  Forall (located name n) errs -> Forall (bounded n) errs.
Proof. apply Forall_impl. now intros e [_ H]. Qed.

Lemma bounded_validateTaskReferences (clients tasks : list row)
  (errs : list ValidationError) :
  validateTaskReferences clients tasks = Ok errs ->
  Forall (bounded (List.length clients)) errs.
Proof.
  unfold validateTaskReferences. intros H.
  apply (located_bounded "Clients"). revert H.
  apply forEach_bounded. intros s r i s'.
  destruct (parseCSVList (get r "RequestedTaskIDs")) as [req|e];
    cbn [bind]; [|discriminate].
  intros [= <-]. eexists. split; [reflexivity|].
  apply Forall_forall. intros e He. apply in_map_iff in He as [x [<- _]].
  now repeat split.
Qed.

Lemma bounded_validateWorkerOverload (workers : list row)
  (errs : list ValidationError) :
  validateWorkerOverload workers = Ok errs ->
  Forall (bounded (List.length workers)) errs.
Proof.
  unfold validateWorkerOverload. intros H.
  apply (located_bounded "Workers"). revert H.
  apply forEach_bounded. intros s r i s'.
  destruct (ToNumber (get r "MaxLoadPerPhase")) as [p|e]; cbn [bind];
    [|discriminate].
  destruct (length_of (parseNumberArray (get r "AvailableSlots")))
    as [len|e]; cbn [bind]; [|discriminate].
  destruct (ToNumber len) as [n|e]; cbn [bind]; [|discriminate].
  destruct (num_lt n p); [|intros [= <-]; no_error].
  destruct (ToString len) as [t|e]; cbn [bind]; [|discriminate].
  intros [= <-]. one_error.
Qed.

Lemma bounded_validateSkillCoverage (workers tasks : list row)
  (errs : list ValidationError) :
  validateSkillCoverage workers tasks = Ok errs ->
  Forall (bounded (List.length tasks)) errs.
Proof.
  unfold validateSkillCoverage.
  destruct (forEach _ workers []) as [workerSkills|e]; cbn [bind];
    [|discriminate].
  intros H. apply (located_bounded "Tasks"). revert H.
  apply forEach_bounded. intros s r i s'.
  destruct (parseCSVList (get r "RequiredSkills")) as [req|e];
    cbn [bind]; [|discriminate].
  intros [= <-]. eexists. split; [reflexivity|].
  apply Forall_forall. intros e He. apply in_map_iff in He as [x [<- _]].
  now repeat split.
Qed.

Lemma bounded_validateMaxConcurrency (tasks workers : list row)
  (errs : list ValidationError) :
  validateMaxConcurrency tasks workers = Ok errs ->
  Forall (bounded (List.length tasks)) errs.
Proof.
  unfold validateMaxConcurrency. intros H.
  apply (located_bounded "Tasks"). revert H.
  apply forEach_bounded. intros s r i s'.
  destruct (ToNumber (get r "MaxConcurrent")) as [p|e]; cbn [bind];
    [|discriminate].
  destruct (parseCSVList (get r "RequiredSkills")) as [req|e];
    cbn [bind]; [|discriminate].
  destruct (filterM _ workers) as [q|e]; cbn [bind]; [|discriminate].
  destruct (num_lt _ p); [|intros [= <-]; no_error].
  intros [= <-]. one_error.
Qed.

Lemma bounded_validatePhaseSlotSaturation (tasks workers : list row)
  (errs : list ValidationError) :
  validatePhaseSlotSaturation tasks workers = Ok errs ->
  Forall (bounded (List.length tasks)) errs.
Proof.
  unfold validatePhaseSlotSaturation.
  destruct (forEach _ workers []) as [phaseSlots|e]; cbn [bind];
    [|discriminate].
  destruct (forEach _ tasks []) as [phaseRequirements|e]; cbn [bind];
    [|discriminate].
  unfold forEach. intros H.
  match type of H with
  | forEach_from ?f ?l 0 [] = _ =>
      destruct (forEach_from_appends (fun s => s)
                  (fun (_ : Z) e => type e = error /\ rowIndex e = -1)
                  f l) with (index := 0) (s := @nil ValidationError)
                            (s' := errs)
        as [new [-> Hnew]]; [|exact H|]
  end.
  - intros s [phase required] i s'.
    destruct (num_gt required _); [|intros [= <-]; no_error].
    destruct (ToString phase) as [t|e]; cbn [bind]; [|discriminate].
    intros [= <-]. one_error.
  - cbn [app]. eapply Forall_impl; [|exact Hnew]. cbv beta.
    intros e [i [_ [Ht Hr]]]. split; [exact Ht|]. rewrite Hr. lia.
Qed.

Lemma gives_ret {A : Type} (P : A -> Prop) (a : A) : P a -> gives P (ret a).
Proof. intros H h b [= <-]. exact H. Qed.

Lemma gives_bind {A B : Type} (Q : A -> Prop) (P : B -> Prop)
  (m : M A) (k : A -> M B) :
  gives Q m -> (forall a, Q a -> gives P (k a)) -> gives P (bindM m k).
Proof.
  intros Hm Hk h b. unfold bindM.
  destruct (m h) as [[a|e] h'] eqn:E; [|discriminate].
  intros H. apply (Hk a) with (h := h'); [|exact H].
  apply (Hm h). now rewrite E.
Qed.

Lemma gives_call {A : Type} (P : A -> Prop)
  (f : list row -> result A) (data : list loc) :
  (forall rows a, List.length rows = List.length data ->
                  f rows = Ok a -> P a) ->
  gives P (call f data).
Proof.
  intros Hf h a H. apply (Hf (map h data)); [apply length_map | exact H].
Qed.

Lemma gives_call2 {A : Type} (P : A -> Prop)
  (f : list row -> list row -> result A) (data1 data2 : list loc) :
  (forall rows1 rows2 a,
     List.length rows1 = List.length data1 ->
     List.length rows2 = List.length data2 ->
     f rows1 rows2 = Ok a -> P a) ->
  gives P (call2 f data1 data2).
Proof.
  intros Hf h a H.
  apply (Hf (map h data1) (map h data2)); [apply length_map ..| exact H].
Qed.

Lemma located_points (workSheets : workbook) (name : string)
  (data : list loc) (errs : list ValidationError) :
  In (name, data) workSheets ->
  Forall (located name (List.length data)) errs ->
  Forall (points_into workSheets) errs.
Proof.
  intros Hin. apply Forall_impl. intros e [Hn Hb].
  exists data. now rewrite Hn.
Qed.

Lemma retag_points (workSheets : workbook) (name : string)
  (data : list loc) (errs : list ValidationError) :
  In (name, data) workSheets ->
  Forall (bounded (List.length data)) errs ->
  Forall (points_into workSheets) (retag name errs).
Proof.
  intros Hin H. unfold retag. apply Forall_map.
  eapply Forall_impl; [|exact H]. cbv beta. intros e Hb.
  exists data. split; [exact Hin | exact Hb].
Qed.

Ltac located_call lemma :=
  apply gives_call; intros rows a Hlen Hrun;
  rewrite <- Hlen; now apply lemma.

Ltac points_solve :=
  unfold push_all; repeat (apply Forall_app; split);
  first [ assumption
        | eapply located_points; eassumption
        | eapply retag_points; eassumption
        | constructor ].

Lemma points_validateSheet (workSheets : workbook)
  (allErrors : list ValidationError) (name : string) (data : list loc) :
  In (name, data) workSheets ->
  Forall (points_into workSheets) allErrors ->
  gives (Forall (points_into workSheets)) (validateSheet allErrors name data).
Proof.
  intros Hin Hacc. unfold validateSheet.
  apply (gives_bind (Forall (located name (List.length data))));
    [located_call located_validateRequiredColumns | intros e1 H1].
  apply (gives_bind (Forall (located name (List.length data))));
    [located_call located_validateDuplicateIDs | intros e2 H2].
  apply (gives_bind (Forall (points_into workSheets))).
  - destruct (String.eqb (getBaseSheetName name) "Clients").
    + apply (gives_bind (Forall (located name (List.length data))));
        [located_call located_validatePriorityLevel | intros e3 H3].
      apply (gives_bind (Forall (located name (List.length data)))).
      * intros h a Hrun. now apply (located_validateAttributesJSON _ _ h).
      * intros e4 H4. apply gives_ret. points_solve.
    + apply gives_ret. points_solve.
  - intros acc3 Hacc3.
    apply (gives_bind (Forall (points_into workSheets))).
    + destruct (String.eqb (getBaseSheetName name) "Workers").
      * apply (gives_bind (Forall (located name (List.length data))));
          [located_call located_validateAvailableSlots | intros e5 H5].
        apply gives_ret. points_solve.
      * apply gives_ret. points_solve.
    + intros acc4 Hacc4.
      destruct (String.eqb (getBaseSheetName name) "Tasks").
      * apply (gives_bind (Forall (located name (List.length data))));
          [located_call located_validateDuration | intros e6 H6].
        apply gives_ret. points_solve.
      * apply gives_ret. points_solve.
Qed.

Lemma points_validateSheets (workSheets entries : workbook) :
  incl entries workSheets ->
  forall allErrors,
    Forall (points_into workSheets) allErrors ->
    gives (Forall (points_into workSheets))
          (validateSheets entries allErrors).
Proof.
  induction entries as [|[name data] entries IH]; intros Hincl allErrors Hacc.
  - now apply gives_ret.
  - cbn [validateSheets].
    apply (gives_bind (Forall (points_into workSheets))).
    + apply points_validateSheet; [|exact Hacc]. apply Hincl. now left.
    + intros acc' Hacc'. apply IH; [|exact Hacc'].
      intros x Hx. apply Hincl. now right.
Qed.

(** the sheet the cross-sheet checks take for a kind is a sheet of the
    workbook *)
Lemma found_sheet_In (workSheets : workbook) (kind : string) :
  found (find_sheet workSheets kind) = true ->
  In (name_of (find_sheet workSheets kind),
      sheet workSheets (name_of (find_sheet workSheets kind))) workSheets.
Proof.
  unfold find_sheet.
  destruct (find _ (map fst workSheets)) as [n|] eqn:E; [|discriminate].
  intros _. cbn [name_of]. apply find_some in E as [Hin _].
  apply in_map_iff in Hin as [[n' data'] [Hn Hin]]. cbn [fst] in Hn.
  subst n'. unfold sheet.
  destruct (find (fun entry => String.eqb (fst entry) n) workSheets)
    as [[m data]|] eqn:F.
  - apply find_some in F as [HinF Heq]. cbn [fst] in Heq.
    apply String.eqb_eq in Heq. now subst m.
  - apply (find_none _ _ F) in Hin. cbn [fst] in Hin.
    now rewrite String.eqb_refl in Hin.
Qed.

Ltac cross_step :=
  match goal with
  | |- gives _ (ret _) => apply gives_ret; points_solve
  | |- gives _ (bindM (call2 validateTaskReferences ?c _) _) =>
      apply (gives_bind (Forall (bounded (List.length c))));
      [ apply gives_call2; intros ? ? ? ? ? ?;
        match goal with
        | Hl : List.length ?r1 = List.length c,
          Hrun : validateTaskReferences ?r1 ?r2 = Ok ?a |- _ =>
            rewrite <- Hl; apply (bounded_validateTaskReferences r1 r2 a Hrun)
        end
      | intros ? ? ]
  | |- gives _ (bindM (call validateWorkerOverload ?w) _) =>
      apply (gives_bind (Forall (bounded (List.length w))));
      [ apply gives_call; intros ? ? ? ?;
        match goal with
        | Hl : List.length ?r1 = List.length w,
          Hrun : validateWorkerOverload ?r1 = Ok ?a |- _ =>
            rewrite <- Hl; apply (bounded_validateWorkerOverload r1 a Hrun)
        end
      | intros ? ? ]
  | |- gives _ (bindM (call2 validateSkillCoverage _ ?t) _) =>
      apply (gives_bind (Forall (bounded (List.length t))));
      [ apply gives_call2; intros ? ? ? ? ? ?;
        match goal with
        | Hl : List.length ?r2 = List.length t,
          Hrun : validateSkillCoverage ?r1 ?r2 = Ok ?a |- _ =>
            rewrite <- Hl; apply (bounded_validateSkillCoverage r1 r2 a Hrun)
        end
      | intros ? ? ]
  | |- gives _ (bindM (call2 validateMaxConcurrency ?t _) _) =>
      apply (gives_bind (Forall (bounded (List.length t))));
      [ apply gives_call2; intros ? ? ? ? ? ?;
        match goal with
        | Hl : List.length ?r1 = List.length t,
          Hrun : validateMaxConcurrency ?r1 ?r2 = Ok ?a |- _ =>
            rewrite <- Hl; apply (bounded_validateMaxConcurrency r1 r2 a Hrun)
        end
      | intros ? ? ]
  | |- gives _ (bindM (call2 validatePhaseSlotSaturation ?t _) _) =>
      apply (gives_bind (Forall (bounded (List.length t))));
      [ apply gives_call2; intros ? ? ? ? ? ?;
        match goal with
        | Hl : List.length ?r1 = List.length t,
          Hrun : validatePhaseSlotSaturation ?r1 ?r2 = Ok ?a |- _ =>
            rewrite <- Hl;
            apply (bounded_validatePhaseSlotSaturation r1 r2 a Hrun)
        end
      | intros ? ? ]
  | |- gives _ (bindM (call validateCircularCoRunGroups _) _) =>
      apply (gives_bind (fun e : list ValidationError => e = []));
      [ apply gives_call; intros ? ? ? ?;
        match goal with
        | Hrun : validateCircularCoRunGroups ?r1 = Ok ?a |- _ =>
            rewrite validateCircularCoRunGroups_empty in Hrun;
            now injection Hrun
        end
      | intros ? -> ]
  | |- gives _ (bindM (call validateConflictingRules _) _) =>
      apply (gives_bind (fun e : list ValidationError => e = []));
      [ apply gives_call; intros ? ? ? ?;
        match goal with
        | Hrun : validateConflictingRules ?r1 = Ok ?a |- _ =>
            now injection Hrun
        end
      | intros ? -> ]
  | |- gives ?P (bindM _ _) => apply (gives_bind P); [ | intros ? ? ]
  end.

Lemma points_validateCrossSheet (workSheets : workbook)
  (allErrors : list ValidationError) :
  Forall (points_into workSheets) allErrors ->
  gives (Forall (points_into workSheets))
        (validateCrossSheet workSheets allErrors).
Proof.
  intros Hacc. unfold validateCrossSheet.
  pose proof (found_sheet_In workSheets "Clients") as Hc.
  pose proof (found_sheet_In workSheets "Workers") as Hw.
  pose proof (found_sheet_In workSheets "Tasks") as Ht.
  set (clientsSheet := find_sheet workSheets "Clients") in *.
  set (workersSheet := find_sheet workSheets "Workers") in *.
  set (tasksSheet := find_sheet workSheets "Tasks") in *.
  set (clients := sheet workSheets (name_of clientsSheet)) in *.
  set (workers := sheet workSheets (name_of workersSheet)) in *.
  set (tasks := sheet workSheets (name_of tasksSheet)) in *.
  destruct (found clientsSheet), (found workersSheet), (found tasksSheet);
    cbn [andb];
    try specialize (Hc eq_refl); try specialize (Hw eq_refl);
    try specialize (Ht eq_refl);
    repeat cross_step.
Qed.

(** X16: every error [validateAllData] returns points into the workbook:
    it is an error and not a warning, it names a sheet of the workbook (the
    cross-sheet checks name the first sheet of the kind, not the kind), and
    its row index is the index of a row of that sheet, or -1 for an error of
    the sheet as a whole. *)
Theorem X16_errors_point_into_the_workbook
  (workSheets : workbook) (h : heap) (r : ValidationResult) :
  fst (validateAllData workSheets h) = Ok r ->
  Forall (fun e =>
            type e = error
            /\ exists data,
                 In (sheetName e, data) workSheets
                 /\ -1 <= rowIndex e < Z.of_nat (List.length data))
         (errors r).
Proof.
  intros H.
  assert (Hp : Forall (points_into workSheets) (errors r)).
  { assert (G : gives (fun r => Forall (points_into workSheets) (errors r))
                      (validateAllData workSheets)); [|exact (G h r H)].
    unfold validateAllData.
    apply (gives_bind (Forall (points_into workSheets))).
    - apply points_validateSheets; [apply incl_refl | constructor].
    - intros acc Hacc.
      apply (gives_bind (Forall (points_into workSheets)));
        [now apply points_validateCrossSheet|].
      intros acc' Hacc'. now apply gives_ret. }
  eapply Forall_impl; [|exact Hp]. cbv beta.
  intros e [data [Hin [Ht Hr]]]. split; [exact Ht|]. now exists data.
Qed.

Lemma X16_errors_point_into_the_workbook_witness :
  exists r,
    fst (validateAllData sample_sheets (sample_rows 0 2)) = Ok r
    /\ map rowIndex (errors r) = [0; 0]
    /\ map sheetName (errors r) = ["Tasks"; "Tasks"]
    /\ Forall (fun e =>
                 type e = error
                 /\ exists data,
                      In (sheetName e, data) sample_sheets
                      /\ -1 <= rowIndex e < Z.of_nat (List.length data))
              (errors r).
Proof.
  eexists. split; [vm_compute; reflexivity|].
  split; [reflexivity|]. split; [reflexivity|].
  apply (X16_errors_point_into_the_workbook sample_sheets
           (sample_rows 0 2)).
  vm_compute. reflexivity.
Defined.

End ErrorsPointIntoTheWorkbook.

(* ================================================================== *)
(** * Sheets of no known kind, and sheets without rows *)
(* ================================================================== *)

Section UnknownSheets.

Variables (name : string) (data : list loc).

(** the sheet is no clients, workers or tasks sheet *)
Hypothesis Hkind : idColumn_of (getBaseSheetName name) = None.

(** and its name is not the name of a member of [Object.prototype], or it
    has no rows *)
Hypothesis Hcolumns :
  REQUIRED_COLUMNS (getBaseSheetName name) = Missing \/ data = [].

Lemma unknown_kind (kind : string) :
  kind = "Clients" \/ kind = "Workers" \/ kind = "Tasks" ->
  String.eqb (getBaseSheetName name) kind = false.
Proof.
  revert Hkind. unfold idColumn_of.
  destruct (String.eqb (getBaseSheetName name) "Clients") eqn:Ec;
    [discriminate|].
  destruct (String.eqb (getBaseSheetName name) "Workers") eqn:Ew;
    [discriminate|].
  destruct (String.eqb (getBaseSheetName name) "Tasks") eqn:Et;
    [discriminate|].
  now intros _ [->|[->| ->]].
Qed.

Lemma validateSheet_unknown (allErrors : list ValidationError) (h : heap) :
  validateSheet allErrors name data h = (Ok allErrors, h).
Proof.
  unfold validateSheet, bindM, call, ret.
  assert (Hreq : validateRequiredColumns name (map h data) = Ok []).
  { unfold validateRequiredColumns. destruct Hcolumns as [-> | ->];
      [reflexivity|].
    now destruct (REQUIRED_COLUMNS (getBaseSheetName name)). }
  assert (Hdup : validateDuplicateIDs name (map h data) = Ok [])
    by (unfold validateDuplicateIDs; now rewrite Hkind).
  rewrite Hreq, Hdup.
  rewrite !unknown_kind by auto.
  unfold push_all. now rewrite !app_nil_r.
Qed.

Lemma validateSheets_unknown (before after : workbook) :
  forall allErrors h,
    validateSheets ((before ++ (name, data) :: after)%list) allErrors h
    = validateSheets ((before ++ after)%list) allErrors h.
Proof.
  induction before as [|[n d] before IH]; intros allErrors h.
  - cbn [app validateSheets]. unfold bindM at 1.
    now rewrite validateSheet_unknown.
  - cbn [app validateSheets]. unfold bindM.
    destruct (validateSheet allErrors n d h) as [[a|e] h']; [apply IH|].
    reflexivity.
Qed.

Lemma find_sheet_unknown (before after : workbook) (kind : string) :
  kind = "Clients" \/ kind = "Workers" \/ kind = "Tasks" ->
  find_sheet ((before ++ (name, data) :: after)%list) kind
  = find_sheet ((before ++ after)%list) kind.
Proof.
  intros Hk. unfold find_sheet.
  induction before as [|[n d] before IH].
  - cbn [app map find fst]. now rewrite (unknown_kind kind Hk).
  - cbn [app map find fst]. now rewrite IH.
Qed.

Lemma sheet_unknown (before after : workbook) (kind : string)
  (n : string) :
  kind = "Clients" \/ kind = "Workers" \/ kind = "Tasks" ->
  find_sheet ((before ++ after)%list) kind = Some n ->
  sheet ((before ++ (name, data) :: after)%list) n = sheet ((before ++ after)%list) n.
Proof.
  intros Hk Hfind. unfold find_sheet in Hfind.
  apply find_some in Hfind as [_ Hn]. apply String.eqb_eq in Hn.
  assert (Hne : String.eqb name n = false).
  { destruct (String.eqb_spec name n) as [E|]; [|reflexivity].
    pose proof (unknown_kind kind Hk) as Hu.
    rewrite E, Hn, String.eqb_refl in Hu. discriminate. }
  unfold sheet. induction before as [|[m d] before IH].
  - cbn [app find fst]. now rewrite Hne.
  - cbn [app find fst]. destruct (String.eqb m n); [reflexivity | exact IH].
Qed.

End UnknownSheets.

Section Ignored.

Lemma validateCrossSheet_unknown (name : string) (data : list loc)
  (before after : workbook) (allErrors : list ValidationError) (h : heap) :
  idColumn_of (getBaseSheetName name) = None ->
  validateCrossSheet ((before ++ (name, data) :: after)%list) allErrors h
  = validateCrossSheet ((before ++ after)%list) allErrors h.
Proof.
  intros Hkind. unfold validateCrossSheet.
  rewrite !(find_sheet_unknown name data Hkind) by auto.
  pose proof (sheet_unknown name data Hkind before after "Clients") as Hc.
  pose proof (sheet_unknown name data Hkind before after "Workers") as Hw.
  pose proof (sheet_unknown name data Hkind before after "Tasks") as Ht.
  destruct (find_sheet ((before ++ after)%list) "Clients") as [c|];
    destruct (find_sheet ((before ++ after)%list) "Workers") as [w|];
    destruct (find_sheet ((before ++ after)%list) "Tasks") as [t|];
    cbn [name_of found andb];
    try rewrite (Hc c) by auto; try rewrite (Hw w) by auto;
    try rewrite (Ht t) by auto;
    rewrite ?andb_false_r; reflexivity.
Qed.

(** X17: a sheet that is no clients, workers or tasks sheet (its name,
    in lower case and trimmed, starts with none of client, worker and task)
    does not count: [validateAllData] returns for the workbook what it
    returns without the sheet, and leaves the same store, wherever the sheet
    stands among the others and whatever its rows hold.  The one exception
    is a sheet named like a member of [Object.prototype], which has to be
    without rows. *)
Theorem X17_sheets_of_unknown_kind_are_ignored
  (name : string) (data : list loc) (before after : workbook) (h : heap) :
  idColumn_of (getBaseSheetName name) = None ->
  REQUIRED_COLUMNS (getBaseSheetName name) = Missing \/ data = [] ->
  validateAllData ((before ++ (name, data) :: after)%list) h
  = validateAllData ((before ++ after)%list) h.
Proof.
  intros Hkind Hcolumns. unfold validateAllData, bindM.
  rewrite (validateSheets_unknown name data Hkind Hcolumns).
  destruct (validateSheets ((before ++ after)%list) [] h) as [[acc|e] h1];
    [|reflexivity].
  now rewrite (validateCrossSheet_unknown name data before after acc h1 Hkind).
Qed.

Lemma X17_sheets_of_unknown_kind_are_ignored_witness :
  validateAllData
    [ ("Clients", [0%nat]); ("Rules 2024", [3%nat; 4%nat]);
      ("Workers", [1%nat]); ("Tasks", [2%nat]) ]
    (sample_rows 0 2)
  = validateAllData sample_sheets (sample_rows 0 2).
Proof.
  apply (X17_sheets_of_unknown_kind_are_ignored "Rules 2024"
           [3%nat; 4%nat] [("Clients", [0%nat])]
           [("Workers", [1%nat]); ("Tasks", [2%nat])] (sample_rows 0 2)).
  - reflexivity.
  - left. reflexivity.
Defined.

End Ignored.

Section EmptySheets.

Lemma validateSheet_empty (allErrors : list ValidationError)
  (name : string) (h : heap) :
  validateSheet allErrors name [] h = (Ok allErrors, h).
Proof.
  unfold validateSheet, bindM, call, ret. cbn [map].
  assert (Hreq : validateRequiredColumns name [] = Ok [])
    by (unfold validateRequiredColumns;
        now destruct (REQUIRED_COLUMNS (getBaseSheetName name))).
  assert (Hdup : validateDuplicateIDs name [] = Ok [])
    by (unfold validateDuplicateIDs;
        now destruct (idColumn_of (getBaseSheetName name))).
  rewrite Hreq, Hdup. unfold push_all. rewrite !app_nil_r.
  unfold validatePriorityLevel, validateAttributesJSON,
    validateAvailableSlots, validateDuration.
  destruct (String.eqb (getBaseSheetName name) "Clients");
    destruct (String.eqb (getBaseSheetName name) "Workers");
    destruct (String.eqb (getBaseSheetName name) "Tasks");
    cbn; now rewrite ?app_nil_r.
Qed.

Lemma validateSheets_empty (entries : workbook) :
  Forall (fun entry => snd entry = []) entries ->
  forall allErrors h,
    validateSheets entries allErrors h = (Ok allErrors, h).
Proof.
  intros H. induction H as [|[name data] entries Hd _ IH];
    intros allErrors h; [reflexivity|].
  cbn [snd] in Hd. subst data. cbn [validateSheets]. unfold bindM.
  rewrite validateSheet_empty. apply IH.
Qed.

Lemma sheet_empty (workSheets : workbook) (name : string) :
  Forall (fun entry => snd entry = []) workSheets ->
  sheet workSheets name = [].
Proof.
  intros H. unfold sheet.
  destruct (find _ workSheets) as [[n d]|] eqn:E; [|reflexivity].
  apply find_some in E as [Hin _]. rewrite Forall_forall in H.
  apply (H (n, d) Hin).
Qed.

(** X18: a workbook whose sheets have no rows is valid, whatever the
    sheets are called and however many there are: [validateAllData]
    returns no error, does not throw and leaves the store as it is.  The
    workbook without any sheet is the first case of it. *)
Theorem X18_sheets_without_rows_are_valid (workSheets : workbook) (h : heap) :
  Forall (fun entry => snd entry = []) workSheets ->
  validateAllData workSheets h = (Ok (mkResult true []), h).
Proof.
  intros H. unfold validateAllData, bindM.
  rewrite (validateSheets_empty workSheets H).
  unfold validateCrossSheet, bindM, call, call2, ret.
  rewrite !(sheet_empty workSheets _ H). cbn [map].
  destruct (found (find_sheet workSheets "Clients"));
    destruct (found (find_sheet workSheets "Workers"));
    destruct (found (find_sheet workSheets "Tasks")); reflexivity.
Qed.

Lemma X18_sheets_without_rows_are_valid_witness :
  validateAllData [("Clients", []); ("constructor", []); ("Tasks 2", [])]
                  (sample_rows 1 1)
  = (Ok (mkResult true []), sample_rows 1 1).
Proof.
  apply (X18_sheets_without_rows_are_valid
           [("Clients", []); ("constructor", []); ("Tasks 2", [])]
           (sample_rows 1 1)).
  repeat constructor.
Defined.

End EmptySheets.

(* ================================================================== *)
(** * The errors of a tab, and the rules *)
(* ================================================================== *)

Section TabErrors.

Import Stepper.

Lemma prefixes_exclude (s : string) :
  (startsWith s "worker" = true -> startsWith s "client" = false)
  /\ (startsWith s "task" = true -> startsWith s "client" = false)
  /\ (startsWith s "task" = true -> startsWith s "worker" = false).
Proof.
  unfold startsWith. destruct s as [|c s]; [now repeat split|].
  cbn [String.prefix].
  destruct (ascii_dec "w" c) as [Ew|Ew], (ascii_dec "t" c) as [Et|Et],
    (ascii_dec "c" c) as [Ec|Ec];
    repeat split; intros H; try discriminate H; try reflexivity;
    exfalso; congruence.
Qed.

Lemma kind_by_prefix (name : string) :
  (getBaseSheetName name = "Clients"
   <-> startsWith (clean name) "client" = true)
  /\ (getBaseSheetName name = "Workers"
      <-> startsWith (clean name) "worker" = true)
  /\ (getBaseSheetName name = "Tasks"
      <-> startsWith (clean name) "task" = true).
Proof.
  unfold clean.
  destruct (prefixes_exclude (trim (replace_spaces false (toLowerCase name))))
    as [Hwc [Htc Htw]].
  destruct (getBaseSheetName_cases name)
    as [[H1 E]|[[H1 [H2 E]]|[[H1 [H2 [H3 E]]]|[H1 [H2 [H3 E]]]]]];
    cbv zeta in *.
  - rewrite E. split; [now split|]. split; split; try discriminate.
    + intros H. now rewrite (Hwc H) in H1.
    + intros H. now rewrite (Htc H) in H1.
  - rewrite E, H1, H2. split; [split; discriminate|].
    split; [now split|]. split; [discriminate|].
    intros H. now rewrite (Htw H) in H2.
  - rewrite E, H1, H2, H3. split; [split; discriminate|].
    split; [split; discriminate | now split].
  - rewrite H1, H2, H3. rewrite E.
    split; [|split]; (split; [|discriminate]); intros Hn; exfalso;
      rewrite Hn in H1, H2, H3; discriminate.
Qed.

(** the three tests of the filter, in terms of the kinds of the sheets *)
Lemma same_kind_flags (a b : string) :
  (startsWith (clean a) "client" && startsWith (clean b) "client")
  || (startsWith (clean a) "worker" && startsWith (clean b) "worker")
  || (startsWith (clean a) "task" && startsWith (clean b) "task") = true
  <-> (getBaseSheetName b = "Clients" \/ getBaseSheetName b = "Workers"
       \/ getBaseSheetName b = "Tasks")
      /\ getBaseSheetName a = getBaseSheetName b.
Proof.
  destruct (kind_by_prefix a) as [Hc [Hw Ht]].
  destruct (kind_by_prefix b) as [Hc' [Hw' Ht']].
  rewrite !orb_true_iff, !andb_true_iff.
  rewrite <- Hc, <- Hw, <- Ht, <- Hc', <- Hw', <- Ht'. split.
  - intros [[[-> ->]|[-> ->]]|[-> ->]]; auto.
  - intros [[E|[E|E]] ->]; rewrite E; auto.
Qed.

(** X19: the errors [getSheetValidationErrors] lists on the tab of a sheet
    are the errors of the result that name the sheet,
    together with the errors of a whole sheet (row index -1) of any sheet
    of the same kind, when the tab is a clients, workers or tasks sheet.  So
    an error of a row shows on the tab of its own sheet and on no other, and
    an error of a whole sheet shows on every tab of its kind. *)
Theorem X19_tab_errors_are_those_of_the_sheet_or_its_kind
  (validationResult : ValidationResult) (name : string)
  (e : ValidationError) :
  In e (getSheetValidationErrors validationResult name)
  <-> In e (errors validationResult)
      /\ (sheetName e = name
          \/ (rowIndex e = -1
              /\ (getBaseSheetName name = "Clients"
                  \/ getBaseSheetName name = "Workers"
                  \/ getBaseSheetName name = "Tasks")
              /\ getBaseSheetName (sheetName e) = getBaseSheetName name)).
Proof.
  unfold getSheetValidationErrors. rewrite filter_In.
  apply and_iff_compat_l.
  assert (Hshown : shown_on name e
    = if rowIndex e =? -1
      then (startsWith (clean (sheetName e)) "client"
            && startsWith (clean name) "client")
           || (startsWith (clean (sheetName e)) "worker"
               && startsWith (clean name) "worker")
           || (startsWith (clean (sheetName e)) "task"
               && startsWith (clean name) "task")
           || String.eqb (sheetName e) name
      else String.eqb (sheetName e) name).
  { unfold shown_on. cbv zeta. destruct (rowIndex e =? -1); [|reflexivity].
    destruct (_ && _); [reflexivity|]. cbn [orb].
    destruct (_ && _); [reflexivity|]. cbn [orb].
    now destruct (_ && _). }
  rewrite Hshown. destruct (Z.eqb_spec (rowIndex e) (-1)) as [Hr|Hr].
  - rewrite orb_true_iff, same_kind_flags, String.eqb_eq. tauto.
  - rewrite String.eqb_eq. tauto.
Qed.

End TabErrors.

Section Rules.

Import Stepper.

(** X20: a rule [validateRule] accepts is a coRun, loadLimit or
    phaseWindow rule that refers to the data: a coRun rule lists two tasks
    or more, all of them among the task identifiers; a loadLimit rule names
    a worker group of the data and a truthy maxSlots that is not a number
    below 1 (a text that is no number passes); a phaseWindow rule names a
    task of the data and has an array of phases that is not empty.  A rule
    of the type slotRestriction, which the prompt and the description of
    the rules know, is refused as of unknown type. *)
Theorem X20_accepted_rules_refer_to_the_data :
  (forall (rule : list (string * any)) (taskIds workerGroups : list any),
     validateRule rule taskIds workerGroups = Ok Valid ->
     (get rule "type" = Str "coRun"
      /\ exists tasks,
           get rule "tasks" = Arr tasks /\ (2 <= List.length tasks)%nat
           /\ Forall (fun task => Set_has taskIds task = true) tasks)
     \/ (get rule "type" = Str "loadLimit"
         /\ ToBoolean (get rule "workerGroup") = true
         /\ Set_has workerGroups (get rule "workerGroup") = true
         /\ ToBoolean (get rule "maxSlots") = true
         /\ exists n, ToNumber (get rule "maxSlots") = Ok n
                      /\ num_lt n (Fin 1) = false)
     \/ (get rule "type" = Str "phaseWindow"
         /\ ToBoolean (get rule "task") = true
         /\ Set_has taskIds (get rule "task") = true
         /\ exists phase phases, get rule "phases" = Arr (phase :: phases)))
  /\ (forall (rule : list (string * any)) (taskIds workerGroups : list any),
        get rule "type" = Str "slotRestriction" ->
        validateRule rule taskIds workerGroups
        = Ok (Invalid "Unknown rule type")).
Proof.
  split.
  - intros rule taskIds workerGroups. unfold validateRule.
    destruct (get rule "type") as [| | | |type| |]; try discriminate.
    destruct (String.eqb_spec type "coRun") as [->|_].
    { destruct (get rule "tasks") as [| | | | |tasks|]; try discriminate.
      destruct (Z.ltb_spec (Z.of_nat (List.length tasks)) 2) as [|Hlen];
        [discriminate|].
      destruct (forallb (fun task => Set_has taskIds task) tasks) eqn:Hall;
        [|discriminate].
      intros _. left. split; [reflexivity|]. exists tasks.
      split; [reflexivity|]. split; [lia|].
      apply Forall_forall. now apply forallb_forall. }
    destruct (String.eqb_spec type "loadLimit") as [->|_].
    { destruct (ToBoolean (get rule "workerGroup")) eqn:Hg; [|discriminate].
      destruct (Set_has workerGroups (get rule "workerGroup")) eqn:Hin;
        [|discriminate].
      cbn [negb orb].
      destruct (ToBoolean (get rule "maxSlots")) eqn:Hm; [|discriminate].
      cbn [negb]. unfold below_one.
      destruct (ToNumber (get rule "maxSlots")) as [n|e] eqn:Hn;
        cbn [bind]; [|discriminate].
      destruct (num_lt n (Fin 1)) eqn:Hlt; [discriminate|].
      intros _. right. left. repeat split; try reflexivity.
      now exists n. }
    destruct (String.eqb_spec type "phaseWindow") as [->|_];
      [|discriminate].
    destruct (ToBoolean (get rule "task")) eqn:Hg; [|discriminate].
    destruct (Set_has taskIds (get rule "task")) eqn:Hin; [|discriminate].
    cbn [negb orb].
    destruct (get rule "phases") as [| | | | |[|phase phases]|];
      try discriminate.
    intros _. right. right. repeat split; try reflexivity.
    now exists phase, phases.
  - intros rule taskIds workerGroups Htype. unfold validateRule.
    now rewrite Htype.
Qed.

Lemma X20_accepted_rules_refer_to_the_data_witness :
  validateRule
    [ ("type", Str "slotRestriction"); ("workerGroup", Str "Sales");
      ("minSlots", Number (Fin 2)) ] [Str "T1"] [Str "Sales"]
  = Ok (Invalid "Unknown rule type")
  /\ validateRule
       [ ("type", Str "loadLimit"); ("workerGroup", Str "Sales");
         ("maxSlots", Str "many") ] [Str "T1"] [Str "Sales"]
     = Ok Valid.
Proof.
  split.
  - apply (proj2 X20_accepted_rules_refer_to_the_data). reflexivity.
  - reflexivity.
Defined.

End Rules.

(* ================================================================== *)
(** * The parsers of the single-file App *)
(* ================================================================== *)

Section LegacyParsers.

Lemma trimStart_empty (s : string) :
  trimStart s = EmptyString -> all_chars is_space s = true.
Proof.
  induction s as [|c s IH]; [reflexivity|].
  cbn [trimStart all_chars]. destruct (is_space c); [exact IH|discriminate].
Qed.

Lemma trim_empty (s : string) :
  trim s = EmptyString -> all_chars is_space s = true.
Proof.
  unfold trim. intros H. apply trimStart_empty.
  pose proof (trimStart_head s) as Hh.
  destruct (trimStart s) as [|c t]; [reflexivity|].
  destruct (trimEnd_cons c t Hh) as [u Hu]. rewrite Hu in H. discriminate.
Qed.

(** X21: on a text, [parseCommaSeparated] of the single-file App and
    [parseCSVList] of [lib/validation.ts] return the same list: the tokens
    between the commas, trimmed, without the empty ones.  On anything that
    is no text [parseCommaSeparated] returns the empty list. *)
Theorem X21_comma_parsers_agree_on_texts :
  (forall s, parseCSVList (Str s) = Ok (Legacy.parseCommaSeparated (Str s)))
  /\ (forall v, (forall s, v <> Str s) -> Legacy.parseCommaSeparated v = []).
Proof.
  split.
  - intros s. unfold Legacy.parseCommaSeparated, parseCSVList.
    destruct (String.eqb_spec (trim s) EmptyString) as [E|_];
      [|reflexivity].
    pose proof (trim_empty s E) as Hsp.
    rewrite (split_single "," s)
      by (now apply (includes_all_chars is_space)).
    cbn [map filter]. now rewrite E.
  - intros v Hv. destruct v; try reflexivity. now destruct (Hv s).
Qed.





End LegacyParsers.

Section LegacyValidation.

Import Legacy LegacySpec.

(** a loop whose steps add to the state what they find in their own row *)
Lemma forEach_from_tracks {A St E : Type} (sel : E -> Prop)
  (P : St -> E -> Prop) (R : Z -> A -> E -> Prop)
  (f : St -> A -> Z -> result St) (l : list A) :
  (forall s x idx s', f s x idx = Ok s' ->
     forall e, sel e -> (P s' e <-> P s e \/ R idx x e)) ->
  forall index s s',
    forEach_from f l index s = Ok s' ->
    forall e, sel e ->
      (P s' e
       <-> P s e
           \/ exists i x, nth_error l i = Some x
                          /\ R (index + Z.of_nat i) x e).
Proof.
  intros Hf. induction l as [|x l IH]; intros index s s'.
  - intros [= <-] e _. split; [now left|].
    intros [H|[i [x [H _]]]]; [exact H|]. now destruct i.
  - cbn [forEach_from]. destruct (f s x index) as [s1|err] eqn:Hfx;
      cbn [bind]; [|discriminate].
    intros Hrest e He. rewrite (IH _ _ _ Hrest e He), (Hf _ _ _ _ Hfx e He).
    split.
    + intros [[H|H]|[i [y [Hn Hr]]]].
      * now left.
      * right. exists 0%nat, x. rewrite Z.add_0_r. now split.
      * right. exists (S i), y. split; [exact Hn|].
        now replace (index + Z.of_nat (S i)) with (index + 1 + Z.of_nat i)
          by lia.
    + intros [H|[[|i] [y [Hn Hr]]]]; [now do 2 left| |].
      * left. right. cbn in Hn. injection Hn as ->.
        now rewrite Z.add_0_r in Hr.
      * right. exists i, y. split; [exact Hn|].
        now replace (index + 1 + Z.of_nat i) with (index + Z.of_nat (S i))
          by lia.
Qed.

Lemma In_push {A : Type} (l : list A) (x y : A) :
  In y (push l x) <-> In y l \/ y = x.
Proof.
  unfold push. rewrite in_app_iff. cbn [In]. intuition congruence.
Qed.

Lemma In_pick_addError (tab tab' : Tab) (s : TabErrors) (i : Z)
  (c m : string) (x : CellError) :
  In x (pick tab (addError s tab' i c m))
  <-> In x (pick tab s) \/ (same_tab tab tab' = true /\ x = mkCellError i c m).
Proof.
  destruct tab, tab'; cbn [pick addError same_tab clients workers tasks];
    rewrite ?In_push; intuition congruence.
Qed.

Lemma quiet_refl (tab : Tab) (sel : CellError -> Prop) (s : TabErrors) :
  quiet tab sel s s.
Proof. now intros x _. Qed.

Lemma quiet_trans (tab : Tab) (sel : CellError -> Prop)
  (s1 s2 s3 : TabErrors) :
  quiet tab sel s1 s2 -> quiet tab sel s2 s3 -> quiet tab sel s1 s3.
Proof. intros H12 H23 x Hx. now rewrite (H23 x Hx), (H12 x Hx). Qed.

Lemma quiet_addError (tab tab' : Tab) (sel : CellError -> Prop)
  (c m : string) (i : Z) (s a : TabErrors) :
  same_tab tab tab' = false \/ ~ sel (mkCellError i c m) ->
  quiet tab sel s a -> quiet tab sel s (addError a tab' i c m).
Proof.
  intros H Ha x Hx. rewrite In_pick_addError, (Ha x Hx).
  split; [|now left].
  intros [Hin|[Ht ->]]; [exact Hin|].
  destruct H as [H|H]; [now rewrite H in Ht | now destruct H].
Qed.

Lemma quiet_missing (tab tab' : Tab) (sel : CellError -> Prop)
  (c m : string) (i : Z) (r : row) (s a : TabErrors) :
  same_tab tab tab' = false \/ ~ sel (mkCellError i c m) ->
  quiet tab sel s a -> quiet tab sel s (missing tab' i c m r a).
Proof.
  intros H Ha. unfold missing. destruct (negb _);
    [now apply quiet_addError | exact Ha].
Qed.

Lemma quiet_duplicated (tab tab' : Tab) (sel : CellError -> Prop)
  (c : string) (i : Z) (rows : list row) (r : row) (s a b : TabErrors) :
  same_tab tab tab' = false
  \/ (forall m, ~ sel (mkCellError i c ("Duplicate " ++ c ++ ": " ++ m))) ->
  duplicated tab' rows i c r a = Ok b ->
  quiet tab sel s a -> quiet tab sel s b.
Proof.
  intros H. unfold duplicated. destruct (_ && _);
    [|now intros [= <-]].
  destruct (ToString (get r c)) as [t|e]; cbn [bind]; [|discriminate].
  intros [= <-] Ha. apply quiet_addError; [|exact Ha].
  destruct H as [H|H]; [now left | right; apply H].
Qed.

(** a loop of quiet steps is quiet *)
Lemma quiet_forEach_from {A : Type} (tab : Tab) (sel : CellError -> Prop)
  (f : TabErrors -> A -> Z -> result TabErrors) (l : list A)
  (s : TabErrors) :
  (forall a x i b, f a x i = Ok b -> quiet tab sel s a -> quiet tab sel s b) ->
  forall index a b,
    forEach_from f l index a = Ok b -> quiet tab sel s a -> quiet tab sel s b.
Proof.
  intros Hf. induction l as [|x l IH]; intros index a b.
  - now intros [= <-].
  - cbn [forEach_from]. destruct (f a x index) as [a1|e] eqn:Hfx;
      cbn [bind]; [|discriminate].
    intros Hrest Ha. apply (IH _ _ _ Hrest). now apply (Hf _ _ _ _ Hfx).
Qed.

Lemma Ok_eq {A : Type} (a b : A) : Ok a = Ok b -> a = b.
Proof. now intros [= ->]. Qed.

Ltac ok_step :=
  let H := fresh in intros H; apply Ok_eq in H; rewrite <- H; clear H.

Ltac bind_step :=
  match goal with
  | |- bind ?m _ = Ok _ -> _ =>
      let H := fresh "Hstep" in
      destruct m eqn:H; cbn [bind]; [|discriminate]
  end.

Ltac quiet_side :=
  first [ left; assumption
        | left; reflexivity
        | right; unfold in_column; cbn; intros; congruence
        | right; unfold is_duplicate_error; cbn; intros; intros [? [? ?]];
          congruence
        | right; unfold is_duplicate_error; cbn; intros [? [? ?]];
          congruence ].

(** the steps of a loop body that add nothing to the selected errors *)
Ltac quiet_back :=
  repeat first
    [ assumption
    | apply quiet_refl
    | apply quiet_addError; [quiet_side|]
    | apply quiet_missing; [quiet_side|]
    | match goal with
      | H : duplicated _ _ _ _ _ ?a = Ok ?b |- quiet _ _ _ ?b =>
          eapply quiet_duplicated; [|exact H|]; [quiet_side|]
      | H : Ok ?a = Ok ?b |- quiet _ _ _ ?b =>
          apply Ok_eq in H; rewrite <- H; clear H
      | H : forEach _ _ ?a = Ok ?b |- quiet _ _ _ ?b =>
          unfold forEach in H;
          eapply quiet_forEach_from; [|exact H|];
          [ let Hx := fresh in
            intros ? ? ? ? Hx ?; cbv beta in Hx;
            repeat match type of Hx with
            | (if ?c then _ else _) = Ok _ => destruct c
            | bind ?m _ = Ok _ =>
                destruct m; cbn [bind] in Hx; [|discriminate Hx]
            end
          | ]
      | H : bind ?m _ = Ok ?b |- quiet _ _ _ ?b =>
          destruct m; cbn [bind] in H; [|discriminate H]
      | H : match ?v with _ => _ end = Ok ?b |- quiet _ _ _ ?b =>
          destruct v; cbn [present] in H
      | |- quiet _ _ _ (if ?c then _ else _) => destruct c
      | |- quiet _ _ _ (match ?v with _ => _ end) => destruct v
      end ].

Lemma client_step_quiet (tab : Tab) (sel : CellError -> Prop)
  (rows : list row) (ids : list any) (s s' : TabErrors) (c : row) (idx : Z) :
  same_tab tab clientsTab = false ->
  client_step rows ids s c idx = Ok s' -> quiet tab sel s s'.
Proof.
  intros Ht. unfold client_step. cbv zeta. repeat bind_step.
  ok_step. quiet_back.
Qed.

Lemma worker_step_quiet (tab : Tab) (sel : CellError -> Prop)
  (rows : list row) (s s' : TabErrors) (w : row) (idx : Z) :
  same_tab tab workersTab = false ->
  worker_step rows s w idx = Ok s' -> quiet tab sel s s'.
Proof.
  intros Ht. unfold worker_step. cbv zeta. repeat bind_step.
  ok_step. quiet_back.
Qed.

Lemma task_step_quiet (tab : Tab) (sel : CellError -> Prop)
  (rows : list row) (skills : list any) (s s' : TabErrors) (t : row)
  (idx : Z) :
  same_tab tab tasksTab = false ->
  task_step rows skills s t idx = Ok s' -> quiet tab sel s s'.
Proof.
  intros Ht. unfold task_step. cbv zeta. repeat bind_step.
  intros Hlast. quiet_back.
Qed.




(** the rows of a loop, counted from 0 *)
Lemma forEach_tracks {A : Type} (tab : Tab) (sel : CellError -> Prop)
  (R : Z -> A -> CellError -> Prop)
  (f : TabErrors -> A -> Z -> result TabErrors) (l : list A)
  (s s' : TabErrors) :
  (forall s x idx s', f s x idx = Ok s' ->
     forall e, sel e ->
       (In e (pick tab s') <-> In e (pick tab s) \/ R idx x e)) ->
  forEach f l s = Ok s' ->
  forall e, sel e ->
    (In e (pick tab s')
     <-> In e (pick tab s)
         \/ exists i x, nth_error l i = Some x /\ R (Z.of_nat i) x e).
Proof.
  intros Hf Hrun e He. unfold forEach in Hrun.
  apply (forEach_from_tracks sel (fun s e => In e (pick tab s)) R f l Hf
           0 s s' Hrun e He).
Qed.

Lemma forEach_quiet {A : Type} (tab : Tab) (sel : CellError -> Prop)
  (f : TabErrors -> A -> Z -> result TabErrors) (l : list A)
  (s s' : TabErrors) :
  (forall a x i b, f a x i = Ok b -> quiet tab sel a b) ->
  forEach f l s = Ok s' -> quiet tab sel s s'.
Proof.
  intros Hf Hrun. unfold forEach in Hrun.
  apply (quiet_forEach_from tab sel f l s) with (index := 0) (a := s);
    [|exact Hrun|apply quiet_refl].
  intros a x i b Hx Ha. eapply quiet_trans; [exact Ha|].
  now apply (Hf _ _ _ _ Hx).
Qed.



Lemma same_tab_refl (tab : Tab) : same_tab tab tab = true.
Proof. now destruct tab. Qed.

Lemma duplicated_tracks (tab : Tab) (rows : list row) (idx : Z) (c : string)
  (r : row) (a b : TabErrors) :
  duplicated tab rows idx c r a = Ok b ->
  forall e,
    In e (pick tab b) <-> In e (pick tab a) \/ reports_duplicate rows c idx r e.
Proof.
  unfold duplicated, reports_duplicate.
  destruct (ToBoolean (get r c) && shared rows c r idx).
  - destruct (ToString (get r c)) as [t|err]; cbn [bind]; [|discriminate].
    intros H e. apply Ok_eq in H. rewrite <- H, In_pick_addError.
    rewrite same_tab_refl. split.
    + intros [Hin|[_ ->]]; [now left|]. right. split; [reflexivity|].
      now exists t.
    + intros [Hin|[_ [t' [[= <-] ->]]]]; [now left|]. now right.
  - intros [= <-] e. split; [now left|]. now intros [H|[[=] _]].
Qed.

(** the check for duplicates between quiet steps *)
Lemma duplicated_between (tab : Tab) (rows : list row) (idx : Z)
  (c : string) (r : row) (s a b s' : TabErrors) :
  quiet tab (is_duplicate_error c) s a ->
  duplicated tab rows idx c r a = Ok b ->
  quiet tab (is_duplicate_error c) b s' ->
  forall e, is_duplicate_error c e ->
    (In e (pick tab s')
     <-> In e (pick tab s) \/ reports_duplicate rows c idx r e).
Proof.
  intros Ha Hd Hb e He.
  now rewrite (Hb e He), (duplicated_tracks _ _ _ _ _ _ _ Hd e), (Ha e He).
Qed.

Lemma client_step_duplicates (rows : list row) (ids : list any)
  (s s' : TabErrors) (c : row) (idx : Z) :
  client_step rows ids s c idx = Ok s' ->
  forall e, is_duplicate_error "ClientID" e ->
    (In e (pick clientsTab s')
     <-> In e (pick clientsTab s)
         \/ reports_duplicate rows "ClientID" idx c e).
Proof.
  unfold client_step. cbv zeta. repeat bind_step. ok_step.
  match goal with
  | H : duplicated _ _ _ _ _ _ = Ok _ |- _ =>
      apply (fun H1 H3 => duplicated_between _ _ _ _ _ _ _ _ _ H1 H H3);
      clear H
  end; quiet_back.
Qed.

Lemma worker_step_duplicates (rows : list row) (s s' : TabErrors) (w : row)
  (idx : Z) :
  worker_step rows s w idx = Ok s' ->
  forall e, is_duplicate_error "WorkerID" e ->
    (In e (pick workersTab s')
     <-> In e (pick workersTab s)
         \/ reports_duplicate rows "WorkerID" idx w e).
Proof.
  unfold worker_step. cbv zeta. repeat bind_step. ok_step.
  match goal with
  | H : duplicated _ _ _ _ _ _ = Ok _ |- _ =>
      apply (fun H1 H3 => duplicated_between _ _ _ _ _ _ _ _ _ H1 H H3);
      clear H
  end; quiet_back.
Qed.

Lemma task_step_duplicates (rows : list row) (skills : list any)
  (s s' : TabErrors) (t : row) (idx : Z) :
  task_step rows skills s t idx = Ok s' ->
  forall e, is_duplicate_error "TaskID" e ->
    (In e (pick tasksTab s')
     <-> In e (pick tasksTab s)
         \/ reports_duplicate rows "TaskID" idx t e).
Proof.
  unfold task_step. cbv zeta. repeat bind_step. intros Hlast.
  match goal with
  | H : duplicated _ _ _ _ _ _ = Ok _ |- _ =>
      apply (fun H1 H3 => duplicated_between _ _ _ _ _ _ _ _ _ H1 H H3);
      clear H
  end; quiet_back.
Qed.

Lemma filter_indexed_length {A : Type} (p : Z * A -> bool) (q : A -> bool)
  (l : list A) :
  (forall j x, p (j, x) = q x) ->
  forall k, List.length (filter p (indexed l k)) = List.length (filter q l).
Proof.
  intros Hp. induction l as [|x l IH]; intros k; [reflexivity|].
  cbn [indexed filter]. rewrite Hp. destruct (q x); cbn [List.length];
    now rewrite IH.
Qed.

Lemma filter_some {A : Type} (q : A -> bool) (l : list A) :
  (0 < List.length (filter q l))%nat
  <-> exists j x, nth_error l j = Some x /\ q x = true.
Proof.
  induction l as [|y l IH]; cbn [filter].
  - split; [cbn; lia|]. intros [[|j] [x [[=] _]]].
  - destruct (q y) eqn:Hy.
    + split; [|cbn; lia]. intros _. now exists 0%nat, y.
    + rewrite IH. split.
      * intros [j [x [Hn Hx]]]. now exists (S j), x.
      * intros [[|j] [x [Hn Hx]]]; [cbn in Hn; congruence|].
        now exists j, x.
Qed.

(** more than one element passes the filter when another one than a given
    one does *)
Lemma filter_another {A : Type} (q : A -> bool) (l : list A) :
  forall i w, nth_error l i = Some w -> q w = true ->
    ((1 < List.length (filter q l))%nat
     <-> exists j x, j <> i /\ nth_error l j = Some x /\ q x = true).
Proof.
  induction l as [|y l IH]; intros [|i] w Hn Hw; try discriminate.
  - cbn in Hn. injection Hn as ->. cbn [filter]. rewrite Hw.
    cbn [List.length]. rewrite <- Nat.succ_lt_mono, filter_some. split.
    + intros [j [x [Hj Hx]]]. now exists (S j), x.
    + intros [[|j] [x [Hne [Hj Hx]]]]; [now destruct Hne|]. now exists j, x.
  - cbn [nth_error] in Hn. cbn [filter]. destruct (q y) eqn:Hy.
    + cbn [List.length]. rewrite <- Nat.succ_lt_mono, filter_some. split.
      * intros _. now exists 0%nat, y.
      * intros _. now exists i, w.
    + rewrite (IH i w Hn Hw). split.
      * intros [j [x [Hne [Hj Hx]]]]. exists (S j), x. split; [lia|].
        now split.
      * intros [[|j] [x [Hne [Hj Hx]]]]; [cbn in Hj; congruence|].
        exists j, x. split; [lia|]. now split.
Qed.

Lemma shared_text (rows : list row) (column : string) (i : nat) (r : row)
  (id : string) :
  nth_error rows i = Some r -> get r column = Str id ->
  (shared rows column r (Z.of_nat i) = true
   <-> exists j r', j <> i /\ nth_error rows j = Some r'
                   /\ get r' column = Str id).
Proof.
  intros Hn Hid. unfold shared. rewrite Hid.
  set (q := fun r' : row => match get r' column with
                            | Str x => String.eqb x id
                            | _ => false
                            end).
  rewrite (filter_indexed_length _ q).
  2:{ intros j x. cbn [fst snd]. unfold q.
      now destruct (get x column) as [| | |[]| | |]. }
  assert (Hq : forall x, q x = true <-> get x column = Str id).
  { intros x. unfold q. destruct (get x column); try (split; congruence).
    rewrite String.eqb_eq. split; congruence. }
  rewrite Z.ltb_lt. change 1 with (Z.of_nat 1).
  rewrite <- Nat2Z.inj_lt, (filter_another q rows i r Hn (proj2 (Hq r) Hid)).
  split; intros [j [x [Hne [Hj Hx]]]]; exists j, x; now rewrite Hq in *.
Qed.

(** what a loop with the check for duplicates leaves for a row whose
    identifier is a text *)
Lemma forEach_duplicates (tab : Tab) (column : string)
  (f : TabErrors -> row -> Z -> result TabErrors) (rows : list row)
  (s s' : TabErrors) :
  (forall a x idx b, f a x idx = Ok b ->
     forall e, is_duplicate_error column e ->
       (In e (pick tab b)
        <-> In e (pick tab a) \/ reports_duplicate rows column idx x e)) ->
  forEach f rows s = Ok s' ->
  (forall e, is_duplicate_error column e -> ~ In e (pick tab s)) ->
  forall i r id,
    nth_error rows i = Some r -> get r column = Str id ->
    (In (duplicate i column id) (pick tab s') <-> repeated rows column i id).
Proof.
  intros Hf Hrun Hs i r id Hn Hid.
  assert (He : is_duplicate_error column (duplicate i column id))
    by (split; [reflexivity | now exists id]).
  rewrite (forEach_tracks tab (is_duplicate_error column)
             (reports_duplicate rows column) f rows s s' Hf Hrun _ He).
  unfold reports_duplicate, repeated. split.
  - intros [Hin|[j [x [Hj [Hb [t [Ht He']]]]]]]; [now destruct (Hs _ He)|].
    unfold duplicate in He'. injection He' as Hij _.
    apply Nat2Z.inj in Hij. subst j. rewrite Hn in Hj. injection Hj as <-.
    apply andb_prop in Hb. destruct Hb as [Hb Hsh]. rewrite Hid in Hb.
    cbn [ToBoolean] in Hb. split.
    + intros ->. discriminate.
    + now apply (shared_text rows column i r id Hn Hid).
  - intros [Hne Hex]. right. exists i, r. split; [exact Hn|]. split.
    + rewrite (proj2 (shared_text rows column i r id Hn Hid) Hex), Hid.
      cbn [ToBoolean]. rewrite andb_true_r.
      destruct (String.eqb_spec id EmptyString); [contradiction|reflexivity].
    + exists id. rewrite Hid. now split.
Qed.

(** X26: in a run of the legacy checks that returns, a row whose identifier
    (ClientID, WorkerID or TaskID) is a text gets the error
    "Duplicate <column>: <identifier>" exactly when the text is not empty
    and another row of the same table has the same text as its identifier:
    every row of a group of duplicates is reported, the first one too. *)
Theorem X26_legacy_checks_flag_every_row_of_a_duplicate
  (clientRows workerRows taskRows : list row) (errors : TabErrors)
  (summary : list (SummaryType * string)) :
  runAllValidations clientRows workerRows taskRows = Ok (errors, summary) ->
  forall (i : nat) (r : row) (id : string),
    (nth_error clientRows i = Some r -> get r "ClientID" = Str id ->
     (In (duplicate i "ClientID" id) (clients errors)
      <-> repeated clientRows "ClientID" i id))
    /\ (nth_error workerRows i = Some r -> get r "WorkerID" = Str id ->
        (In (duplicate i "WorkerID" id) (workers errors)
         <-> repeated workerRows "WorkerID" i id))
    /\ (nth_error taskRows i = Some r -> get r "TaskID" = Str id ->
        (In (duplicate i "TaskID" id) (tasks errors)
         <-> repeated taskRows "TaskID" i id)).
Proof.
  unfold runAllValidations. cbv zeta.
  destruct (forEach (client_step _ _) _ _) as [s1|] eqn:H1; cbn [bind];
    [|discriminate].
  destruct (forEach (worker_step _) _ _) as [s2|] eqn:H2; cbn [bind];
    [|discriminate].
  destruct (forEach (task_step _ _) _ _) as [s3|] eqn:H3; cbn [bind];
    [|discriminate].
  intros H. apply Ok_eq in H. apply (f_equal fst) in H. cbn [fst] in H.
  subst s3. intros i r id.
  assert (Hc2 := fun sel => forEach_quiet clientsTab sel _ _ _ _
                   (fun a x i b => worker_step_quiet clientsTab sel _ a b x i
                                     eq_refl) H2).
  assert (Hc3 := fun sel => forEach_quiet clientsTab sel _ _ _ _
                   (fun a x i b => task_step_quiet clientsTab sel _ _ a b x i
                                     eq_refl) H3).
  assert (Hw1 := fun sel => forEach_quiet workersTab sel _ _ _ _
                   (fun a x i b => client_step_quiet workersTab sel _ _ a b
                                     x i eq_refl) H1).
  assert (Hw3 := fun sel => forEach_quiet workersTab sel _ _ _ _
                   (fun a x i b => task_step_quiet workersTab sel _ _ a b x i
                                     eq_refl) H3).
  assert (Ht1 := fun sel => forEach_quiet tasksTab sel _ _ _ _
                   (fun a x i b => client_step_quiet tasksTab sel _ _ a b
                                     x i eq_refl) H1).
  assert (Ht2 := fun sel => forEach_quiet tasksTab sel _ _ _ _
                   (fun a x i b => worker_step_quiet tasksTab sel _ a b x i
                                     eq_refl) H2).
  split; [|split]; intros Hn Hid.
  - rewrite <- (forEach_duplicates clientsTab "ClientID" _ _ _ _
                  (fun a x idx b => client_step_duplicates _ _ a b x idx)
                  H1 (fun _ _ H => H) i r id Hn Hid).
    change (clients errors) with (pick clientsTab errors).
    rewrite (Hc3 (fun _ => True) _ I). apply (Hc2 (fun _ => True) _ I).
  - rewrite <- (forEach_duplicates workersTab "WorkerID" _ _ _ _
                  (fun a x idx b => worker_step_duplicates _ a b x idx)
                  H2 (fun e _ H => proj1 (Hw1 (fun _ => True) e I) H)
                  i r id Hn Hid).
    change (workers errors) with (pick workersTab errors).
    apply (Hw3 (fun _ => True) _ I).
  - refine (forEach_duplicates tasksTab "TaskID" _ _ _ _
              (fun a x idx b => task_step_duplicates _ _ a b x idx)
              H3 (fun e _ H => _) i r id Hn Hid).
    apply (Ht2 (fun _ => True) e I) in H. now apply (Ht1 (fun _ => True) e I) in H.
Qed.

Lemma X26_legacy_checks_flag_every_row_of_a_duplicate_witness :
  exists errors summary,
    runAllValidations
      []
      [ [("WorkerID", Str "W1"); ("WorkerName", Str "Ann");
         ("MaxLoadPerPhase", Number (Fin 2))];
        [("WorkerID", Str "W2"); ("WorkerName", Str "Bob");
         ("MaxLoadPerPhase", Number (Fin 1))];
        [("WorkerID", Str "W1"); ("WorkerName", Str "Cid");
         ("MaxLoadPerPhase", Number (Fin 3))] ]
      []
    = Ok (errors, summary)
    /\ In (duplicate 0 "WorkerID" "W1") (workers errors)
    /\ In (duplicate 2 "WorkerID" "W1") (workers errors)
    /\ ~ In (duplicate 1 "WorkerID" "W2") (workers errors).
Proof.
  destruct (runAllValidations
              []
              [ [("WorkerID", Str "W1"); ("WorkerName", Str "Ann");
                 ("MaxLoadPerPhase", Number (Fin 2))];
                [("WorkerID", Str "W2"); ("WorkerName", Str "Bob");
                 ("MaxLoadPerPhase", Number (Fin 1))];
                [("WorkerID", Str "W1"); ("WorkerName", Str "Cid");
                 ("MaxLoadPerPhase", Number (Fin 3))] ]
              []) as [[errors summary]|e] eqn:Hrun;
    [|vm_compute in Hrun; discriminate].
  exists errors, summary. split; [reflexivity|].
  assert (Hdup := fun i r id =>
            proj1 (proj2 (X26_legacy_checks_flag_every_row_of_a_duplicate
                            _ _ _ _ _ Hrun i r id))).
  split; [|split].
  - apply (Hdup 0%nat _ "W1" eq_refl eq_refl). split; [discriminate|].
    exists 2%nat. eexists. split; [lia|]. split; reflexivity.
  - apply (Hdup 2%nat _ "W1" eq_refl eq_refl). split; [discriminate|].
    exists 0%nat. eexists. split; [lia|]. split; reflexivity.
  - intros Hin. apply (Hdup 1%nat _ "W2" eq_refl eq_refl) in Hin.
    destruct Hin as [_ [j [r [Hne [Hj Hid]]]]].
    destruct j as [|[|[|[|j]]]]; cbn in Hj; try discriminate;
      try (now destruct Hne); injection Hj as <-; discriminate.
Defined.

End LegacyValidation.

(* ================================================================== *)
(** * What a run can throw *)
(* ================================================================== *)

Section Throws.

Lemma forEach_from_only {A S : Type} (f : S -> A -> Z -> result S)
  (l : list A) :
  (forall s x i, only_type_error (f s x i)) ->
  forall i s, only_type_error (forEach_from f l i s).
Proof.
  intros Hf. induction l as [|x l IH]; intros i s e; [discriminate|].
  cbn [forEach_from]. destruct (f s x i) as [s'|e'] eqn:Hfx; cbn [bind].
  - apply IH.
  - intros [= <-]. now apply (Hf s x i).
Qed.

Lemma mapM_ToString_only (l : list any) : only_type_error (mapM ToString l).
Proof.
  induction l as [|x l IH]; intros e; [discriminate|]. cbn [mapM].
  destruct (ToString x) as [s|e'] eqn:E; cbn [bind].
  - destruct (mapM ToString l) as [r|e2]; cbn [bind]; [discriminate|].
    intros [= <-]. now apply IH.
  - intros [= <-]. now apply (ToString_throws x).
Qed.

Lemma parseCSVList_only (v : any) : only_type_error (parseCSVList v).
Proof.
  destruct v; try discriminate. apply mapM_ToString_only.
Qed.

Lemma length_of_only (v : any) : only_type_error (length_of v).
Proof. destruct v; try discriminate; now intros e [= <-]. Qed.

Lemma as_array_only (v : any) : only_type_error (as_array v).
Proof. destruct v; try discriminate; now intros e [= <-]. Qed.

(** one step of a proof that a sequence of calls throws nothing else *)
Ltac only_step :=
  match goal with
  | |- forall e : exn, _ => intros ?
  | |- Ok _ = Throw _ -> _ => discriminate
  | |- Throw ?e' = Throw _ -> _ =>
      let H := fresh in intros H; injection H as <-
  | H : ToString ?v = Throw ?e |- ?e = TypeError =>
      exact (ToString_throws v e H)
  | H : ToNumber ?v = Throw ?e |- ?e = TypeError =>
      exact (ToNumber_throws v e H)
  | H : parseCSVList ?v = Throw ?e |- ?e = TypeError =>
      exact (parseCSVList_only v e H)
  | H : length_of ?v = Throw ?e |- ?e = TypeError =>
      exact (length_of_only v e H)
  | H : as_array ?v = Throw ?e |- ?e = TypeError =>
      exact (as_array_only v e H)
  | H : some global_isNaN ?l = Throw ?e |- ?e = TypeError =>
      exact (some_isNaN_throws l e H)
  | |- context [bind ?m _] =>
      let H := fresh "Hm" in destruct m eqn:H; cbn [bind]
  | |- context [if ?b then _ else _] => destruct b
  end.

Lemma validateRequiredColumns_only (name : string) (data : list row) :
  only_type_error (validateRequiredColumns name data).
Proof.
  unfold validateRequiredColumns.
  destruct (REQUIRED_COLUMNS _), data; try discriminate;
    now intros e [= <-].
Qed.

Lemma validateDuplicateIDs_only (name : string) (data : list row) :
  only_type_error (validateDuplicateIDs name data).
Proof.
  unfold validateDuplicateIDs, forEach.
  destruct (idColumn_of _) as [idColumn|]; [|discriminate].
  pose proof (forEach_from_only (duplicate_step name idColumn) data) as H.
  destruct (forEach_from _ data 0 ([], [])) as [st|e'] eqn:E; cbn [bind];
    [discriminate|].
  intros e [= <-]. apply (H) with (i := 0) (s := ([], [])); [|exact E].
  intros [errors seen] r i. unfold duplicate_step, only_type_error.
  cbv zeta. repeat only_step.
Qed.

Lemma validatePriorityLevel_only (name : string) (data : list row) :
  only_type_error (validatePriorityLevel data name).
Proof.
  unfold validatePriorityLevel, forEach. destruct (negb _); [discriminate|].
  apply forEach_from_only. intros s r i. unfold only_type_error.
  cbv zeta. repeat only_step.
Qed.

Lemma validateDuration_only (name : string) (data : list row) :
  only_type_error (validateDuration data name).
Proof.
  unfold validateDuration, forEach. destruct (negb _); [discriminate|].
  apply forEach_from_only. intros s r i. unfold only_type_error.
  cbv zeta. repeat only_step.
Qed.

Lemma validateAvailableSlots_only (name : string) (data : list row) :
  only_type_error (validateAvailableSlots data name).
Proof.
  unfold validateAvailableSlots, forEach. destruct (negb _); [discriminate|].
  apply forEach_from_only. intros s r i. unfold only_type_error.
  cbv zeta. repeat only_step.
Qed.

Lemma validateTaskReferences_only (clients tasks : list row) :
  only_type_error (validateTaskReferences clients tasks).
Proof.
  unfold validateTaskReferences, forEach.
  apply forEach_from_only. intros s r i. unfold only_type_error.
  cbv zeta. repeat only_step.
Qed.

Lemma validateWorkerOverload_only (workers : list row) :
  only_type_error (validateWorkerOverload workers).
Proof.
  unfold validateWorkerOverload, forEach.
  apply forEach_from_only. intros s r i. unfold only_type_error.
  cbv zeta. repeat only_step.
Qed.

Lemma validateSkillCoverage_only (workers tasks : list row) :
  only_type_error (validateSkillCoverage workers tasks).
Proof.
  unfold validateSkillCoverage.
  match goal with
  | |- only_type_error (bind (forEach ?f workers []) _) =>
      pose proof (forEach_from_only f workers) as Hw;
      destruct (forEach f workers []) as [ws|e'] eqn:E; cbn [bind]
  end.
  - unfold forEach. apply forEach_from_only. intros s r i.
    unfold only_type_error. cbv zeta. repeat only_step.
  - intros e [= <-]. apply Hw with (i := 0) (s := []); [|exact E].
    intros s r i. unfold only_type_error. cbv zeta. repeat only_step.
Qed.

Lemma qualified_only (req : list string) (workers : list row) :
  only_type_error
    (filterM (fun worker =>
                workerSkills <- parseCSVList (get worker "Skills") ;;
                Ok (existsb (fun skill => includes_string workerSkills skill)
                            req)) workers).
Proof.
  induction workers as [|w workers IH]; intros e; [discriminate|].
  cbn [filterM].
  destruct (parseCSVList (get w "Skills")) as [ws|e'] eqn:E; cbn [bind].
  - destruct (filterM _ workers) as [r|e2]; cbn [bind]; [discriminate|].
    intros [= <-]. now apply IH.
  - intros [= <-]. now apply (parseCSVList_only _ _ E).
Qed.

Lemma validateMaxConcurrency_only (tasks workers : list row) :
  only_type_error (validateMaxConcurrency tasks workers).
Proof.
  unfold validateMaxConcurrency, forEach.
  apply forEach_from_only. intros s r i. unfold only_type_error.
  cbv zeta.
  destruct (ToNumber (get r "MaxConcurrent")) as [n|e'] eqn:En; cbn [bind];
    [|intros e [= <-]; now apply (ToNumber_throws _ _ En)].
  destruct (parseCSVList (get r "RequiredSkills")) as [req|e'] eqn:Er;
    cbn [bind]; [|intros e [= <-]; now apply (parseCSVList_only _ _ Er)].
  pose proof (qualified_only req workers) as Hq.
  destruct (filterM _ workers) as [q|e'] eqn:Eq; cbn [bind];
    [|intros e [= <-]; now apply Hq].
  destruct (num_lt _ n); discriminate.
Qed.

Lemma validatePhaseSlotSaturation_only (tasks workers : list row) :
  only_type_error (validatePhaseSlotSaturation tasks workers).
Proof.
  unfold validatePhaseSlotSaturation.
  match goal with
  | |- only_type_error (bind (forEach ?f workers []) _) =>
      pose proof (forEach_from_only f workers) as Hw;
      destruct (forEach f workers []) as [phaseSlots|e'] eqn:E; cbn [bind]
  end.
  2:{ intros e [= <-]. apply Hw with (i := 0) (s := []); [|exact E].
      intros s r i. unfold only_type_error. cbv zeta.
      destruct (ToNumber (get r "MaxLoadPerPhase")) as [n|e1] eqn:En;
        cbn [bind]; [|intros e [= <-]; now apply (ToNumber_throws _ _ En)].
      destruct (as_array _) as [phases|e1] eqn:Ea; cbn [bind];
        [|intros e [= <-]; now apply (as_array_only _ _ Ea)].
      apply forEach_from_only. intros s' p j e. discriminate. }
  clear Hw E.
  match goal with
  | |- only_type_error (bind (forEach ?f tasks []) _) =>
      pose proof (forEach_from_only f tasks) as Ht;
      destruct (forEach f tasks []) as [phaseRequirements|e'] eqn:E;
        cbn [bind]
  end.
  2:{ intros e [= <-]. apply Ht with (i := 0) (s := []); [|exact E].
      intros s r i. unfold only_type_error. cbv zeta.
      destruct (ToNumber (get r "Duration")) as [d|e1] eqn:Ed;
        cbn [bind]; [|intros e [= <-]; now apply (ToNumber_throws _ _ Ed)].
      destruct (ToNumber (get r "MaxConcurrent")) as [n|e1] eqn:En;
        cbn [bind]; [|intros e [= <-]; now apply (ToNumber_throws _ _ En)].
      destruct (as_array _) as [phases|e1] eqn:Ea; cbn [bind];
        [|intros e [= <-]; now apply (as_array_only _ _ Ea)].
      apply forEach_from_only. intros s' p j e. discriminate. }
  unfold forEach. apply forEach_from_only. intros s [phase required] i.
  unfold only_type_error. repeat only_step.
Qed.

Lemma only_ret {A : Type} (a : A) : throws_type_error_only (ret a).
Proof. intros h e. discriminate. Qed.

Lemma only_bind {A B : Type} (m : M A) (k : A -> M B) :
  throws_type_error_only m -> (forall a, throws_type_error_only (k a)) ->
  throws_type_error_only (bindM m k).
Proof.
  intros Hm Hk h e. unfold bindM. specialize (Hm h).
  destruct (m h) as [[a|e'] h']; [apply Hk|].
  cbn [fst] in *. intros [= <-]. now apply Hm.
Qed.

Lemma only_call {A : Type} (f : list row -> result A) (data : list loc) :
  (forall rows, only_type_error (f rows)) ->
  throws_type_error_only (call f data).
Proof. intros Hf h. apply Hf. Qed.

Lemma only_call2 {A : Type} (f : list row -> list row -> result A)
  (data1 data2 : list loc) :
  (forall rows1 rows2, only_type_error (f rows1 rows2)) ->
  throws_type_error_only (call2 f data1 data2).
Proof. intros Hf h. apply Hf. Qed.

Lemma only_validateAttributesJSON (data : list loc) (name : string) :
  throws_type_error_only (validateAttributesJSON data name).
Proof.
  intros h. unfold validateAttributesJSON.
  destruct (negb _); [intros e; discriminate|].
  generalize 0 as index. generalize (@nil ValidationError) as errors.
  revert h. induction data as [|l data IH]; intros h errors index e;
    [discriminate|].
  cbn [attributes_loop]. rewrite attributes_step_spec. apply IH.
Qed.

Ltac only_steps :=
  repeat first
    [ apply only_ret
    | apply only_validateAttributesJSON
    | apply only_call; intros ?;
      first [ apply validateRequiredColumns_only
            | apply validateDuplicateIDs_only
            | apply validatePriorityLevel_only
            | apply validateAvailableSlots_only
            | apply validateDuration_only
            | apply validateWorkerOverload_only
            | (unfold only_type_error; intros ?;
               rewrite validateCircularCoRunGroups_empty; discriminate)
            | (unfold only_type_error, validateConflictingRules;
               intros ?; discriminate) ]
    | apply only_call2; intros ? ?;
      first [ apply validateTaskReferences_only
            | apply validateSkillCoverage_only
            | apply validateMaxConcurrency_only
            | apply validatePhaseSlotSaturation_only ]
    | apply only_bind; [|intros ?]
    | match goal with
      | |- throws_type_error_only (if ?b then _ else _) => destruct b
      end ].

Lemma only_validateSheets (entries : workbook) :
  forall allErrors,
    throws_type_error_only (validateSheets entries allErrors).
Proof.
  induction entries as [|[name data] entries IH]; intros allErrors.
  - apply only_ret.
  - cbn [validateSheets]. apply only_bind; [|intros a; apply IH].
    unfold validateSheet. only_steps.
Qed.

(** X23: [validateAllData] throws nothing but a TypeError.  The syntax
    errors of [JSON.parse] and the RangeError of an oversized range are
    caught where they arise, in [parseNumberArray] and in
    [validateAttributesJSON]; what gets out is the TypeError of a cell that
    does not convert to a text or a number, of a list cell that parses to
    something that is no array, or of a sheet named like a member of
    [Object.prototype]. *)
Theorem X23_a_run_throws_type_errors_only
  (workSheets : workbook) (h : heap) (e : exn) :
  fst (validateAllData workSheets h) = Throw e -> e = TypeError.
Proof.
  revert h e.
  change (throws_type_error_only (validateAllData workSheets)).
  unfold validateAllData. apply only_bind; [apply only_validateSheets|].
  intros a. apply only_bind; [|intros b; apply only_ret].
  unfold validateCrossSheet. only_steps.
Qed.

Lemma X23_a_run_throws_type_errors_only_witness :
  fst (validateAllData
         [("Workers", [0%nat])]
         (fun _ => [ ("WorkerID", Str "W1"); ("WorkerName", Str "w");
                     ("Skills", Str "s"); ("AvailableSlots", Str "5");
                     ("MaxLoadPerPhase", Number (Fin 1));
                     ("WorkerGroup", Str "g");
                     ("QualificationLevel", Str "q") ]))
  = Throw TypeError.
Proof.
  assert (H : exists e,
    fst (validateAllData
           [("Workers", [0%nat])]
           (fun _ => [ ("WorkerID", Str "W1"); ("WorkerName", Str "w");
                       ("Skills", Str "s"); ("AvailableSlots", Str "5");
                       ("MaxLoadPerPhase", Number (Fin 1));
                       ("WorkerGroup", Str "g");
                       ("QualificationLevel", Str "q") ]))
    = Throw e) by (eexists; vm_compute; reflexivity).
  destruct H as [e He].
  rewrite He. f_equal.
  exact (X23_a_run_throws_type_errors_only _ _ e He).
Defined.

End Throws.
